(** * smash: a shallow embedding of the job-control core

    The development follows the C sources file by file (jobs.h, jobs.c,
    parse.c, builtin.c, smash.c).  It models the build in which the macros
    DEBUG and EXTRA_CREDIT are not defined: DEBUG(...) expands to nothing and
    the pipe, glob and rusage blocks are compiled out.

    Conventions.
    - A C int is a Z; where the source computes on one (jobid + 1) the 32-bit
      wrap-around is written out ([int_wrap]).
    - A C string is a [string]; a [char *] that may be NULL is an
      [option string].
    - A singly linked list (job_t, command_t, component_t chained by [next])
      is a [list], in link order.
    - A [job_t *] argument is passed as the pointed-to record, [None] for
      NULL, and the function returns the record as it left it together with
      its C return value.  A pointer to a node of the job table is the
      position of the node in the table.  The record is written back to the
      table when the function returns.  When the function ends the process
      instead (exit(EXIT_FAILURE) in run_in_foreground, run_in_background
      and exec_job, reached also from builtin_fg and builtin_bg), the world
      of that [Exit] holds the node as it was before the call: what the C
      code had stored through the pointer by then (status, pgid, is_in_bg,
      exitcode, termattr) is not in it.  The development states nothing of
      the job table of an [Exit]; only its exit code is used.
    - Everything the shell asks of the operating system is recorded, call by
      call, in the [trace] of the [world]; what the operating system answers
      is given by the oracle [os], a function of the history and the call.
    - malloc and strdup of a non-NULL string are taken to succeed. *)

From Stdlib Require Import ZArith List String Ascii Bool Lia DecimalString DecimalPos Sorted.
Import ListNotations.

Local Open Scope string_scope.
Local Open Scope Z_scope.

(** ** C integers and characters *)

Definition INT_MAX : Z := 2147483647.
Definition INT_MIN : Z := -2147483648.

(** The value of an int expression whose mathematical result is [x], on a
    two's complement machine. *)
Definition int_wrap (x : Z) : Z := (x + 2147483648) mod 4294967296 - 2147483648.

(** printf's %d. *)
Definition fmt_d (x : Z) : string := NilEmpty.string_of_int (Z.to_int x).

Definition EINVAL : Z := 22.
Definition EINTR : Z := 4.
Definition EXIT_FAILURE : Z := 1.
Definition STDIN_FILENO : Z := 0.
Definition STDOUT_FILENO : Z := 1.
Definition STDERR_FILENO : Z := 2.
Definition SIGCONT : Z := 18.
Definition SIGTERM : Z := 15.
Definition WUNTRACED : Z := 2.
Definition TCSADRAIN : Z := 1.

Definition chr (n : nat) : ascii := ascii_of_nat n.
Definition str1 (c : ascii) : string := String c EmptyString.

Definition TAB : ascii := chr 9.
Definition LF : ascii := chr 10.
Definition VT : ascii := chr 11.
Definition FF : ascii := chr 12.
Definition CR : ascii := chr 13.
Definition SP : ascii := chr 32.

(** isspace(3) in the C locale. *)
Definition isspace (c : ascii) : bool :=
  Ascii.eqb c SP || Ascii.eqb c TAB || Ascii.eqb c LF ||
  Ascii.eqb c VT || Ascii.eqb c FF || Ascii.eqb c CR.

(** [c] occurs in the delimiter string [delims] (strchr(delims, c) != NULL). *)
Fixpoint is_delim (delims : string) (c : ascii) : bool :=
  match delims with
  | EmptyString => false
  | String d ds => Ascii.eqb c d || is_delim ds c
  end.

(** strncmp(s, p, strlen(p)) == 0. *)
Fixpoint starts_with (p s : string) : bool :=
  match p, s with
  | EmptyString, _ => true
  | String a p', String b s' => Ascii.eqb a b && starts_with p' s'
  | String _ _, EmptyString => false
  end.

(** s[strlen(s) - 1], for a non-empty s. *)
Fixpoint last_char (s : string) : option ascii :=
  match s with
  | EmptyString => None
  | String c EmptyString => Some c
  | String _ s' => last_char s'
  end.

(** s[strlen(s) - 1] = 0. *)
Fixpoint chop_last (s : string) : string :=
  match s with
  | EmptyString => EmptyString
  | String _ EmptyString => EmptyString
  | String c s' => String c (chop_last s')
  end.

(** s + n. *)
Fixpoint skipn_str (n : nat) (s : string) : string :=
  match n, s with
  | O, _ => s
  | S n', String _ s' => skipn_str n' s'
  | S _, EmptyString => EmptyString
  end.

(** ** strtok_r *)

(** strspn: the string from its first character that is no delimiter. *)
Fixpoint skip_delims (delims s : string) : string :=
  match s with
  | EmptyString => EmptyString
  | String c s' => if is_delim delims c then skip_delims delims s' else s
  end.

(** From the start of a token: the token, and what follows the delimiter
    that ended it (where strtok_r leaves its save pointer). *)
Fixpoint cut_token (delims s : string) : string * string :=
  match s with
  | EmptyString => (EmptyString, EmptyString)
  | String c s' =>
      if is_delim delims c then (EmptyString, s')
      else let (t, rest) := cut_token delims s' in (String c t, rest)
  end.

(** One call: [None] when strtok_r returns NULL. *)
Definition strtok_r (s delims : string) : option (string * string) :=
  match skip_delims delims s with
  | EmptyString => None
  | s1 => Some (cut_token delims s1)
  end.

(** The tokens that the loop
    [for (p = s; ; p = NULL) { tok = strtok_r(p, delims, &save); if (!tok) break; ... }]
    sees, in order.  [cur] is the token being read. *)
Fixpoint tokens_from (delims s cur : string) : list string :=
  match s with
  | EmptyString =>
      match cur with EmptyString => [] | _ => [cur] end
  | String c s' =>
      if is_delim delims c then
        match cur with
        | EmptyString => tokens_from delims s' EmptyString
        | _ => cur :: tokens_from delims s' EmptyString
        end
      else tokens_from delims s' (cur ++ str1 c)
  end.

Definition tokens (delims s : string) : list string :=
  tokens_from delims s EmptyString.

(** ** <sys/wait.h>

    The status macros are the C library's, not the shell's; these are the
    definitions of glibc's bits/waitstatus.h on the int [st]. *)

Definition WEXITSTATUS (st : Z) : Z := Z.shiftr (Z.land st 65280) 8.
Definition WTERMSIG (st : Z) : Z := Z.land st 127.
Definition WIFEXITED (st : Z) : bool := WTERMSIG st =? 0.

(** (signed char) x, for 0 <= x < 256. *)
Definition signed_char (x : Z) : Z := if 128 <=? x then x - 256 else x.

Definition WIFSIGNALED (st : Z) : bool :=
  0 <? Z.shiftr (signed_char (Z.land st 127 + 1)) 1.
Definition WIFSTOPPED (st : Z) : bool := Z.land st 255 =? 127.
Definition WIFCONTINUED (st : Z) : bool := st =? 65535.

(** ** parse.h *)

(** Modelled from the spec: parse.h is not among the sources.  Section 4.A
    splits the line into commands on the pipeline separator and each command
    into tokens on whitespace; the whitespace set is the one builtin.c
    tokenizes with (BUILTIN_DELIMS). *)
Definition COMMAND_DELIMS : string := "|".
Definition COMPONENT_DELIMS : string :=
  String TAB (String CR (String LF (String SP EmptyString))).

(** Modelled from the spec: the declarations of command_t and user_input_t
    are in parse.h; the fields are the ones parse.c and jobs.c read and write
    (section 3: Command, Pipeline).  [components] is the list of the
    component_t nodes' strings. *)
Record command_t : Type := mk_command {
  command : string;
  components : list string;
  redirect_stdout : option string;
  append_stdout : bool;
  redirect_stderr : option string;
  redirect_stdin : option string
}.

Record user_input_t : Type := mk_user_input {
  input : string;
  commands : list command_t;
  is_background_command : bool
}.

(** ** parse.c *)

(** memset(newc, 0, sizeof(command_t)); newc->command = strdup(tok). *)
Definition new_command (tok : string) : command_t :=
  mk_command tok [] None false None None.

(** insert_component: append at the end of the command's component list. *)
Definition insert_component (comp : string) (cmd : command_t) : command_t :=
  mk_command (command cmd) (components cmd ++ [comp]) (redirect_stdout cmd)
    (append_stdout cmd) (redirect_stderr cmd) (redirect_stdin cmd).

Definition set_redirect_stdout (cmd : command_t) (path : string) : command_t :=
  mk_command (command cmd) (components cmd) (Some path)
    (append_stdout cmd) (redirect_stderr cmd) (redirect_stdin cmd).

Definition set_append_stdout (cmd : command_t) (b : bool) : command_t :=
  mk_command (command cmd) (components cmd) (redirect_stdout cmd)
    b (redirect_stderr cmd) (redirect_stdin cmd).

Definition set_redirect_stderr (cmd : command_t) (path : string) : command_t :=
  mk_command (command cmd) (components cmd) (redirect_stdout cmd)
    (append_stdout cmd) (Some path) (redirect_stdin cmd).

Definition set_redirect_stdin (cmd : command_t) (path : string) : command_t :=
  mk_command (command cmd) (components cmd) (redirect_stdout cmd)
    (append_stdout cmd) (redirect_stderr cmd) (Some path).

(** The state of the component loop: the command under construction and
    retval->is_background_command.  [None] is strdup(NULL), reached when a
    redirection operator is the last token of its command. *)
Definition component_loop : Type :=
  list string -> command_t -> bool -> option (command_t * bool).

(** Lines 270-350: what the loop body does with [ctok] once the test for a
    background mark is over.  [rest] are the tokens strtok_r has yet to
    return and [continue] is the loop itself. *)
Definition parse_word (continue : component_loop)
    (ctok : string) (rest : list string) (newc : command_t) (bg : bool)
    : option (command_t * bool) :=
  if starts_with ">>" ctok then
    if (2 <? String.length ctok)%nat then
      continue rest
        (set_append_stdout (set_redirect_stdout newc (skipn_str 2 ctok)) true) bg
    else
      match rest with
      | [] => None
      | path :: rest' =>
          continue rest' (set_append_stdout (set_redirect_stdout newc path) true) bg
      end
  else if starts_with ">" ctok then
    if (1 <? String.length ctok)%nat then
      continue rest (set_redirect_stdout newc (skipn_str 1 ctok)) bg
    else
      match rest with
      | [] => None
      | path :: rest' => continue rest' (set_redirect_stdout newc path) bg
      end
  else if starts_with "2>" ctok then
    if (2 <? String.length ctok)%nat then
      continue rest (set_redirect_stderr newc (skipn_str 2 ctok)) bg
    else
      match rest with
      | [] => None
      | path :: rest' => continue rest' (set_redirect_stderr newc path) bg
      end
  else if starts_with "<" ctok then
    if (1 <? String.length ctok)%nat then
      continue rest (set_redirect_stdin newc (skipn_str 1 ctok)) bg
    else
      match rest with
      | [] => None
      | path :: rest' => continue rest' (set_redirect_stdin newc path) bg
      end
  else
    continue rest (insert_component ctok newc) bg.

(** ctok[strlen(ctok)-1] == '&'. *)
Definition ends_with_amp (ctok : string) : bool :=
  match last_char ctok with
  | Some c => Ascii.eqb c "&"
  | None => false
  end.

(** Lines 243-351: the loop over the tokens of one command. *)
Fixpoint parse_components (toks : list string) (newc : command_t) (bg : bool)
    {struct toks} : option (command_t * bool) :=
  match toks with
  | [] => Some (newc, bg)
  | ctok :: rest =>
      if starts_with "&" ctok then
        (* if it begins with a &, that's it for this token *)
        parse_components rest newc true
      else if ends_with_amp ctok then
        (* if it ends with a &, cut it out and see what the rest is *)
        parse_word parse_components (chop_last ctok) rest newc true
      else
        parse_word parse_components ctok rest newc bg
  end.

(** Lines 222-354: the loop over the commands of the line.  [cmds] are the
    commands already linked into retval->commands. *)
Fixpoint parse_commands (toks : list string) (cmds : list command_t) (bg : bool)
    : option (list command_t * bool) :=
  match toks with
  | [] => Some (cmds, bg)
  | tok :: rest =>
      match parse_components (tokens COMPONENT_DELIMS tok) (new_command tok) bg with
      | None => None
      | Some (newc, bg') => parse_commands rest (cmds ++ [newc]) bg'
      end
  end.

(** What a call of parse_input comes to. *)
Inductive parse_result : Type :=
| PNull                          (* returns NULL *)
| PInput (ui : user_input_t)     (* returns a user_input_t *)
| PFault.                        (* strdup(NULL): the shell faults *)

Definition parse_input (inp : option string) : parse_result :=
  match inp with
  | None => PNull
  | Some s =>
      match parse_commands (tokens COMMAND_DELIMS s) [] false with
      | None => PFault
      | Some (cmds, bg) => PInput (mk_user_input s cmds bg)
      end
  end.

(** ** jobs.h *)

(** The states a job can be in (NEW = 0, ..., CANCELED = 5 in the source;
    [status] never holds another value). *)
Inductive job_status : Type :=
| NEW | RUNNING | SUSPENDED | EXITED | ABORTED | CANCELED.

Definition job_status_eqb (a b : job_status) : bool :=
  match a, b with
  | NEW, NEW | RUNNING, RUNNING | SUSPENDED, SUSPENDED
  | EXITED, EXITED | ABORTED, ABORTED | CANCELED, CANCELED => true
  | _, _ => false
  end.

(** struct termios is opaque to the shell: it is only copied. *)
Definition termios : Type := Z.

Record job_t : Type := mk_job {
  ui : user_input_t;
  status : job_status;
  exitcode : Z;
  pgid : Z;
  jobid : Z;
  termattr : termios;
  is_background_job : Z;
  is_in_bg : bool
}.

Definition set_status (j : job_t) (s : job_status) : job_t :=
  mk_job (ui j) s (exitcode j) (pgid j) (jobid j) (termattr j)
    (is_background_job j) (is_in_bg j).

Definition set_exitcode (j : job_t) (e : Z) : job_t :=
  mk_job (ui j) (status j) e (pgid j) (jobid j) (termattr j)
    (is_background_job j) (is_in_bg j).

Definition set_pgid (j : job_t) (p : Z) : job_t :=
  mk_job (ui j) (status j) (exitcode j) p (jobid j) (termattr j)
    (is_background_job j) (is_in_bg j).

Definition set_jobid (j : job_t) (i : Z) : job_t :=
  mk_job (ui j) (status j) (exitcode j) (pgid j) i (termattr j)
    (is_background_job j) (is_in_bg j).

Definition set_termattr (j : job_t) (a : termios) : job_t :=
  mk_job (ui j) (status j) (exitcode j) (pgid j) (jobid j) a
    (is_background_job j) (is_in_bg j).

Definition set_is_in_bg (j : job_t) (b : bool) : job_t :=
  mk_job (ui j) (status j) (exitcode j) (pgid j) (jobid j) (termattr j)
    (is_background_job j) b.

(** ** The shell process and the operating system *)

(** What the shell asks of the C library and the kernel. *)
Inductive call : Type :=
| Dprintf (fd : Z) (text : string)
    (* dprintf(fd, ...), the arguments formatted into [text] *)
| ErrorMsg (msg : string) (errnum : option Z)
    (* the ERROR macro: fprintf(stderr, "ERROR: " msg "\n"), with
       strerror(errnum) for the %s of msg when it has one *)
| Tcsetpgrp (fd pgrp : Z)
| Tcgetattr (fd : Z)
| Tcsetattr (fd actions : Z) (attr : termios)
| Killpg (pgrp sig : Z)
| Waitpid (pid options : Z)
| Fork
| Setpgid (pid pgid : Z).

(** What comes back: the return value, errno, and what the call stored
    through its pointer argument (waitpid's status, tcgetattr's termios). *)
Record reply : Type := mk_reply {
  ret_val : Z;
  err_no : Z;
  out_status : Z;
  out_attr : termios
}.

(** The globals of jobs.c and smash.c, the environment, and the operating
    system: [os] answers a call given the calls made before it, and [trace]
    lists the calls made so far, oldest first. *)
Record world : Type := mk_world {
  jobs : list job_t;
  last_exit_code : Z;
  interactive : bool;
  enable_debug : bool;
  shell_pgid : Z;
  shell_termattr : termios;
  getenv : string -> option string;
  os : list call -> call -> reply;
  trace : list call
}.

Definition set_jobs (w : world) (js : list job_t) : world :=
  mk_world js (last_exit_code w) (interactive w) (enable_debug w)
    (shell_pgid w) (shell_termattr w) (getenv w) (os w) (trace w).

Definition set_last_exit_code (w : world) (e : Z) : world :=
  mk_world (jobs w) e (interactive w) (enable_debug w)
    (shell_pgid w) (shell_termattr w) (getenv w) (os w) (trace w).

Definition set_trace (w : world) (t : list call) : world :=
  mk_world (jobs w) (last_exit_code w) (interactive w) (enable_debug w)
    (shell_pgid w) (shell_termattr w) (getenv w) (os w) t.

(** How a C function of the shell ends. *)
Inductive outcome (A : Type) : Type :=
| Ret (a : A) (w : world)
    (* it returns a *)
| Exit (code : Z) (w : world)
    (* it calls exit(code): the process ends, after the handler registered
       with atexit (smash_atexit) has run; w is the world at the call, but
       for the record of a job that the function was handed (see the
       conventions above) *)
| InChild (cmd : command_t) (pgrp : Z) (foreground : bool) (w : world)
    (* fork returned 0: this is the child, which goes on to
       launch_child(cmd, pgrp, foreground) and never returns *)
| Fault (w : world).
    (* it dereferences a NULL pointer: the process is killed *)

Arguments Ret {A} a w.
Arguments Exit {A} code w.
Arguments InChild {A} cmd pgrp foreground w.
Arguments Fault {A} w.

Definition M (A : Type) : Type := world -> outcome A.

Definition ret {A : Type} (a : A) : M A := fun w => Ret a w.

Definition bind {A B : Type} (m : M A) (k : A -> M B) : M B :=
  fun w =>
    match m w with
    | Ret a w' => k a w'
    | Exit code w' => Exit code w'
    | InChild cmd pgrp fg w' => InChild cmd pgrp fg w'
    | Fault w' => Fault w'
    end.

Notation "x <- m ;; k" := (bind m (fun x => k))
  (at level 61, m at next level, right associativity).
Notation "m ;;; k" := (bind m (fun _ => k))
  (at level 61, right associativity).

Definition get : M world := fun w => Ret w w.
Definition put_jobs (js : list job_t) : M unit := fun w => Ret tt (set_jobs w js).
Definition put_last_exit_code (e : Z) : M unit :=
  fun w => Ret tt (set_last_exit_code w e).
Definition exit {A : Type} (code : Z) : M A := fun w => Exit code w.
Definition fault {A : Type} : M A := fun w => Fault w.
Definition in_child {A : Type} (cmd : command_t) (pgrp : Z) (fg : bool) : M A :=
  fun w => InChild cmd pgrp fg w.

(** Make the call [c]: the operating system answers from the history, and
    the call joins the history. *)
Definition sys (c : call) : M reply :=
  fun w => Ret (os w (trace w) c) (set_trace w (trace w ++ [c])).

(** ERROR(msg) and ERROR(msg ": %s", strerror(errno)). *)
Definition ERROR (msg : string) (errnum : option Z) : M unit :=
  sys (ErrorMsg msg errnum) ;;; ret tt.

(** The text written to standard output by the calls of a history. *)
Fixpoint stdout_of (t : list call) : list string :=
  match t with
  | [] => []
  | Dprintf fd text :: t' =>
      if fd =? STDOUT_FILENO then text :: stdout_of t' else stdout_of t'
  | _ :: t' => stdout_of t'
  end.

(** ** jobs.c *)

(** jobs_status_as_char. *)
Definition jobs_status_as_char (s : job_status) : string :=
  match s with
  | NEW => "new"
  | RUNNING => "running"
  | SUSPENDED => "suspended"
  | EXITED => "exited"
  | ABORTED => "aborted"
  | CANCELED => "canceled"
  end.

(** print_job. *)
Definition print_job (j : option job_t) : M Z :=
  match j with
  | None => ret (- EINVAL)
  | Some j =>
      if negb (job_status_eqb (status j) EXITED) &&
         negb (job_status_eqb (status j) ABORTED)
      then
        r <- sys (Dprintf STDOUT_FILENO
                    ("[" ++ fmt_d (jobid j) ++ "] (" ++
                     jobs_status_as_char (status j) ++ ") " ++
                     input (ui j) ++ str1 LF)) ;;
        if ret_val r <? 0 then ret (-1) else ret 0
      else
        r <- sys (Dprintf STDOUT_FILENO
                    ("[" ++ fmt_d (jobid j) ++ "] (" ++
                     jobs_status_as_char (status j) ++ " <" ++
                     fmt_d (exitcode j) ++ ">) " ++
                     input (ui j) ++ str1 LF)) ;;
        if ret_val r <? 0 then ret (-1) else ret 0
  end.

(** job_update_status. *)
Definition job_update_status (j : option job_t) (st : Z) : M (Z * option job_t) :=
  match j with
  | None => ret (- EINVAL, None)
  | Some j =>
      if WIFSTOPPED st then
        ret (0, Some (set_status j SUSPENDED))
      else if WIFCONTINUED st then
        ret (0, Some (set_status j RUNNING))
      else if WIFSIGNALED st then
        let j := set_exitcode (set_status j ABORTED) (WTERMSIG st) in
        w <- get ;;
        (if enable_debug w then
           r <- sys (Dprintf STDERR_FILENO
                       ("ABORTED: '" ++ input (ui j) ++ "' <signal=" ++
                        fmt_d (exitcode j) ++ ">" ++ str1 LF)) ;;
           if ret_val r <? 0 then ERROR "dprintf() failed" None else ret tt
         else ret tt) ;;;
        ret (0, Some j)
      else if WIFEXITED st then
        let j := set_exitcode (set_status j EXITED) (WEXITSTATUS st) in
        w <- get ;;
        (if enable_debug w then
           r <- sys (Dprintf STDERR_FILENO
                       ("ENDED: '" ++ input (ui j) ++ "' <ret=" ++
                        fmt_d (exitcode j) ++ ">" ++ str1 LF)) ;;
           if ret_val r <? 0 then ERROR "dprintf() failed" None else ret tt
         else ret tt) ;;;
        ret (0, Some j)
      else
        ret (0, Some j)
  end.

(** The record behind a pointer known not to be NULL. *)
Definition pointee (j : job_t) (p : option job_t) : job_t :=
  match p with
  | Some j' => j'
  | None => j
  end.

(** run_in_background. *)
Definition run_in_background (job : option job_t) (cont : bool)
    : M (Z * option job_t) :=
  match job with
  | None => ret (-1, None)
  | Some j =>
      if negb (job_status_eqb (status j) NEW || job_status_eqb (status j) SUSPENDED)
      then ret (-1, Some j)
      else
        let j := set_is_in_bg (set_status j RUNNING) true in
        (if cont then
           r <- sys (Killpg (pgid j) SIGCONT) ;;
           if ret_val r <? 0 then
             ERROR "killpg() failed to send SIGCONT to child: %s" (Some (err_no r)) ;;;
             exit EXIT_FAILURE
           else ret tt
         else ret tt) ;;;
        ret (0, Some j)
  end.

(** job_wait. *)
Definition job_wait (job : option job_t) : M (Z * option job_t) :=
  match job with
  | None => ret (-1, None)
  | Some j =>
      r <- sys (Waitpid (pgid j) WUNTRACED) ;;
      if 0 <? ret_val r then
        p <- job_update_status (Some j) (out_status r) ;;
        ret (0, snd p)
      else
        ret (0, Some j)
  end.

(** restore_shell_control: the second component is what the call left in
    *termattr. *)
Definition restore_shell_control (termattr : option termios)
    : M (Z * option termios) :=
  match termattr with
  | None => ret (-1, None)
  | Some a =>
      w <- get ;;
      r <- sys (Tcsetpgrp STDIN_FILENO (shell_pgid w)) ;;
      if ret_val r <? 0 then
        ERROR "tcsetpgrp() failed to reclaim control of terminal: %s"
          (Some (err_no r)) ;;;
        exit EXIT_FAILURE
      else
        r <- sys (Tcgetattr STDIN_FILENO) ;;
        if ret_val r <? 0 then
          ERROR "tcgetattr() failed: %s" (Some (err_no r)) ;;;
          exit EXIT_FAILURE
        else
          let a := out_attr r in
          r <- sys (Tcsetattr STDIN_FILENO TCSADRAIN (shell_termattr w)) ;;
          if ret_val r <? 0 then
            ERROR "tcsetattr() failed: %s" (Some (err_no r)) ;;;
            exit EXIT_FAILURE
          else
            ret (0, Some a)
  end.

(** run_in_foreground. *)
Definition run_in_foreground (job : option job_t) (cont : bool)
    : M (Z * option job_t) :=
  match job with
  | None => ret (-1, None)
  | Some j =>
      if negb (job_status_eqb (status j) NEW ||
               job_status_eqb (status j) SUSPENDED ||
               job_status_eqb (status j) RUNNING)
      then ret (-1, Some j)
      else if job_status_eqb (status j) RUNNING && negb (is_in_bg j)
      then ret (-1, Some j)
      else
        let orig_status := status j in
        let j := set_is_in_bg (set_status j RUNNING) false in
        (* give child control of the terminal *)
        r <- sys (Tcsetpgrp STDIN_FILENO (pgid j)) ;;
        if ret_val r <? 0 then
          ERROR "tcsetpgrp() failed to bring job to foreground: %s"
            (Some (err_no r)) ;;;
          exit EXIT_FAILURE
        else
          (if cont && negb (job_status_eqb orig_status RUNNING) then
             r <- sys (Tcsetattr STDIN_FILENO TCSADRAIN (termattr j)) ;;
             if ret_val r <? 0 then
               ERROR "tcsetattr() failed: %s" (Some (err_no r)) ;;;
               exit EXIT_FAILURE
             else
               r <- sys (Killpg (pgid j) SIGCONT) ;;
               if ret_val r <? 0 then
                 ERROR "killpg() failed to send SIGCONT to child: %s"
                   (Some (err_no r)) ;;;
                 exit EXIT_FAILURE
               else ret tt
           else ret tt) ;;;
          (* wait *)
          p <- job_wait (Some j) ;;
          let j := pointee j (snd p) in
          (* switch back to shell *)
          q <- restore_shell_control (Some (termattr j)) ;;
          let j := match snd q with
                   | Some a => set_termattr j a
                   | None => j
                   end in
          if job_status_eqb (status j) EXITED then
            put_last_exit_code (exitcode j) ;;;
            ret (0, Some j)
          else if job_status_eqb (status j) SUSPENDED then
            print_job (Some j) ;;;
            ret (0, Some j)
          else
            ret (0, Some j)
  end.

(** jobs_create: memset to 0, then the user input. *)
Definition jobs_create (u : option user_input_t) : option job_t :=
  match u with
  | None => None
  | Some u => Some (mk_job u NEW 0 0 0 0 0 false)
  end.

(** The node the walk [while (j->next) j = j->next] stops at. *)
Fixpoint last_job (js : list job_t) : option job_t :=
  match js with
  | [] => None
  | [j] => Some j
  | _ :: js' => last_job js'
  end.

(** jobs_insert. *)
Definition jobs_insert (job : option job_t) : M Z :=
  match job with
  | None => ret (- EINVAL)
  | Some job =>
      w <- get ;;
      match last_job (jobs w) with
      | None =>
          (* empty list *)
          put_jobs [set_jobid job 1] ;;;
          ret 0
      | Some j =>
          put_jobs (jobs w ++ [set_jobid job (int_wrap (jobid j + 1))]) ;;;
          ret 0
      end
  end.

(** The list without the node at position [i]. *)
Fixpoint unlink (i : nat) (js : list job_t) : list job_t :=
  match js, i with
  | [], _ => []
  | _ :: js', O => js'
  | j :: js', S i' => j :: unlink i' js'
  end.

(** jobs_remove: [job] is the position of the node pointed to; a position
    past the end stands for a job that is not in the list. *)
Definition jobs_remove (job : option nat) : M Z :=
  match job with
  | None => ret (- EINVAL)
  | Some i =>
      w <- get ;;
      match jobs w with
      | [] => ret (- EINVAL)
      | _ =>
          if (i <? List.length (jobs w))%nat then
            put_jobs (unlink i (jobs w)) ;;;
            ret 0
          else
            ERROR ("No such job found." ++ str1 LF) None ;;;
            ret (- EINVAL)
      end
  end.

(** jobs_lookup_by_jobid: the position of the first job with that id. *)
Fixpoint jobs_lookup_by_jobid (id : Z) (js : list job_t) : option nat :=
  match js with
  | [] => None
  | j :: js' =>
      if jobid j =? id then Some O
      else option_map S (jobs_lookup_by_jobid id js')
  end.

(** The loop of jobs_list from the node [j] on: [nodes] are j and the nodes
    linked after it, and [i] is the position of j in the table. *)
Fixpoint jobs_list_from (nodes : list job_t) (i : nat) : M Z :=
  match nodes with
  | [] => ret 0
  | j :: nodes' =>
      r <- print_job (Some j) ;;
      if negb (r =? 0) then ret (-1)
      else if job_status_eqb (status j) EXITED ||
              job_status_eqb (status j) ABORTED
      then
        jobs_remove (Some i) ;;;
        jobs_list_from nodes' i
      else
        jobs_list_from nodes' (S i)
  end.

(** jobs_list. *)
Definition jobs_list : M Z :=
  w <- get ;;
  jobs_list_from (jobs w) O.

(** The table with the node at position [i] replaced by [j]. *)
Fixpoint store_at (i : nat) (j : job_t) (js : list job_t) : list job_t :=
  match js, i with
  | [], _ => []
  | _ :: js', O => j :: js'
  | j0 :: js', S i' => j0 :: store_at i' j js'
  end.

Definition store_job (i : nat) (p : option job_t) : M unit :=
  match p with
  | None => ret tt
  | Some j => w <- get ;; put_jobs (store_at i j (jobs w))
  end.

(** exec_job.  After jobs_insert the job is the last node of the table (the
    table is not empty then); the record is read from there, and written
    back when the function it was handed to returns.  When that function, or
    exec_job itself, calls exit(EXIT_FAILURE), the node is left in the world
    as jobs_insert put it. *)
Definition exec_job (job : option job_t) : M Z :=
  match job with
  | None => ret (-1)
  | Some _ =>
      r <- jobs_insert job ;;
      if r <? 0 then
        ERROR "failed to insert job into joblis" None ;;;
        exit EXIT_FAILURE
      else
        w <- get ;;
        let i := Nat.pred (List.length (jobs w)) in
        match last_job (jobs w) with
        | None => ret (-1)
        | Some j =>
            match commands (ui j) with
            | [] => ret (-1)
            | cmd :: _ =>
                r <- sys Fork ;;
                let ppid := ret_val r in
                if ppid <? 0 then
                  ERROR "fork() failed to spawn child process: %s"
                    (Some (err_no r)) ;;;
                  exit EXIT_FAILURE
                else if ppid =? 0 then
                  (* child *)
                  in_child cmd ppid (negb (is_background_command (ui j)))
                else
                  (* parent *)
                  let j := set_pgid j ppid in
                  (if interactive w then sys (Setpgid ppid ppid) ;;; ret tt
                   else ret tt) ;;;
                  if negb (interactive w) then
                    p <- job_wait (Some j) ;;
                    put_last_exit_code (exitcode (pointee j (snd p))) ;;;
                    store_job i (snd p) ;;;
                    ret 0
                  else if is_background_command (ui j) then
                    p <- run_in_background (Some j) false ;;
                    store_job i (snd p) ;;;
                    ret 0
                  else
                    p <- run_in_foreground (Some j) false ;;
                    store_job i (snd p) ;;;
                    ret 0
            end
        end
  end.

(** ** builtin.c *)

Definition NUM_BUILTINS : nat := 8.
Definition BUILTIN_DELIMS : string :=
  String TAB (String CR (String LF (String SP EmptyString))).

(** builtin_t: the command string and its callback. *)
Definition callback_t : Type := option string -> M Z.
Definition builtin_t : Type := (string * callback_t)%type.

(** builtin_exit. *)
Definition builtin_exit (cmd : option string) : M Z :=
  match cmd with
  | None => ret (- EINVAL)
  | Some s =>
      if (String.length s =? 4)%nat && starts_with "exit" s
      then exit 0
      else ret (- EINVAL)
  end.

(** Lines 263-265: the command line from its first white space on. *)
Fixpoint skip_word (c : string) : string :=
  match c with
  | EmptyString => EmptyString
  | String a c' => if isspace a then c else skip_word c'
  end.

(** The loop of builtin_echo over its tokens. *)
Fixpoint echo_tokens (toks : list string) : M unit :=
  match toks with
  | [] => ret tt
  | tok :: toks' =>
      match tok with
      | String "$" tok =>
          if String.eqb tok "?" then
            w <- get ;;
            sys (Dprintf STDOUT_FILENO (fmt_d (last_exit_code w))) ;;; ret tt
          else
            w <- get ;;
            sys (Dprintf STDOUT_FILENO
                   (match getenv w tok with
                    | Some var => var
                    | None => EmptyString
                    end)) ;;; ret tt
      | _ =>
          sys (Dprintf STDOUT_FILENO tok) ;;; ret tt
      end ;;;
      sys (Dprintf STDOUT_FILENO " ") ;;;
      echo_tokens toks'
  end.

(** builtin_echo. *)
Definition builtin_echo (cmd : option string) : M Z :=
  match cmd with
  | None => ret (- EINVAL)
  | Some s =>
      echo_tokens (tokens BUILTIN_DELIMS (skip_word s)) ;;;
      sys (Dprintf STDOUT_FILENO (str1 LF)) ;;;
      ret 0
  end.

(** builtin_jobs. *)
Definition builtin_jobs (cmd : option string) : M Z :=
  jobs_list ;;; ret 0.

(** builtin_comment. *)
Definition builtin_comment (cmd : option string) : M Z := ret 0.

(** The search loop of is_builtin: [i] is the index of the head of [tbl]
    and [n] the number of entries still to look at. *)
Fixpoint find_builtin (tok : string) (tbl : list builtin_t) (i : Z) (n : nat) : Z :=
  match n, tbl with
  | S n', b :: tbl' =>
      if starts_with tok (fst b) &&
         (String.length tok =? String.length (fst b))%nat
      then i
      else find_builtin tok tbl' (i + 1) n'
  | _, _ => -1
  end.

(** ** smash.c *)

(** Lines 353-361: the characters after the first lose their trailing
    white space. *)
Fixpoint rtrim (s : string) : string :=
  match s with
  | EmptyString => EmptyString
  | String c s' =>
      match rtrim s' with
      | EmptyString => if isspace c then EmptyString else str1 c
      | r => String c r
      end
  end.

Definition trim_end (buf : string) : string :=
  match buf with
  | EmptyString => EmptyString
  | String c s' => String c (rtrim s')
  end.

(** Lines 362-363. *)
Fixpoint trim_start (s : string) : string :=
  match s with
  | EmptyString => EmptyString
  | String c s' => if isspace c then trim_start s' else s
  end.

(** Lines 366-368: the line up to its first #. *)
Fixpoint cut_comment (s : string) : string :=
  match s with
  | EmptyString => EmptyString
  | String c s' => if Ascii.eqb c "#" then EmptyString else String c (cut_comment s')
  end.

Definition trimmed (buf : string) : string :=
  cut_comment (trim_start (trim_end buf)).

Section Dispatch.

(** The handlers of cd, pwd, fg, bg and kill are not part of this
    development: what follows holds whatever they do. *)
Variables builtin_cd builtin_pwd builtin_fg builtin_bg builtin_kill : callback_t.

(** The table of builtin.c. *)
Definition builtins : list builtin_t :=
  [ ("exit", builtin_exit);
    ("cd", builtin_cd);
    ("pwd", builtin_pwd);
    ("echo", builtin_echo);
    ("jobs", builtin_jobs);
    ("fg", builtin_fg);
    ("bg", builtin_bg);
    ("kill", builtin_kill);
    ("#", builtin_comment) ].

(** is_builtin. *)
Definition is_builtin (cmd : option string) : Z :=
  match cmd with
  | None => -1
  | Some buf =>
      match strtok_r buf BUILTIN_DELIMS with
      | None => -1
      | Some (tok, _) => find_builtin tok builtins 0 NUM_BUILTINS
      end
  end.

(** builtins[pos].callback, for 0 <= pos < NUM_BUILTINS. *)
Definition callback (pos : Z) : callback_t :=
  nth (Z.to_nat pos) (map snd builtins) builtin_comment.

(** Lines 352-401 of smash_main: what one turn of the loop does with the
    line [buf] that io_readline returned.  [None]: the loop goes on to its
    next turn; [Some r]: it is left, and smash_main returns r. *)
Definition smash_main_line (buf : string) : M (option Z) :=
  let trimmed_buf := trimmed buf in
  (* did we actually end up removing the entire command? *)
  if (String.length trimmed_buf =? 0)%nat then ret None
  else
    (* check for builtins *)
    let pos := is_builtin (Some trimmed_buf) in
    if 0 <=? pos then
      callback pos (Some trimmed_buf) ;;;
      ret None
    else
      (* parse input *)
      match parse_input (Some trimmed_buf) with
      | PFault => fault
      | PNull => ret None
      | PInput u =>
          (* execute the job *)
          match jobs_create (Some u) with
          | None => ret (Some (-1))
          | Some j =>
              r <- exec_job (Some j) ;;
              if r <? 0 then ret None else ret None
          end
      end.

End Dispatch.

(** ** More of jobs.c *)

(** The loop of cancel_all_jobs from the node [j] on: [nodes] are j and the
    nodes linked after it, [i] is the position of j in the table and
    [retval] the value the function would return so far. *)
Fixpoint cancel_all_jobs_from (nodes : list job_t) (i : nat) (retval : Z) : M Z :=
  match nodes with
  | [] => ret retval
  | j :: nodes' =>
      if job_status_eqb (status j) RUNNING || job_status_eqb (status j) SUSPENDED
      then
        (* send a CONT, then a TERM *)
        r <- sys (Killpg (pgid j) SIGCONT) ;;
        failed <- (if ret_val r <? 0 then ret (Some (err_no r))
                   else
                     r' <- sys (Killpg (pgid j) SIGTERM) ;;
                     if ret_val r' <? 0 then ret (Some (err_no r'))
                     else ret None) ;;
        retval' <- match failed with
                   | Some e =>
                       ERROR "killpg() failed: %s" (Some e) ;;;
                       ret (- e)
                   | None => ret retval
                   end ;;
        store_job i (Some (set_status j CANCELED)) ;;;
        cancel_all_jobs_from nodes' (S i) retval'
      else
        cancel_all_jobs_from nodes' (S i) retval
  end.

(** cancel_all_jobs. *)
Definition cancel_all_jobs : M Z :=
  w <- get ;;
  cancel_all_jobs_from (jobs w) O 0.

(** free_jobs: every node is freed and the list is NULL. *)
Definition free_jobs : M unit := put_jobs [].

(** ** Loops that wait on the operating system

    wait_for_all and smash_wait_all call waitpid again and again, as long
    as the operating system makes them.  Their model looks at a bounded
    number of calls, and has an ending of its own for a loop that is still
    going after them; _exit, which ends the process at once, is another. *)
Inductive ending (A : Type) : Type :=
| Ended (o : outcome A)
    (* as for any other function *)
| Quit (code : Z) (w : world)
    (* _exit(code): the process ends, no handler run *)
| Unfinished (w : world).
    (* the loop is still going after the calls looked at *)

Arguments Ended {A} o.
Arguments Quit {A} code w.
Arguments Unfinished {A} w.

Definition L (A : Type) : Type := world -> ending A.

Definition lift {A : Type} (m : M A) : L A := fun w => Ended (m w).

Definition bindL {A B : Type} (m : L A) (k : A -> L B) : L B :=
  fun w =>
    match m w with
    | Ended (Ret a w') => k a w'
    | Ended (Exit code w') => Ended (Exit code w')
    | Ended (InChild cmd pgrp fg w') => Ended (InChild cmd pgrp fg w')
    | Ended (Fault w') => Ended (Fault w')
    | Quit code w' => Quit code w'
    | Unfinished w' => Unfinished w'
    end.

Notation "x <~ m ;; k" := (bindL m (fun x => k))
  (at level 61, m at next level, right associativity).

Definition WNOHANG : Z := 1.
Definition WCONTINUED : Z := 8.

(** Lines 1132-1141 of wait_for_all: waitpid on the group, called again as
    long as it fails with EINTR; any other failure is _exit(-1).  [tries]
    is the number of calls looked at. *)
Fixpoint waitpid_retry (tries : nat) (pgrp : Z) : L Z :=
  match tries with
  | O => fun w => Unfinished w
  | S tries' =>
      r <~ lift (sys (Waitpid pgrp 0)) ;;
      if ret_val r <? 0 then
        if err_no r =? EINTR then waitpid_retry tries' pgrp
        else fun w => Quit (-1) w
      else lift (ret (out_status r))
  end.

(** The loop of wait_for_all from the node [j] on. *)
Fixpoint wait_for_all_from (tries : nat) (nodes : list job_t) (i : nat) : L Z :=
  match nodes with
  | [] => lift (ret 0)
  | j :: nodes' =>
      (* live process? *)
      if job_status_eqb (status j) RUNNING || job_status_eqb (status j) SUSPENDED ||
         job_status_eqb (status j) CANCELED
      then
        st <~ waitpid_retry tries (pgid j) ;;
        _ <~ lift (if WIFEXITED st then
                     store_job i (Some (set_exitcode (set_status j EXITED)
                                          (WEXITSTATUS st)))
                   else if WIFSIGNALED st then
                     store_job i (Some (set_exitcode (set_status j ABORTED)
                                          (WTERMSIG st)))
                   else ret tt) ;;
        wait_for_all_from tries nodes' (S i)
      else
        wait_for_all_from tries nodes' (S i)
  end.

(** wait_for_all. *)
Definition wait_for_all (tries : nat) : L Z :=
  w <~ lift get ;;
  wait_for_all_from tries (jobs w) O.

(** smash_atexit (smash.c), the handler that exit runs.  (infile is the
    name of the script, freed here; it is no part of the model.) *)
Definition smash_atexit (tries : nat) : L unit :=
  _ <~ lift cancel_all_jobs ;;
  _ <~ wait_for_all tries ;;
  lift free_jobs.

(** The position of the first job of the group [pid] (lines 267-273 of
    smash_wait_all). *)
Fixpoint find_pgid (pid : Z) (js : list job_t) : option nat :=
  match js with
  | [] => None
  | j :: js' =>
      if pgid j =? pid then Some O
      else option_map S (find_pgid pid js')
  end.

(** smash_wait_all (smash.c), [turns] turns of its loop looked at. *)
Fixpoint smash_wait_all (turns : nat) : L Z :=
  match turns with
  | O => fun w => Unfinished w
  | S turns' =>
      r <~ lift (sys (Waitpid (-1) (Z.lor WNOHANG (Z.lor WUNTRACED WCONTINUED)))) ;;
      if 0 <? ret_val r then
        w <~ lift get ;;
        (* find job w/ matching pid *)
        match find_pgid (ret_val r) (jobs w) with
        | None => lift (ret (-1))
        | Some i =>
            p <~ lift (job_update_status (nth_error (jobs w) i) (out_status r)) ;;
            _ <~ lift (store_job i (snd p)) ;;
            smash_wait_all turns'
        end
      else lift (ret 0)
  end.

(** ** launch_child: the argv it builds *)

(** Lines 306-343: the argument that stands for the component [c]. *)
Definition argv_word (w : world) (c : string) : string :=
  match c with
  | String "$" name =>
      match name with
      | String "?" _ => fmt_d (last_exit_code w)
      | _ =>
          match getenv w name with
          | Some v => v
          | None => EmptyString
          end
      end
  | _ => c
  end.

(** Lines 247-372 of launch_child, in the child: the argv handed to execvp
    for the components of a command.  [None] where the child runs into
    undefined behaviour: no component at all (argv[0] is read through a NULL
    pointer), or a decimal last_exit_code that does not fit the 8 bytes
    allocated for it. *)
Definition build_argv (w : world) (comps : list string) : option (list string) :=
  match comps with
  | [] => None
  | c0 :: rest =>
      if existsb (starts_with "$?") rest &&
         (7 <? String.length (fmt_d (last_exit_code w)))%nat
      then None
      else Some (c0 :: map (argv_word w) rest)
  end.

(** ** strtol *)

Definition LONG_MAX : Z := 9223372036854775807.
Definition LONG_MIN : Z := -9223372036854775808.
Definition ERANGE : Z := 34.

Definition isdigit (c : ascii) : bool :=
  (48 <=? nat_of_ascii c)%nat && (nat_of_ascii c <=? 57)%nat.

Definition digit_value (c : ascii) : Z := Z.of_nat (nat_of_ascii c) - 48.

(** The digits at the start of [s] read in base 10 after [acc], and what
    follows them. *)
Fixpoint read_digits (s : string) (acc : Z) : Z * string :=
  match s with
  | EmptyString => (acc, EmptyString)
  | String c s' =>
      if isdigit c then read_digits s' (acc * 10 + digit_value c)
      else (acc, s)
  end.

(** What strtol(nptr, &endp, 10) gives: its value, whether endp differs
    from nptr (a number was read), the string at endp, and errno after the
    call.  This is the C library's function on a machine where long has
    64 bits: white space, an optional sign, decimal digits; a value out of
    range is LONG_MAX or LONG_MIN with errno ERANGE; with no digit, endp is
    nptr and the value 0. *)
Record strtol_t : Type := mk_strtol {
  value : Z;
  converted : bool;
  endp : string;
  errno_after : Z
}.

Definition strtol (nptr : string) (errno : Z) : strtol_t :=
  let s := trim_start nptr in
  let (negative, s1) :=
    match s with
    | String "-" s' => (true, s')
    | String "+" s' => (false, s')
    | _ => (false, s)
    end in
  match s1 with
  | String c _ =>
      if isdigit c then
        let (n, rest) := read_digits s1 0 in
        let v := if negative then - n else n in
        if LONG_MAX <? v then mk_strtol LONG_MAX true rest ERANGE
        else if v <? LONG_MIN then mk_strtol LONG_MIN true rest ERANGE
        else mk_strtol v true rest errno
      else mk_strtol 0 false nptr errno
  | EmptyString => mk_strtol 0 false nptr errno
  end.

(** ** More of builtin.c

    The handlers of fg, bg and kill, which the main loop above takes as
    parameters. *)

(** builtin_fg.  The record of the job is read from its node and written
    back when run_in_foreground returns; when run_in_foreground calls
    exit(EXIT_FAILURE) the node is left in the world as it was. *)
Definition builtin_fg (cmd : option string) : M Z :=
  match cmd with
  | None => ret (- EINVAL)
  | Some s =>
      if starts_with "fg " s then
        let r := strtol (skipn_str 3 s) 0 in
        let id := int_wrap (value r) in
        if (errno_after r =? EINVAL) || negb (converted r) then
          sys (Dprintf STDERR_FILENO ("Usage: fg [jobid]" ++ str1 LF)) ;;;
          ret (- EINVAL)
        else
          w <- get ;;
          match jobs_lookup_by_jobid id (jobs w) with
          | None => ret (- EINVAL)
          | Some i =>
              p <- run_in_foreground (nth_error (jobs w) i) true ;;
              store_job i (snd p) ;;;
              ret 0
          end
      else
        sys (Dprintf STDERR_FILENO ("Usage: fg [jobid]" ++ str1 LF)) ;;;
        ret (- EINVAL)
  end.

(** builtin_bg.  As for builtin_fg, the record is written back when
    run_in_background returns, and not when it calls exit(EXIT_FAILURE). *)
Definition builtin_bg (cmd : option string) : M Z :=
  match cmd with
  | None => ret (- EINVAL)
  | Some s =>
      if starts_with "bg " s then
        let r := strtol (skipn_str 3 s) 0 in
        let id := int_wrap (value r) in
        if (errno_after r =? EINVAL) || negb (converted r) then
          sys (Dprintf STDERR_FILENO ("Usage: bg [jobid]" ++ str1 LF)) ;;;
          ret (- EINVAL)
        else
          w <- get ;;
          match jobs_lookup_by_jobid id (jobs w) with
          | None => ret (- EINVAL)
          | Some i =>
              p <- run_in_background (nth_error (jobs w) i) true ;;
              store_job i (snd p) ;;;
              ret 0
          end
      else
        sys (Dprintf STDERR_FILENO ("Usage: bg [jobid]" ++ str1 LF)) ;;;
        ret (- EINVAL)
  end.

(** builtin_kill. *)
Definition builtin_kill (cmd : option string) : M Z :=
  match cmd with
  | None => ret (- EINVAL)
  | Some s =>
      let usage : M Z :=
        sys (Dprintf STDERR_FILENO ("Usage: kill -N jobid" ++ str1 LF)) ;;;
        ret (- EINVAL) in
      if starts_with "kill " s then
        match trim_start (skipn_str 5 s) with
        | String "-" s1 =>
            (* signal # *)
            let r1 := strtol s1 0 in
            let signum := int_wrap (value r1) in
            if (errno_after r1 =? EINVAL) || negb (converted r1) then usage
            else
              (* job id *)
              let r2 := strtol (endp r1) (errno_after r1) in
              let jobid := int_wrap (value r2) in
              if (errno_after r2 =? EINVAL) || negb (converted r2) then usage
              else
                w <- get ;;
                match jobs_lookup_by_jobid jobid (jobs w) with
                | None =>
                    ERROR "No such job." None ;;;
                    ret (- EINVAL)
                | Some i =>
                    match nth_error (jobs w) i with
                    | None => ret (- EINVAL)
                    | Some j =>
                        if negb (job_status_eqb (status j) SUSPENDED ||
                                 job_status_eqb (status j) RUNNING)
                        then usage
                        else
                          r <- sys (Killpg (pgid j) signum) ;;
                          (if ret_val r <? 0 then
                             ERROR "Failed to send signal to job: %s"
                               (Some (err_no r))
                           else ret tt) ;;;
                          ret 0
                    end
                end
        | _ => usage
        end
      else usage
  end.

(** * Specification vocabulary *)

(** What a function leaves alone when all it does is report on stderr. *)
Definition same_globals (w w' : world) : Prop :=
  jobs w' = jobs w /\ last_exit_code w' = last_exit_code w /\
  stdout_of (trace w') = stdout_of (trace w) /\ os w' = os w.

(** The operating system refuses nothing. *)
Definition os_succeeds (w : world) : Prop :=
  forall (h : list call) (c : call), 0 <= ret_val (os w h c).

(** The jobs run_in_foreground turns away. *)
Definition rejected_by_run_in_foreground (job : option job_t) : Prop :=
  match job with
  | None => True
  | Some j =>
      (status j <> NEW /\ status j <> SUSPENDED /\ status j <> RUNNING) \/
      (status j = RUNNING /\ is_in_bg j = false)
  end.

(** The jobs run_in_foreground takes. *)
Definition taken_by_run_in_foreground (j : job_t) : Prop :=
  status j = NEW \/ status j = SUSPENDED \/
  (status j = RUNNING /\ is_in_bg j = true).

(** The line print_job writes for a job that is neither EXITED nor ABORTED. *)
Definition live_job_line (j : job_t) : string :=
  "[" ++ fmt_d (jobid j) ++ "] (" ++ jobs_status_as_char (status j) ++ ") " ++
  input (ui j) ++ str1 LF.

(** A job that jobs_list takes out of the table. *)
Definition finished (j : job_t) : bool :=
  job_status_eqb (status j) EXITED || job_status_eqb (status j) ABORTED.

(** The line print_job writes for a job that is EXITED or ABORTED. *)
Definition finished_job_line (j : job_t) : string :=
  "[" ++ fmt_d (jobid j) ++ "] (" ++ jobs_status_as_char (status j) ++ " <" ++
  fmt_d (exitcode j) ++ ">) " ++ input (ui j) ++ str1 LF.

(** The line print_job writes for a job. *)
Definition job_line (j : job_t) : string :=
  if finished j then finished_job_line j else live_job_line j.

(** The calls by which each of the jobs is printed once, in order. *)
Definition print_calls (js : list job_t) : list call :=
  map (fun j => Dprintf STDOUT_FILENO (job_line j)) js.

(** An operating system that answers 0 to every call. *)
Definition os_zero : list call -> call -> reply :=
  fun _ _ => mk_reply 0 0 0 0.

(** An interactive shell that has started no job yet. *)
Definition world0 : world :=
  mk_world [] 0 true false 100 0 (fun _ => None) os_zero [].

(** The user input of a line that is one command without redirections. *)
Definition ui_of (line : string) (bg : bool) : user_input_t :=
  mk_user_input line [mk_command line (tokens COMPONENT_DELIMS line) None false None None] bg.

(** Job 1, [ls], which has exited with status 0. *)
Definition job_ls_exited : job_t :=
  mk_job (ui_of "ls" false) EXITED 0 4242 1 0 0 false.

(** Job 1, [sleep 60], running in the background. *)
Definition job_sleep_running : job_t :=
  mk_job (ui_of "sleep 60" false) RUNNING 0 4243 1 0 0 true.

(** The line the specification gives for a job that is EXITED or ABORTED:
    the exit code in decimal, with nothing around it. *)
Definition spec_finished_job_line (j : job_t) : string :=
  "[" ++ fmt_d (jobid j) ++ "] (" ++ jobs_status_as_char (status j) ++ " " ++
  fmt_d (exitcode j) ++ ") " ++ input (ui j) ++ str1 LF.

(** An operating system that refuses nothing: fork gives the child the pid
    4242, and the child waited for is reported to have exited with status 3. *)
Definition os_exit3 : list call -> call -> reply :=
  fun _ c =>
    match c with
    | Fork => mk_reply 4242 0 0 0
    | Waitpid pid _ => mk_reply pid 0 768 0
    | _ => mk_reply 0 0 0 0
    end.

(** An interactive shell on it, that has started no job yet. *)
Definition world1 : world :=
  mk_world [] 0 true false 100 0 (fun _ => None) os_exit3 [].

(** A job that has just been forked. *)
Definition job_new : job_t :=
  mk_job (ui_of "false" false) NEW 0 4242 1 0 0 false.

(** Jobs earlier in the table have smaller ids. *)
Definition ids_increasing (js : list job_t) : Prop :=
  forall (i k : nat) (a b : job_t),
    (i < k)%nat -> nth_error js i = Some a -> nth_error js k = Some b ->
    jobid a < jobid b.

(** The largest id of the table. *)
Definition max_jobid (js : list job_t) : option Z :=
  match map jobid js with
  | [] => None
  | x :: xs => Some (fold_right Z.max x xs)
  end.

(** One more than an id, or 1 when there is none. *)
Definition next_jobid (o : option Z) : Z :=
  match o with
  | None => 1
  | Some m => m + 1
  end.

(** jobid + 1 does not overflow at the last node (in C the overflow of a
    signed int has no defined result). *)
Definition no_id_overflow (js : list job_t) : Prop :=
  forall l, last_job js = Some l -> jobid l < INT_MAX.

(** The tables a session can build: the empty one, a table after
    jobs_insert or jobs_remove, and a table in which jobs changed but for
    their ids and their order. *)
Inductive table_reachable : world -> Prop :=
| reach_start (w : world) :
    jobs w = [] -> table_reachable w
| reach_insert (w : world) (job : job_t) (r : Z) (w' : world) :
    table_reachable w -> no_id_overflow (jobs w) ->
    jobs_insert (Some job) w = Ret r w' -> table_reachable w'
| reach_remove (w : world) (p : option nat) (r : Z) (w' : world) :
    table_reachable w -> jobs_remove p w = Ret r w' -> table_reachable w'
| reach_update (w w' : world) :
    table_reachable w -> map jobid (jobs w') = map jobid (jobs w) ->
    table_reachable w'.

(** The invariant behind it, on the ids in table order. *)
Definition ids_ok (ids : list Z) : Prop :=
  StronglySorted Z.lt ids /\ Forall (Z.le 1) ids.

(** [last_job] and [unlink], on the ids. *)
Fixpoint last_id (ids : list Z) : option Z :=
  match ids with
  | [] => None
  | [x] => Some x
  | _ :: ids' => last_id ids'
  end.

Fixpoint unlink_id (i : nat) (ids : list Z) : list Z :=
  match ids, i with
  | [], _ => []
  | _ :: ids', O => ids'
  | x :: ids', S i' => x :: unlink_id i' ids'
  end.

(** The texts of a history, one after the other. *)
Definition flatten (l : list string) : string := fold_right append EmptyString l.

(** What echo prints for one token: the decimal last_exit_code for $?, the
    value of the environment variable NAME for $NAME, nothing if it is not
    set, and the token itself otherwise. *)
Definition echo_word (w : world) (tok : string) : string :=
  match tok with
  | String "$" name =>
      if String.eqb name "?" then fmt_d (last_exit_code w)
      else match getenv w name with
           | Some v => v
           | None => EmptyString
           end
  | _ => tok
  end.

(** What echo prints for its tokens: each followed by one space, and a
    newline at the end. *)
Definition echo_output (w : world) (toks : list string) : string :=
  flatten (map (fun tok => echo_word w tok ++ " ") toks) ++ str1 LF.

(** A handler that does nothing, for running the main loop on lines that
    reach none of the handlers left out. *)
Definition no_handler : callback_t := fun _ => ret 0.

(** The shell once a first job has been inserted. *)
Definition world_one_job : world :=
  set_jobs world0 [set_jobid job_new 1].

(** ** The reading of a command

    What the tokens of a command stand for, written on the list of tokens
    and without the loop of parse_input; the statements on the parser
    compare what the loop builds with this reading.  A token that begins
    with the background mark stands for nothing; the mark at the end of
    any other token is stripped; what is left is a redirection, the
    operators being looked for in the order >>, >, 2>, <, with the next
    token as the path of an operator that stands alone, or an argv word. *)

(** The redirection operators >>, >, 2> and <. *)
Inductive operator : Type := OpAppend | OpOut | OpErr | OpIn.

(** What a token stands for once its background mark is gone. *)
Inductive item : Type :=
| Word (w : string)
| Redirection (op : operator) (path : string).

(** A token without the background mark at its end. *)
Definition stripped (t : string) : string :=
  if ends_with_amp t then chop_last t else t.

(** The token [r] as a redirection: its operator, and the path written
    with it, if any. *)
Definition operator_of (r : string) : option (operator * option string) :=
  if starts_with ">>" r then
    Some (OpAppend, if (2 <? String.length r)%nat then Some (skipn_str 2 r) else None)
  else if starts_with ">" r then
    Some (OpOut, if (1 <? String.length r)%nat then Some (skipn_str 1 r) else None)
  else if starts_with "2>" r then
    Some (OpErr, if (2 <? String.length r)%nat then Some (skipn_str 2 r) else None)
  else if starts_with "<" r then
    Some (OpIn, if (1 <? String.length r)%nat then Some (skipn_str 1 r) else None)
  else None.

(** The items of the tokens of a command, in order.  A token that begins
    with the background mark stands for nothing.  [None]: an operator that
    stands alone is the last token. *)
Fixpoint reading (toks : list string) : option (list item) :=
  match toks with
  | [] => Some []
  | t :: rest =>
      if starts_with "&" t then reading rest
      else
        match operator_of (stripped t) with
        | Some (op, Some path) =>
            option_map (cons (Redirection op path)) (reading rest)
        | Some (op, None) =>
            match rest with
            | [] => None
            | path :: rest' =>
                option_map (cons (Redirection op path)) (reading rest')
            end
        | None => option_map (cons (Word (stripped t))) (reading rest)
        end
  end.

(** One of the tokens of a command, the paths of operators that stand
    alone apart, begins or ends with the background mark. *)
Fixpoint marked (toks : list string) : bool :=
  match toks with
  | [] => false
  | t :: rest =>
      if starts_with "&" t then true
      else
        ends_with_amp t ||
        match operator_of (stripped t) with
        | Some (_, None) =>
            match rest with
            | [] => false
            | _ :: rest' => marked rest'
            end
        | _ => marked rest
        end
  end.

(** The argv words among the items. *)
Fixpoint words (its : list item) : list string :=
  match its with
  | [] => []
  | Word w :: its' => w :: words its'
  | Redirection _ _ :: its' => words its'
  end.

Definition to_stdout (op : operator) : bool :=
  match op with OpAppend | OpOut => true | _ => false end.
Definition to_stderr (op : operator) : bool :=
  match op with OpErr => true | _ => false end.
Definition from_stdin (op : operator) : bool :=
  match op with OpIn => true | _ => false end.

(** The path of the last redirection of a kind among the items, after
    [start]. *)
Fixpoint last_path (kind : operator -> bool) (its : list item)
    (start : option string) : option string :=
  match its with
  | [] => start
  | Word _ :: its' => last_path kind its' start
  | Redirection op path :: its' =>
      last_path kind its' (if kind op then Some path else start)
  end.

(** One of the items is a redirection with >>. *)
Definition appends (its : list item) : bool :=
  existsb (fun i => match i with Redirection OpAppend _ => true | _ => false end) its.

(** The command after one more item. *)
Definition apply_item (c : command_t) (i : item) : command_t :=
  match i with
  | Word w => insert_component w c
  | Redirection OpAppend path => set_append_stdout (set_redirect_stdout c path) true
  | Redirection OpOut path => set_redirect_stdout c path
  | Redirection OpErr path => set_redirect_stderr c path
  | Redirection OpIn path => set_redirect_stdin c path
  end.

(** The command that a piece of the line between pipe characters stands
    for. *)
Definition read_command (text : string) : option command_t :=
  option_map (fun its => fold_left apply_item its (new_command text))
    (reading (tokens COMPONENT_DELIMS text)).

(** The commands of the pieces of a line. *)
Fixpoint read_line (texts : list string) : option (list command_t) :=
  match texts with
  | [] => Some []
  | text :: texts' =>
      match read_command text with
      | None => None
      | Some c => option_map (cons c) (read_line texts')
      end
  end.

(** A piece of the line has a token with the background mark. *)
Definition marked_command (text : string) : bool :=
  marked (tokens COMPONENT_DELIMS text).

(** ** The job after a wait *)

(** The job that a wait status makes of a job: stopped, continued, killed
    by a signal or exited, as the status says, and the job as it was when
    the status says none of these. *)
Definition updated (j : job_t) (st : Z) : job_t :=
  if WIFSTOPPED st then set_status j SUSPENDED
  else if WIFCONTINUED st then set_status j RUNNING
  else if WIFSIGNALED st then set_exitcode (set_status j ABORTED) (WTERMSIG st)
  else if WIFEXITED st then set_exitcode (set_status j EXITED) (WEXITSTATUS st)
  else j.

(** The job after a waitpid that was answered [rep]: updated with the
    status stored when a process is reported, as it was otherwise. *)
Definition waited (j : job_t) (rep : reply) : job_t :=
  if 0 <? ret_val rep then updated j (out_status rep) else j.

(** What run_in_foreground asks for a job that is to be continued, before
    it waits: the terminal modes saved with the job, then SIGCONT. *)
Definition resume_calls (j : job_t) (cont : bool) : list call :=
  if cont && negb (job_status_eqb (status j) RUNNING)
  then [Tcsetattr STDIN_FILENO TCSADRAIN (termattr j); Killpg (pgid j) SIGCONT]
  else [].

(** * More vocabulary *)

(** A job that cancel_all_jobs signals. *)
Definition live (j : job_t) : bool :=
  job_status_eqb (status j) RUNNING || job_status_eqb (status j) SUSPENDED.

(** A job as cancel_all_jobs leaves it. *)
Definition canceled_job (j : job_t) : job_t :=
  if live j then set_status j CANCELED else j.

(** The signals of cancel_all_jobs when none fails. *)
Definition cancel_calls (js : list job_t) : list call :=
  flat_map (fun j => if live j
                     then [Killpg (pgid j) SIGCONT; Killpg (pgid j) SIGTERM]
                     else []) js.

(** A job that wait_for_all waits for. *)
Definition awaited (j : job_t) : bool :=
  job_status_eqb (status j) RUNNING || job_status_eqb (status j) SUSPENDED ||
  job_status_eqb (status j) CANCELED.

(** A job that wait_for_all has waited for, the wait status being [st]. *)
Definition after_wait (j : job_t) (st : Z) : job_t :=
  if WIFEXITED st then set_exitcode (set_status j EXITED) (WEXITSTATUS st)
  else if WIFSIGNALED st then set_exitcode (set_status j ABORTED) (WTERMSIG st)
  else j.

(** A job before and after wait_for_all. *)
Definition wait_step (j j' : job_t) : Prop :=
  if awaited j then exists st, j' = after_wait j st else j' = j.

(** The calls of wait_for_all when none fails. *)
Definition wait_calls (js : list job_t) : list call :=
  map (fun j => Waitpid (pgid j) 0) (filter awaited js).

(** A job that changed in nothing but its status and its exit code. *)
Definition same_job (j j' : job_t) : Prop :=
  j' = set_exitcode (set_status j (status j')) (exitcode j').

(** The call of smash_wait_all. *)
Definition wait_any : call :=
  Waitpid (-1) (Z.lor WNOHANG (Z.lor WUNTRACED WCONTINUED)).

(** The exit code of a job is one that a process can have ended with: an
    exit status for an EXITED job, the number of a signal that kills for an
    ABORTED one. *)
Definition exitcode_ok (j : job_t) : Prop :=
  match status j with
  | EXITED => 0 <= exitcode j <= 255
  | ABORTED => 1 <= exitcode j <= 126
  | _ => True
  end.

(** A table with a finished job and a running one. *)
Definition world_two_jobs : world :=
  set_jobs world1 [job_ls_exited; set_jobid job_sleep_running 2].

(** A string that does not go on with a digit. *)
Definition no_digit_first (s : string) : bool :=
  match s with
  | EmptyString => true
  | String c _ => negb (isdigit c)
  end.

(** The calls that only write a message. *)
Definition is_message (c : call) : bool :=
  match c with
  | Dprintf _ _ | ErrorMsg _ _ => true
  | _ => false
  end.

(** The calls of a history that act on processes and on the terminal. *)
Definition control_calls (t : list call) : list call :=
  filter (fun c => negb (is_message c)) t.

(** What run_in_foreground asks for a job it takes, when it returns: the
    terminal for the job; for a job to be continued, its terminal modes and
    SIGCONT; the wait; then the terminal and the terminal modes of the
    shell, the modes the job left being read in between. *)
Definition foreground_calls (w : world) (j : job_t) (cont : bool) : list call :=
  ([Tcsetpgrp STDIN_FILENO (pgid j)] ++
   (if cont && negb (job_status_eqb (status j) RUNNING)
    then [Tcsetattr STDIN_FILENO TCSADRAIN (termattr j); Killpg (pgid j) SIGCONT]
    else []) ++
   [Waitpid (pgid j) WUNTRACED;
    Tcsetpgrp STDIN_FILENO (shell_pgid w);
    Tcgetattr STDIN_FILENO;
    Tcsetattr STDIN_FILENO TCSADRAIN (shell_termattr w)])%list.

(** Job 1, [vi notes], stopped from the terminal. *)
Definition job_stopped : job_t :=
  mk_job (ui_of "vi notes" false) SUSPENDED 0 4244 1 7 0 false.

(** An interactive shell whose only job is that one. *)
Definition world_stopped_job : world := set_jobs world0 [job_stopped].

(** What exec_job asks of the operating system, in the parent, for a job
    whose child has the process id [pid]: in a shell that is not
    interactive, the wait; in an interactive one, a process group for the
    child, and for a foreground job the calls of run_in_foreground. *)
Definition exec_job_calls (w : world) (u : user_input_t) (pid : Z) : list call :=
  Fork ::
  (if interactive w then
     Setpgid pid pid ::
     (if is_background_command u then []
      else [Tcsetpgrp STDIN_FILENO pid;
            Waitpid pid WUNTRACED;
            Tcsetpgrp STDIN_FILENO (shell_pgid w);
            Tcgetattr STDIN_FILENO;
            Tcsetattr STDIN_FILENO TCSADRAIN (shell_termattr w)])
   else [Waitpid pid WUNTRACED]).

(** The shell of a script: not interactive. *)
Definition world_script : world :=
  mk_world [] 0 false false 100 0 (fun _ => None) os_exit3 [].

(** The names that is_builtin looks for, in the order of the table. *)
Definition builtin_names : list string :=
  ["exit"; "cd"; "pwd"; "echo"; "jobs"; "fg"; "bg"; "kill"].

(** The index of the first of [names] that is [tok], counted from [i], or
    -1. *)
Fixpoint position (tok : string) (names : list string) (i : Z) : Z :=
  match names with
  | [] => -1
  | n :: names' => if String.eqb tok n then i else position tok names' (i + 1)
  end.

(** The character [c] occurs in [s]. *)
Fixpoint has_char (c : ascii) (s : string) : bool :=
  match s with
  | EmptyString => false
  | String a s' => Ascii.eqb a c || has_char c s'
  end.

Definition first_char (s : string) : option ascii :=
  match s with
  | EmptyString => None
  | String a _ => Some a
  end.

(** A string of white space. *)
Fixpoint all_space (s : string) : bool :=
  match s with
  | EmptyString => true
  | String a s' => isspace a && all_space s'
  end.



(** The exit code of a job is one byte, as an exit status and a signal
    number are. *)
Definition exit_range (j : job_t) : Prop := 0 <= exitcode j <= 255.

(** What $? stands for, and every exit code of the table, is one byte. *)
Definition shell_ok (w : world) : Prop :=
  0 <= last_exit_code w <= 255 /\ Forall exit_range (jobs w).

(** A handler that keeps it so when it returns. *)
Definition keeps_shell_ok (f : callback_t) : Prop :=
  forall cmd w r w', shell_ok w -> f cmd w = Ret r w' -> shell_ok w'.

(** The calls [c] that a loop makes from the history [h] until one does not
    fail: [n] of them fail with EINTR, and the next one does not fail. *)
Definition retried (os : list call -> call -> reply) (h : list call) (c : call)
    (n : nat) : Prop :=
  (forall k, (k < n)%nat ->
     ret_val (os (h ++ repeat c k)%list c) < 0 /\
     err_no (os (h ++ repeat c k)%list c) = EINTR) /\
  0 <= ret_val (os (h ++ repeat c n)%list c).

(** The table before and after wait_for_all, with the histories before and
    after: a job that is not waited for stays as it is; for a job that is,
    waitpid on its process group is called until it does not fail, and the
    job is then as the status stored by that last call says. *)
Inductive reaped (os : list call -> call -> reply)
    : list call -> list job_t -> list job_t -> list call -> Prop :=
| reaped_nil (h : list call) : reaped os h [] [] h
| reaped_skip (h : list call) (j : job_t) (js js' : list job_t) (h' : list call) :
    awaited j = false ->
    reaped os h js js' h' ->
    reaped os h (j :: js) (j :: js') h'
| reaped_wait (h : list call) (j : job_t) (js js' : list job_t) (h' : list call)
    (n : nat) :
    awaited j = true ->
    retried os h (Waitpid (pgid j) 0) n ->
    reaped os (h ++ repeat (Waitpid (pgid j) 0) (S n))%list js js' h' ->
    reaped os h (j :: js)
      (after_wait j
         (out_status (os (h ++ repeat (Waitpid (pgid j) 0) n)%list (Waitpid (pgid j) 0)))
       :: js') h'.

(** An operating system whose first waitpid fails with EINTR; after that
    every child waited for is reported to have exited with status 3. *)
Definition os_eintr : list call -> call -> reply :=
  fun h c =>
    match h, c with
    | [], Waitpid _ _ => mk_reply (-1) EINTR 0 0
    | _, Waitpid pid _ => mk_reply pid 0 768 0
    | _, _ => mk_reply 0 0 0 0
    end.

(** A shell on it whose only job is running. *)
Definition world_eintr : world :=
  mk_world [job_sleep_running] 0 true false 100 0 (fun _ => None) os_eintr [].

(** smash_wait_all from the history [h] and the table [js], to the value it
    returns, the table and the history it leaves.  It asks waitpid for any
    child, without blocking.  When none is reported it returns 0; when the
    process reported is the group of no job it returns -1; else the first
    job of that group is updated from the status stored, which writes at
    most messages, and waitpid is asked again. *)
Inductive polling (os : list call -> call -> reply)
    : list call -> list job_t -> Z -> list job_t -> list call -> Prop :=
| polling_none (h : list call) (js : list job_t) :
    ret_val (os h wait_any) <= 0 ->
    polling os h js 0 js (h ++ [wait_any])
| polling_unknown (h : list call) (js : list job_t) :
    0 < ret_val (os h wait_any) ->
    find_pgid (ret_val (os h wait_any)) js = None ->
    polling os h js (-1) js (h ++ [wait_any])
| polling_update (h : list call) (js : list job_t) (i : nat) (j : job_t)
    (msgs : list call) (r : Z) (js' : list job_t) (h' : list call) :
    0 < ret_val (os h wait_any) ->
    find_pgid (ret_val (os h wait_any)) js = Some i ->
    nth_error js i = Some j ->
    control_calls msgs = [] ->
    polling os (h ++ wait_any :: msgs)
      (store_at i (updated j (out_status (os h wait_any))) js) r js' h' ->
    polling os h js r js' h'.

(** From the history [h] and the table [js], waitpid reports a child that
    is the group of a job [n] times in a row. *)
Inductive reporting (os : list call -> call -> reply)
    : list call -> list job_t -> nat -> Prop :=
| reporting_O (h : list call) (js : list job_t) : reporting os h js O
| reporting_S (h : list call) (js : list job_t) (i : nat) (j : job_t)
    (msgs : list call) (n : nat) :
    0 < ret_val (os h wait_any) ->
    find_pgid (ret_val (os h wait_any)) js = Some i ->
    nth_error js i = Some j ->
    control_calls msgs = [] ->
    reporting os (h ++ wait_any :: msgs)
      (store_at i (updated j (out_status (os h wait_any))) js) n ->
    reporting os h js (S n).

(** The table after [n] calls of waitpid for any child, made one after the
    other from the history [h], that each report the group of a job; None
    when one of them does not. *)
Fixpoint polled (os : list call -> call -> reply) (h : list call) (n : nat)
    (js : list job_t) : option (list job_t) :=
  match n with
  | O => Some js
  | S n' =>
      if 0 <? ret_val (os h wait_any) then
        match find_pgid (ret_val (os h wait_any)) js with
        | Some i =>
            match nth_error js i with
            | Some j =>
                polled os (h ++ [wait_any]) n'
                  (store_at i (updated j (out_status (os h wait_any))) js)
            | None => None
            end
        | None => None
        end
      else None
  end.

(** An operating system that reports, to the first waitpid, that the child
    4243 was stopped, and no child after that. *)
Definition os_stop_once : list call -> call -> reply :=
  fun h c =>
    match h, c with
    | [], Waitpid _ _ => mk_reply 4243 0 127 0
    | _, _ => mk_reply 0 0 0 0
    end.

(** A shell on it whose only job is running. *)
Definition world_stop_once : world :=
  mk_world [job_sleep_running] 0 true false 100 0 (fun _ => None) os_stop_once [].


(** * Properties *)

(** ** Strings and tokens *)

Lemma append_assoc (a b c : string) : (a ++ b) ++ c = a ++ (b ++ c).
Proof. induction a as [|x a IH]; simpl; [reflexivity|now rewrite IH]. Qed.

Lemma append_nil_r (a : string) : a ++ EmptyString = a.
Proof. induction a as [|x a IH]; simpl; [reflexivity|now rewrite IH]. Qed.

Lemma tokens_from_cut (delims s : string) :
  forall cur, cur <> EmptyString ->
    tokens_from delims s cur =
      (cur ++ fst (cut_token delims s)) :: tokens delims (snd (cut_token delims s)).
Proof.
  induction s as [|c s IH]; intros cur N.
  - simpl. rewrite append_nil_r. destruct cur; [congruence|reflexivity].
  - cbn [tokens_from cut_token]. destruct (is_delim delims c).
    + simpl. rewrite append_nil_r. destruct cur; [congruence|reflexivity].
    + rewrite IH by (destruct cur; discriminate).
      destruct (cut_token delims s) as (t, rest). simpl.
      now rewrite append_assoc.
Qed.

(** The list [tokens] is what successive calls of strtok_r return. *)
Lemma tokens_strtok_r (delims s : string) :
  tokens delims s =
    match strtok_r s delims with
    | None => []
    | Some (tok, rest) => tok :: tokens delims rest
    end.
Proof.
  unfold tokens, strtok_r. induction s as [|c s IH]; [reflexivity|].
  cbn [tokens_from skip_delims]. destruct (is_delim delims c) eqn:D.
  - exact IH.
  - rewrite tokens_from_cut by discriminate.
    cbn [cut_token]. rewrite D.
    destruct (cut_token delims s) as (t, rest). reflexivity.
Qed.

Lemma strtok_r_nonempty (s delims tok rest : string) :
  strtok_r s delims = Some (tok, rest) -> s <> EmptyString.
Proof. intros H ->. discriminate H. Qed.

(** ** The wait status macros exclude one another *)









Example stopped_by_SIGTSTP : WIFSTOPPED 5247 = true.
Proof. reflexivity. Qed.

Example killed_by_SIGKILL :
  WIFSIGNALED 9 = true /\ WTERMSIG 9 = 9.
Proof. split; reflexivity. Qed.

Example exited_with_3 :
  WIFEXITED 768 = true /\ WEXITSTATUS 768 = 3.
Proof. split; reflexivity. Qed.

(** ** Histories and computations *)

Lemma stdout_of_app (a b : list call) :
  stdout_of (a ++ b) = (stdout_of a ++ stdout_of b)%list.
Proof.
  induction a as [|c a IH]; simpl; [reflexivity|].
  destruct c; try exact IH.
  destruct (fd =? STDOUT_FILENO); simpl; now rewrite IH.
Qed.

Lemma stdout_of_snoc_out (t : list call) (text : string) :
  stdout_of (t ++ [Dprintf STDOUT_FILENO text]) = (stdout_of t ++ [text])%list.
Proof. now rewrite stdout_of_app. Qed.

Lemma stdout_of_snoc_err (t : list call) (text : string) :
  stdout_of (t ++ [Dprintf STDERR_FILENO text]) = stdout_of t.
Proof. rewrite stdout_of_app. simpl. now rewrite app_nil_r. Qed.

Lemma stdout_of_snoc_other (t : list call) (c : call) :
  (forall fd text, c <> Dprintf fd text) ->
  stdout_of (t ++ [c]) = stdout_of t.
Proof.
  intro H. rewrite stdout_of_app.
  destruct c; simpl; try now rewrite app_nil_r.
  now elim (H fd text).
Qed.

Lemma flatten_app (a b : list string) : flatten (a ++ b) = flatten a ++ flatten b.
Proof.
  induction a as [|x a IH]; simpl; [reflexivity|].
  now rewrite IH, append_assoc.
Qed.

Lemma set_trace_set_trace (w : world) (t t' : list call) :
  set_trace (set_trace w t) t' = set_trace w t'.
Proof. reflexivity. Qed.

Ltac run_m :=
  unfold bind, ret, get, sys, ERROR, exit, fault, in_child, put_jobs,
    put_last_exit_code; simpl.

Lemma bind_sys {B : Type} (c : call) (k : reply -> M B) (w : world) :
  bind (sys c) k w = k (os w (trace w) c) (set_trace w (trace w ++ [c])).
Proof. reflexivity. Qed.

Lemma bind_Ret {A B : Type} (m : M A) (k : A -> M B) (w w' : world) (a : A) :
  m w = Ret a w' -> bind m k w = k a w'.
Proof. intro H. unfold bind. now rewrite H. Qed.

Lemma bind_Exit {A B : Type} (m : M A) (k : A -> M B) (w w' : world) (code : Z) :
  m w = Exit code w' -> bind m k w = Exit code w'.
Proof. intro H. unfold bind. now rewrite H. Qed.

Lemma bind_bind {A B C : Type} (m : M A) (k : A -> M B) (k' : B -> M C) (w : world) :
  bind (bind m k) k' w = bind m (fun a => bind (k a) k') w.
Proof. unfold bind. destruct (m w); reflexivity. Qed.

Lemma same_globals_refl (w : world) : same_globals w w.
Proof. repeat split. Qed.

Lemma same_globals_trans (a b c : world) :
  same_globals a b -> same_globals b c -> same_globals a c.
Proof.
  unfold same_globals. intros (H1 & H2 & H3 & H4) (K1 & K2 & K3 & K4).
  repeat split; congruence.
Qed.

Lemma same_globals_sys (w : world) (c : call) :
  (forall fd text, c <> Dprintf fd text) ->
  same_globals w (set_trace w (trace w ++ [c])).
Proof.
  intro H. unfold same_globals. simpl. repeat split.
  now apply stdout_of_snoc_other.
Qed.

Lemma os_succeeds_same (w w' : world) :
  same_globals w w' -> os_succeeds w -> os_succeeds w'.
Proof. unfold os_succeeds. intros (_ & _ & _ & E) H h c. rewrite E. apply H. Qed.

Lemma os_succeeds_ltb (w : world) (h : list call) (c : call) :
  os_succeeds w -> (ret_val (os w h c) <? 0) = false.
Proof. intro H. apply Z.ltb_ge, H. Qed.

(** ** job_update_status *)

Lemma exitcode_set_status (j : job_t) (s : job_status) :
  exitcode (set_status j s) = exitcode j.
Proof. reflexivity. Qed.


(** job_update_status always returns 0, with the job. *)
Lemma job_update_status_returns (j : job_t) (st : Z) (w : world) :
  exists j' w',
    job_update_status (Some j) st w = Ret (0, Some j') w' /\ same_globals w w'.
Proof.
  unfold job_update_status.
  destruct (WIFSTOPPED st); [do 2 eexists; split; [reflexivity|apply same_globals_refl]|].
  destruct (WIFCONTINUED st); [do 2 eexists; split; [reflexivity|apply same_globals_refl]|].
  unfold same_globals.
  destruct (WIFSIGNALED st); [|destruct (WIFEXITED st)]; run_m.
  1,2: destruct (enable_debug w); [destruct (ret_val _ <? 0)|];
      do 2 eexists; (split; [reflexivity|]); simpl; repeat split;
      try (rewrite stdout_of_snoc_other by discriminate);
      try apply stdout_of_snoc_err.
  do 2 eexists; split; [reflexivity|repeat split].
Qed.

Example job_update_status_stopped :
  job_update_status (Some job_sleep_running) 5247 world0 =
    Ret (0, Some (set_status job_sleep_running SUSPENDED)) world0.
Proof. reflexivity. Qed.

Example job_update_status_killed :
  job_update_status (Some job_sleep_running) 9 world0 =
    Ret (0, Some (set_exitcode (set_status job_sleep_running ABORTED) 9)) world0.
Proof. reflexivity. Qed.

(** ** run_in_foreground *)

(** job_wait always returns 0, with the job. *)
Lemma job_wait_returns (j : job_t) (w : world) :
  exists j' w',
    job_wait (Some j) w = Ret (0, Some j') w' /\ same_globals w w'.
Proof.
  unfold job_wait. unfold bind at 1. unfold sys at 1.
  set (w1 := set_trace w _).
  assert (F : same_globals w w1).
  { unfold same_globals; subst w1; simpl; repeat split.
    apply stdout_of_snoc_other; discriminate. }
  destruct (0 <? ret_val _).
  - destruct (job_update_status_returns j (out_status (os w (trace w) (Waitpid (pgid j) WUNTRACED))) w1)
      as (j' & w' & E & F').
    exists j', w'. split; [|eapply same_globals_trans; eassumption].
    unfold bind. rewrite E. reflexivity.
  - exists j, w1. split; [reflexivity|exact F].
Qed.

(** restore_shell_control gives the terminal back or ends the shell. *)
Lemma restore_shell_control_cases (a : termios) (w : world) :
  ((exists w', restore_shell_control (Some a) w = Exit EXIT_FAILURE w') \/
   (exists a' w',
      restore_shell_control (Some a) w = Ret (0, Some a') w' /\ same_globals w w')) /\
  (os_succeeds w ->
     exists a' w',
       restore_shell_control (Some a) w = Ret (0, Some a') w' /\ same_globals w w').
Proof.
  unfold restore_shell_control. run_m.
  set (r1 := ret_val _ <? 0).
  destruct r1 eqn:E1; subst r1.
  { split; [left; eexists; reflexivity|].
    intro H. rewrite os_succeeds_ltb in E1 by exact H. discriminate. }
  set (r2 := ret_val _ <? 0).
  destruct r2 eqn:E2; subst r2.
  { split; [left; eexists; reflexivity|].
    intro H. rewrite os_succeeds_ltb in E2 by exact H. discriminate. }
  set (r3 := ret_val _ <? 0).
  destruct r3 eqn:E3; subst r3.
  { split; [left; eexists; reflexivity|].
    intro H. rewrite os_succeeds_ltb in E3 by exact H. discriminate. }
  assert (G : forall t, stdout_of (((t ++ [Tcsetpgrp STDIN_FILENO (shell_pgid w)]) ++
                [Tcgetattr STDIN_FILENO]) ++
                [Tcsetattr STDIN_FILENO TCSADRAIN (shell_termattr w)]) = stdout_of t).
  { intro t. now rewrite !stdout_of_snoc_other by discriminate. }
  split; [right|intros _]; do 2 eexists; (split; [reflexivity|]);
    unfold same_globals; simpl; repeat split; apply G.
Qed.

(** C4.  run_in_foreground returns -1 when the job is NULL, when its status
    is none of NEW, SUSPENDED and RUNNING, and when it is RUNNING and not in
    the background; the job comes back as it was and the world is the same:
    nothing was asked of the terminal and nothing was waited for. *)
Theorem run_in_foreground_rejects (job : option job_t) (cont : bool) (w : world) :
  rejected_by_run_in_foreground job ->
  run_in_foreground job cont w = Ret (-1, job) w.
Proof.
  destruct job as [j|]; simpl; [|reflexivity].
  intros [(H1 & H2 & H3)|(H1 & H2)].
  - destruct (status j); try congruence; reflexivity.
  - rewrite H1, H2. reflexivity.
Qed.

Example run_in_foreground_null :
  run_in_foreground None true world0 = Ret (-1, None) world0.
Proof. reflexivity. Qed.

(** C4 at a job that has exited. *)
Lemma run_in_foreground_rejects_witness :
  rejected_by_run_in_foreground (Some job_ls_exited) /\
  run_in_foreground (Some job_ls_exited) true world0 =
    Ret (-1, Some job_ls_exited) world0.
Proof.
  split.
  - left. repeat split; discriminate.
  - apply (run_in_foreground_rejects (Some job_ls_exited) true world0).
    left. repeat split; discriminate.
Defined.

(** The end of run_in_foreground, from the wait on. *)
Lemma run_in_foreground_tail (j : job_t) (w : world) :
  let tail :=
    (p <- job_wait (Some j) ;;
     let j := pointee j (snd p) in
     q <- restore_shell_control (Some (termattr j)) ;;
     let j := match snd q with
              | Some a => set_termattr j a
              | None => j
              end in
     if job_status_eqb (status j) EXITED then
       put_last_exit_code (exitcode j) ;;;
       ret (0, Some j)
     else if job_status_eqb (status j) SUSPENDED then
       print_job (Some j) ;;;
       ret (0, Some j)
     else
       ret (0, Some j)) in
  (forall r p w', tail w = Ret (r, p) w' ->
     exists j', p = Some j' /\ r = 0 /\
       last_exit_code w' =
         (if job_status_eqb (status j') EXITED then exitcode j'
          else last_exit_code w) /\
       stdout_of (trace w') =
         (stdout_of (trace w) ++
          if job_status_eqb (status j') SUSPENDED then [live_job_line j'] else [])%list) /\
  (os_succeeds w -> exists j' w', tail w = Ret (0, Some j') w').
Proof.
  intro tail. subst tail.
  destruct (job_wait_returns j w) as (j1 & w1 & E1 & F1).
  rewrite (bind_Ret _ _ _ _ _ E1). cbv beta zeta. cbn [snd pointee].
  destruct (restore_shell_control_cases (termattr j1) w1) as ([(w2 & E2)|(a & w2 & E2 & F2)] & T).
  - rewrite (bind_Exit _ _ _ _ _ E2). split; [discriminate|].
    intro S. destruct (T (os_succeeds_same _ _ F1 S)) as (a & w3 & E3 & _).
    congruence.
  - rewrite (bind_Ret _ _ _ _ _ E2). cbv beta zeta. cbn [snd].
    pose proof (same_globals_trans _ _ _ F1 F2) as (_ & L & O & _).
    set (j2 := set_termattr j1 a).
    destruct (job_status_eqb (status j2) EXITED) eqn:X.
    + assert (Y : job_status_eqb (status j2) SUSPENDED = false)
        by (destruct (status j2); try discriminate; reflexivity).
      run_m. split.
      * intros r p w' H. inversion H; subst. exists j2. rewrite X, Y.
        split; [reflexivity|]. split; [reflexivity|]. split; [reflexivity|].
        simpl. now rewrite app_nil_r.
      * intros _. do 2 eexists. reflexivity.
    + destruct (job_status_eqb (status j2) SUSPENDED) eqn:Y.
      * unfold print_job.
        assert (N : negb (job_status_eqb (status j2) EXITED) &&
                    negb (job_status_eqb (status j2) ABORTED) = true)
          by (destruct (status j2); try discriminate; reflexivity).
        rewrite N. run_m.
        split.
        -- intros r p w' H.
           destruct (ret_val _ <? 0); inversion H; subst; exists j2;
             rewrite X, Y;
             (split; [reflexivity|]); (split; [reflexivity|]);
             (split; [exact L|]); simpl;
             rewrite stdout_of_snoc_out; now rewrite O.
        -- intros _. destruct (ret_val _ <? 0); do 2 eexists; reflexivity.
      * run_m. split.
        -- intros r p w' H. inversion H; subst. exists j2. rewrite X, Y.
           split; [reflexivity|]. split; [reflexivity|]. split; [exact L|].
           now rewrite app_nil_r.
        -- intros _. do 2 eexists. reflexivity.
Qed.

(** The start of run_in_foreground for a job that is to be continued:
    its terminal modes back, then SIGCONT. *)
Lemma run_in_foreground_resume (b : bool) (j : job_t) (w : world) :
  let resume : M unit :=
    (if b then
       r <- sys (Tcsetattr STDIN_FILENO TCSADRAIN (termattr j)) ;;
       if ret_val r <? 0 then
         ERROR "tcsetattr() failed: %s" (Some (err_no r)) ;;;
         exit EXIT_FAILURE
       else
         r <- sys (Killpg (pgid j) SIGCONT) ;;
         if ret_val r <? 0 then
           ERROR "killpg() failed to send SIGCONT to child: %s"
             (Some (err_no r)) ;;;
           exit EXIT_FAILURE
         else ret tt
     else ret tt) in
  ((exists w', resume w = Exit EXIT_FAILURE w') \/
   (exists w', resume w = Ret tt w' /\ same_globals w w')) /\
  (os_succeeds w -> exists w', resume w = Ret tt w' /\ same_globals w w').
Proof.
  intro resume. subst resume. destruct b.
  2:{ split; [right|intros _]; exists w; split;
        [reflexivity|apply same_globals_refl|reflexivity|apply same_globals_refl]. }
  run_m.
  set (r1 := ret_val _ <? 0). destruct r1 eqn:E1; subst r1.
  { split; [left; eexists; reflexivity|].
    intro H. rewrite os_succeeds_ltb in E1 by exact H. discriminate. }
  set (r2 := ret_val _ <? 0). destruct r2 eqn:E2; subst r2.
  { split; [left; eexists; reflexivity|].
    intro H. rewrite os_succeeds_ltb in E2 by exact H. discriminate. }
  assert (G : same_globals w
                (set_trace w ((trace w ++ [Tcsetattr STDIN_FILENO TCSADRAIN (termattr j)]) ++
                              [Killpg (pgid j) SIGCONT]))).
  { unfold same_globals. simpl. repeat split.
    now rewrite !stdout_of_snoc_other by discriminate. }
  split; [right|intros _]; eexists; (split; [reflexivity|exact G]).
Qed.

(** What run_in_foreground leaves behind when it returns for a job it
    takes, in terms of the job that comes back. *)
Lemma run_in_foreground_returns (j : job_t) (cont : bool) (w : world) :
  taken_by_run_in_foreground j ->
  (forall r p w', run_in_foreground (Some j) cont w = Ret (r, p) w' ->
     exists j', p = Some j' /\ r = 0 /\
       last_exit_code w' =
         (if job_status_eqb (status j') EXITED then exitcode j'
          else last_exit_code w) /\
       stdout_of (trace w') =
         (stdout_of (trace w) ++
          if job_status_eqb (status j') SUSPENDED then [live_job_line j'] else [])%list) /\
  (os_succeeds w ->
     exists j' w', run_in_foreground (Some j) cont w = Ret (0, Some j') w').
Proof.
  intro T. unfold run_in_foreground.
  assert (G1 : negb (job_status_eqb (status j) NEW ||
                     job_status_eqb (status j) SUSPENDED ||
                     job_status_eqb (status j) RUNNING) = false).
  { destruct T as [H|[H|[H _]]]; rewrite H; reflexivity. }
  assert (G2 : job_status_eqb (status j) RUNNING && negb (is_in_bg j) = false).
  { destruct T as [H|[H|[H H']]]; rewrite H; try reflexivity.
    rewrite H'. reflexivity. }
  rewrite G1, G2. cbv zeta.
  set (j0 := set_is_in_bg (set_status j RUNNING) false).
  rewrite bind_sys.
  set (w1 := set_trace w _).
  assert (F1 : same_globals w w1)
    by (apply same_globals_sys; discriminate).
  set (r1 := ret_val _ <? 0). destruct r1 eqn:E1; subst r1.
  { split; [intros r p w' H; discriminate H|].
    intro S. rewrite os_succeeds_ltb in E1 by exact S. discriminate. }
  destruct (run_in_foreground_resume
              (cont && negb (job_status_eqb (status j) RUNNING)) j0 w1)
    as ([(w2 & E2)|(w2 & E2 & F2)] & R).
  { rewrite (bind_Exit _ _ _ _ _ E2). split; [discriminate|].
    intro S. destruct (R (os_succeeds_same _ _ F1 S)) as (w3 & E3 & _).
    cbv zeta in E3. congruence. }
  rewrite (bind_Ret _ _ _ _ _ E2).
  pose proof (same_globals_trans _ _ _ F1 F2) as F.
  destruct (run_in_foreground_tail j0 w2) as (P & Q). cbv zeta in P, Q.
  destruct F as (_ & L & O & _).
  split.
  - intros r p w' H. destruct (P r p w' H) as (j' & Hp & Hr & Hl & Ho).
    exists j'. rewrite <- L, <- O. auto.
  - intro S. apply Q.
    apply (os_succeeds_same w w2); [|exact S].
    eapply same_globals_trans; eassumption.
Qed.

Example run_in_foreground_exit3 :
  match run_in_foreground (Some job_new) false world1 with
  | Ret (r, Some j') w' =>
      r = 0 /\ status j' = EXITED /\ exitcode j' = 3 /\
      last_exit_code w' = 3 /\ stdout_of (trace w') = []
  | _ => False
  end.
Proof. vm_compute. repeat split. Qed.

(** ** print_job *)

Lemma print_job_returns (j : job_t) (w : world) :
  exists r,
    print_job (Some j) w =
      Ret r (set_trace w (trace w ++ [Dprintf STDOUT_FILENO (job_line j)])) /\
    (r = 0 \/ r = -1) /\
    (os_succeeds w -> r = 0).
Proof.
  unfold print_job, job_line, finished.
  rewrite <- negb_orb.
  destruct (job_status_eqb (status j) EXITED || job_status_eqb (status j) ABORTED);
    cbn [negb]; rewrite bind_sys;
    match goal with |- context [ret_val ?x <? 0] => destruct (ret_val x <? 0) eqn:E end;
    eexists; (split; [reflexivity|]); (split; [auto|]); intro S;
    try reflexivity; rewrite os_succeeds_ltb in E by exact S; discriminate.
Qed.

(** C9, as amended.  print_job writes one line to standard output:
    [<id>] (<status>) <raw> and a newline for a job that is neither EXITED
    nor ABORTED, and [<id>] (<status> <<exit_code>>) <raw> and a newline, the
    exit code between angle brackets, for one that is.  <status> is the
    status name in lower case and the numbers are in decimal. *)
Theorem print_job_format (j : job_t) (w : world) :
  (exists r,
     print_job (Some j) w =
       Ret r (set_trace w (trace w ++
          [Dprintf STDOUT_FILENO
             (if finished j
              then "[" ++ fmt_d (jobid j) ++ "] (" ++
                   jobs_status_as_char (status j) ++ " <" ++
                   fmt_d (exitcode j) ++ ">) " ++ input (ui j) ++ str1 LF
              else "[" ++ fmt_d (jobid j) ++ "] (" ++
                   jobs_status_as_char (status j) ++ ") " ++
                   input (ui j) ++ str1 LF)])) /\
     (r = 0 \/ r = -1) /\ (os_succeeds w -> r = 0)) /\
  map jobs_status_as_char [NEW; RUNNING; SUSPENDED; EXITED; ABORTED; CANCELED] =
    ["new"; "running"; "suspended"; "exited"; "aborted"; "canceled"].
Proof.
  split; [|reflexivity].
  destruct (print_job_returns j w) as (r & E & R).
  exists r. split; [exact E|exact R].
Qed.

Example print_job_running_sleep :
  print_job (Some job_sleep_running) world0 =
    Ret 0 (set_trace world0
             [Dprintf STDOUT_FILENO ("[1] (running) sleep 60" ++ str1 LF)]).
Proof. reflexivity. Qed.

(** C9 as the specification has it fails on a job that has exited: the
    line printed has the exit code between angle brackets. *)
Lemma print_job_finished_counterexample :
  print_job (Some job_ls_exited) world0 =
    Ret 0 (set_trace world0
             [Dprintf STDOUT_FILENO ("[1] (exited <0>) ls" ++ str1 LF)]) /\
  spec_finished_job_line job_ls_exited = "[1] (exited 0) ls" ++ str1 LF /\
  "[1] (exited <0>) ls" ++ str1 LF <> spec_finished_job_line job_ls_exited.
Proof.
  split; [reflexivity|]. split; [reflexivity|]. discriminate.
Qed.

(** ** jobs_list *)

Lemma unlink_app (kept nodes : list job_t) (j : job_t) :
  unlink (List.length kept) (kept ++ j :: nodes) = (kept ++ nodes)%list.
Proof. induction kept as [|k kept IH]; simpl; [reflexivity|now rewrite IH]. Qed.

Lemma jobs_remove_at (kept nodes : list job_t) (j : job_t) (w : world) :
  jobs w = (kept ++ j :: nodes)%list ->
  jobs_remove (Some (List.length kept)) w = Ret 0 (set_jobs w (kept ++ nodes)).
Proof.
  intro H. unfold jobs_remove. run_m. rewrite H.
  destruct (kept ++ j :: nodes)%list eqn:E.
  { destruct kept; discriminate. }
  rewrite <- E.
  assert (L : (List.length kept <? List.length (kept ++ j :: nodes))%nat = true).
  { apply Nat.ltb_lt. rewrite length_app. simpl. lia. }
  rewrite L. now rewrite unlink_app.
Qed.

(** The loop of jobs_list, with the table split at the node it has reached. *)
Lemma jobs_list_from_spec (nodes : list job_t) :
  forall (kept : list job_t) (w : world),
    jobs w = (kept ++ nodes)%list ->
    exists r w',
      jobs_list_from nodes (List.length kept) w = Ret r w' /\
      (r = 0 \/ r = -1) /\
      (r = 0 ->
         jobs w' = (kept ++ filter (fun j => negb (finished j)) nodes)%list /\
         trace w' = (trace w ++ print_calls nodes)%list) /\
      (os_succeeds w -> r = 0).
Proof.
  induction nodes as [|j nodes IH]; intros kept w H.
  - exists 0, w. simpl. rewrite !app_nil_r. rewrite app_nil_r in H.
    repeat split; auto.
  - cbn [jobs_list_from].
    destruct (print_job_returns j w) as (r & E & R & S).
    rewrite (bind_Ret _ _ _ _ _ E).
    set (w1 := set_trace w _) in *.
    destruct R as [R|R]; subst r; cbn [Z.eqb negb].
    2:{ exists (-1), w1. split; [reflexivity|]. split; [auto|].
        split; [discriminate|]. intro K. specialize (S K). discriminate. }
    fold (finished j).
    destruct (finished j) eqn:F.
    + rewrite (bind_Ret _ _ _ _ _ (jobs_remove_at kept nodes j w1 H)).
      destruct (IH kept (set_jobs w1 (kept ++ nodes)) eq_refl)
        as (r & w' & E' & R' & P' & S').
      exists r, w'. split; [exact E'|]. split; [exact R'|]. split.
      * intro Z0. destruct (P' Z0) as (A & B). split.
        -- cbn [filter]. rewrite F. exact A.
        -- rewrite B. subst w1. simpl. now rewrite <- app_assoc.
      * intro K. apply S'. exact K.
    + assert (H' : jobs w1 = ((kept ++ [j]) ++ nodes)%list)
        by (rewrite <- app_assoc; exact H).
      destruct (IH (kept ++ [j])%list w1 H') as (r & w' & E' & R' & P' & S').
      rewrite length_app in E'. simpl in E'. rewrite Nat.add_1_r in E'.
      exists r, w'. split; [exact E'|]. split; [exact R'|]. split.
      * intro Z0. destruct (P' Z0) as (A & B). split.
        -- cbn [filter]. rewrite F. cbn [negb]. rewrite A.
           now rewrite <- app_assoc.
        -- rewrite B. subst w1. simpl. now rewrite <- app_assoc.
      * intro K. apply S'. exact K.
Qed.

Lemma finished_false (j : job_t) :
  negb (finished j) = true -> status j <> EXITED /\ status j <> ABORTED.
Proof. unfold finished. destruct (status j); simpl; intro H; split; congruence. Qed.

(** C3.  jobs_list returns 0 or -1, and 0 when the operating system refuses
    nothing.  When it returns 0 it has printed every job of the table once,
    in order, and nothing else; the table is then the jobs that were neither
    EXITED nor ABORTED, in their order, so that none of the jobs left is
    EXITED or ABORTED. *)
Theorem jobs_list_removes_finished (w : world) :
  exists r w',
    jobs_list w = Ret r w' /\
    (r = 0 \/ r = -1) /\
    (r = 0 ->
       trace w' = (trace w ++ print_calls (jobs w))%list /\
       jobs w' = filter (fun j => negb (finished j)) (jobs w) /\
       Forall (fun j => status j <> EXITED /\ status j <> ABORTED) (jobs w')) /\
    (os_succeeds w -> r = 0).
Proof.
  destruct (jobs_list_from_spec (jobs w) [] w eq_refl) as (r & w' & E & R & P & S).
  exists r, w'. split; [exact E|]. split; [exact R|]. split; [|exact S].
  intro Z0. destruct (P Z0) as (A & B). simpl in A.
  split; [exact B|]. split; [exact A|].
  rewrite A. apply Forall_forall. intros j Hj.
  apply filter_In in Hj. apply finished_false, Hj.
Qed.

Example jobs_list_two_jobs :
  jobs_list (set_jobs world0 [job_sleep_running; set_jobid job_ls_exited 2]) =
    Ret 0 (set_trace (set_jobs world0 [job_sleep_running])
             [Dprintf STDOUT_FILENO ("[1] (running) sleep 60" ++ str1 LF);
              Dprintf STDOUT_FILENO ("[2] (exited <0>) ls" ++ str1 LF)]).
Proof. reflexivity. Qed.

(** ** The job table *)

Lemma last_job_last_id (js : list job_t) :
  option_map jobid (last_job js) = last_id (map jobid js).
Proof.
  induction js as [|j js IH]; [reflexivity|].
  destruct js as [|j' js]; [reflexivity|]. exact IH.
Qed.

Lemma map_jobid_unlink (i : nat) (js : list job_t) :
  map jobid (unlink i js) = unlink_id i (map jobid js).
Proof.
  revert i. induction js as [|j js IH]; intros [|i]; simpl; try reflexivity.
  now rewrite IH.
Qed.

Lemma unlink_id_incl (i : nat) (ids : list Z) (x : Z) :
  In x (unlink_id i ids) -> In x ids.
Proof.
  revert i. induction ids as [|y ids IH]; intros [|i]; simpl; auto.
  intros [H|H]; [auto|right; eauto].
Qed.

Lemma ids_ok_unlink (i : nat) (ids : list Z) :
  ids_ok ids -> ids_ok (unlink_id i ids).
Proof.
  unfold ids_ok. revert i. induction ids as [|y ids IH]; intros i (S & F).
  - destruct i; simpl; auto.
  - inversion S as [|? ? S' Fy]; subst. inversion F as [|? ? Hy F']; subst.
    destruct i as [|i]; simpl; [auto|].
    destruct (IH i (conj S' F')) as (S'' & F'').
    split; constructor; auto.
    apply Forall_forall. intros x Hx.
    apply unlink_id_incl in Hx.
    rewrite Forall_forall in Fy. auto.
Qed.

Lemma last_id_bounds (ids : list Z) (l : Z) :
  StronglySorted Z.lt ids -> last_id ids = Some l ->
  Forall (fun x => x <= l) ids.
Proof.
  induction ids as [|y ids IH]; intros S H; [constructor|].
  inversion S as [|? ? S' Fy]; subst.
  destruct ids as [|z ids].
  - injection H as <-. repeat constructor. lia.
  - specialize (IH S' H). constructor; [|exact IH].
    inversion Fy; subst. inversion IH; subst. lia.
Qed.

Lemma last_id_In (ids : list Z) (l : Z) : last_id ids = Some l -> In l ids.
Proof.
  induction ids as [|y ids IH]; [discriminate|].
  destruct ids as [|z ids]; intro H.
  - injection H as <-. now left.
  - right. auto.
Qed.

Lemma ids_ok_snoc (ids : list Z) (x : Z) :
  ids_ok ids -> Forall (fun y => y < x) ids -> 1 <= x -> ids_ok (ids ++ [x]).
Proof.
  unfold ids_ok. induction ids as [|y ids IH]; intros (S & F) B Hx; simpl.
  - split; repeat constructor. exact Hx.
  - inversion S as [|? ? S' Fy]; subst. inversion F as [|? ? Hy F']; subst.
    inversion B as [|? ? By B']; subst.
    destruct (IH (conj S' F') B' Hx) as (S'' & F'').
    split; constructor; auto.
    apply Forall_app. split; [exact Fy|]. repeat constructor. exact By.
Qed.

Lemma fold_max_le (x : Z) (ids : list Z) (l : Z) :
  x <= l -> Forall (fun y => y <= l) ids -> fold_right Z.max x ids <= l.
Proof.
  intros Hx F. induction F as [|y ids Hy F IH]; simpl; [exact Hx|lia].
Qed.

Lemma fold_max_ge (x : Z) (ids : list Z) (l : Z) :
  In l (x :: ids) -> l <= fold_right Z.max x ids.
Proof.
  induction ids as [|y ids IH]; simpl.
  - intros [H|[]]. lia.
  - intros [H|[H|H]].
    + specialize (IH (or_introl H)). lia.
    + lia.
    + specialize (IH (or_intror H)). lia.
Qed.

Lemma fold_max_last (x : Z) (ids : list Z) (l : Z) :
  Forall (fun y => y <= l) (x :: ids) -> In l (x :: ids) ->
  fold_right Z.max x ids = l.
Proof.
  intros F I. inversion F as [|? ? Hx F']; subst.
  pose proof (fold_max_le x ids l Hx F').
  pose proof (fold_max_ge x ids l I). lia.
Qed.

Lemma ids_ok_increasing (js : list job_t) :
  ids_ok (map jobid js) -> ids_increasing js.
Proof.
  intros (S & _). unfold ids_increasing.
  induction js as [|j js IH]; intros i k a b L Ha Hb.
  - destruct i; discriminate.
  - simpl in S. inversion S as [|? ? S' F]; subst.
    destruct k as [|k]; [lia|]. simpl in Hb.
    destruct i as [|i]; simpl in Ha.
    + injection Ha as <-. rewrite Forall_forall in F. apply F.
      apply in_map. eapply nth_error_In; eassumption.
    + apply (IH S' i k); [lia|assumption|assumption].
Qed.

Lemma int_wrap_small (x : Z) : INT_MIN <= x <= INT_MAX -> int_wrap x = x.
Proof.
  unfold int_wrap, INT_MIN, INT_MAX. intro H.
  rewrite Z.mod_small by lia. lia.
Qed.

Lemma last_job_snoc (js : list job_t) (j : job_t) : last_job (js ++ [j]) = Some j.
Proof.
  induction js as [|a js IH]; [reflexivity|].
  simpl. destruct (js ++ [j])%list eqn:E; [destruct js; discriminate|exact IH].
Qed.

Lemma last_job_None (js : list job_t) : last_job js = None -> js = [].
Proof.
  induction js as [|a js IH]; [reflexivity|].
  simpl. destruct js; [discriminate|]. intro H. specialize (IH H). discriminate.
Qed.

(** jobs_insert of a job always returns 0, the job at the end of the table. *)
Lemma jobs_insert_returns (job : job_t) (w : world) :
  exists id,
    jobs_insert (Some job) w = Ret 0 (set_jobs w (jobs w ++ [set_jobid job id])).
Proof.
  unfold jobs_insert. run_m.
  destruct (last_job (jobs w)) as [l|] eqn:L.
  - eexists. reflexivity.
  - exists 1. now rewrite (last_job_None _ L).
Qed.

(** What jobs_insert does to a table whose ids are in order. *)
Lemma jobs_insert_spec (w : world) (job : job_t) :
  ids_ok (map jobid (jobs w)) -> no_id_overflow (jobs w) ->
  jobs_insert (Some job) w =
    Ret 0 (set_jobs w (jobs w ++
             [set_jobid job (next_jobid (option_map jobid (last_job (jobs w))))])) /\
  next_jobid (option_map jobid (last_job (jobs w))) = next_jobid (max_jobid (jobs w)) /\
  ids_ok (map jobid (jobs w ++
            [set_jobid job (next_jobid (option_map jobid (last_job (jobs w))))])).
Proof.
  intros K N. unfold jobs_insert. run_m.
  destruct (last_job (jobs w)) as [l|] eqn:L.
  - pose proof (last_job_last_id (jobs w)) as LI. rewrite L in LI. simpl in LI.
    symmetry in LI.
    pose proof (last_id_bounds _ _ (proj1 K) LI) as B.
    pose proof (last_id_In _ _ LI) as I.
    assert (P : 1 <= jobid l).
    { destruct K as (_ & F). rewrite Forall_forall in F. auto. }
    specialize (N l L).
    rewrite int_wrap_small by (unfold INT_MIN; unfold INT_MAX in *; lia).
    split; [reflexivity|]. split.
    + unfold max_jobid. destruct (map jobid (jobs w)) as [|x xs]; [destruct I|].
      simpl. f_equal. symmetry. now apply fold_max_last.
    + rewrite map_app. simpl. apply ids_ok_snoc; [exact K| |lia].
      eapply Forall_impl; [|exact B]. simpl. intros; lia.
  - destruct (jobs w) as [|j js] eqn:J.
    + split; [reflexivity|]. split; [reflexivity|].
      simpl. split; repeat constructor. lia.
    + exfalso. clear -L. revert j L.
      induction js as [|j' js IH]; intros j L; [discriminate|].
      apply (IH j'). exact L.
Qed.

(** jobs_remove always returns, and what it leaves is the table or the
    table without one node. *)
Lemma jobs_remove_spec (p : option nat) (w : world) :
  exists r w',
    jobs_remove p w = Ret r w' /\
    (jobs w' = jobs w \/ exists i, jobs w' = unlink i (jobs w)).
Proof.
  unfold jobs_remove. destruct p as [i|]; [|exists (- EINVAL), w; auto].
  run_m. destruct (jobs w) as [|j js] eqn:J; [exists (- EINVAL), w; auto|].
  rewrite <- J.
  destruct (i <? List.length (jobs w))%nat; do 2 eexists; split; try reflexivity.
  - right. exists i. reflexivity.
  - left. reflexivity.
Qed.

Lemma table_reachable_ids_ok (w : world) :
  table_reachable w -> ids_ok (map jobid (jobs w)).
Proof.
  induction 1 as [w E|w job r w' R IH N E|w p r w' R IH E|w w' R IH E].
  - rewrite E. split; constructor.
  - destruct (jobs_insert_spec w job IH N) as (E' & _ & K).
    rewrite E' in E. injection E as _ <-. exact K.
  - destruct (jobs_remove_spec p w) as (r' & w'' & E' & [J|(i & J)]);
      rewrite E' in E; injection E as _ <-; rewrite J; [exact IH|].
    rewrite map_jobid_unlink. now apply ids_ok_unlink.
  - rewrite E. exact IH.
Qed.

(** C2.  In a table that a session can build, jobs earlier in the table
    have smaller ids.  jobs_insert puts the new job at the end of it, with
    the id of the last job plus 1, or 1 when the table is empty, which is
    also the largest id of the table plus 1, or 1; jobs_remove leaves the
    other jobs in their order.  In the tables that come out, jobs earlier
    in the table have smaller ids too. *)
Theorem jobs_insert_assigns_next_id (w : world) (job : job_t) :
  table_reachable w -> no_id_overflow (jobs w) ->
  ids_increasing (jobs w) /\
  (exists w',
     jobs_insert (Some job) w = Ret 0 w' /\
     jobs w' = (jobs w ++
       [set_jobid job (next_jobid (option_map jobid (last_job (jobs w))))])%list /\
     next_jobid (option_map jobid (last_job (jobs w))) =
       next_jobid (max_jobid (jobs w)) /\
     ids_increasing (jobs w')) /\
  (forall p, exists r w',
     jobs_remove p w = Ret r w' /\
     (jobs w' = jobs w \/ exists i, jobs w' = unlink i (jobs w)) /\
     ids_increasing (jobs w')).
Proof.
  intros R N. pose proof (table_reachable_ids_ok w R) as K.
  split; [now apply ids_ok_increasing|]. split.
  - destruct (jobs_insert_spec w job K N) as (E & M & K').
    eexists. split; [exact E|]. split; [reflexivity|]. split; [exact M|].
    apply ids_ok_increasing. exact K'.
  - intro p. destruct (jobs_remove_spec p w) as (r & w' & E & J).
    exists r, w'. split; [exact E|]. split; [exact J|].
    apply ids_ok_increasing.
    destruct J as [J|(i & J)]; rewrite J; [exact K|].
    rewrite map_jobid_unlink. now apply ids_ok_unlink.
Qed.

(** C2 at the table that holds one job. *)
Lemma jobs_insert_assigns_next_id_witness :
  table_reachable world_one_job /\
  no_id_overflow (jobs world_one_job) /\
  ids_increasing (jobs world_one_job) /\
  (exists w',
     jobs_insert (Some job_sleep_running) world_one_job = Ret 0 w' /\
     jobs w' = (jobs world_one_job ++
       [set_jobid job_sleep_running
          (next_jobid (option_map jobid (last_job (jobs world_one_job))))])%list /\
     next_jobid (option_map jobid (last_job (jobs world_one_job))) =
       next_jobid (max_jobid (jobs world_one_job)) /\
     ids_increasing (jobs w')) /\
  (forall p, exists r w',
     jobs_remove p world_one_job = Ret r w' /\
     (jobs w' = jobs world_one_job \/ exists i, jobs w' = unlink i (jobs world_one_job)) /\
     ids_increasing (jobs w')).
Proof.
  assert (R : table_reachable world_one_job).
  { apply (reach_insert world0 job_new 0 world_one_job).
    - apply reach_start. reflexivity.
    - intros l H. discriminate H.
    - reflexivity. }
  assert (N : no_id_overflow (jobs world_one_job)).
  { intros l H. injection H as <-. reflexivity. }
  split; [exact R|]. split; [exact N|].
  exact (jobs_insert_assigns_next_id world_one_job job_sleep_running R N).
Defined.

Example second_job_gets_id_2 :
  exists w',
    jobs_insert (Some job_sleep_running) world_one_job = Ret 0 w' /\
    map jobid (jobs w') = [1; 2].
Proof. eexists. split; reflexivity. Qed.

(** ** parse_input *)

Lemma parse_word_reading (loop : component_loop) (n : nat) :
  (forall toks c b,
     (List.length toks <= n)%nat ->
     loop toks c b =
       match reading toks with
       | None => None
       | Some its => Some (fold_left apply_item its c, b || marked toks)
       end) ->
  forall ctok rest c b,
    (List.length rest <= n)%nat ->
    parse_word loop ctok rest c b =
      match
        match operator_of ctok with
        | Some (op, Some path) => option_map (cons (Redirection op path)) (reading rest)
        | Some (op, None) =>
            match rest with
            | [] => None
            | path :: rest' => option_map (cons (Redirection op path)) (reading rest')
            end
        | None => option_map (cons (Word ctok)) (reading rest)
        end
      with
      | None => None
      | Some its =>
          Some (fold_left apply_item its c,
                b || match operator_of ctok with
                     | Some (_, None) =>
                         match rest with
                         | [] => false
                         | _ :: rest' => marked rest'
                         end
                     | _ => marked rest
                     end)
      end.
Proof.
  intros IH ctok rest c b Ln. unfold parse_word, operator_of.
  assert (Tl : forall x rest', rest = x :: rest' -> (List.length rest' <= n)%nat).
  { intros x rest' ->. simpl in Ln. lia. }
  repeat match goal with
         | |- context [if ?x then _ else _] => destruct x
         end;
    try (destruct rest as [|x rest']; [reflexivity|];
         specialize (Tl x rest' eq_refl); rewrite (IH _ _ _ Tl);
         destruct (reading rest'); reflexivity);
    rewrite (IH _ _ _ Ln); destruct (reading rest); reflexivity.
Qed.

Lemma parse_components_reading_le (n : nat) :
  forall toks c b,
    (List.length toks <= n)%nat ->
    parse_components toks c b =
      match reading toks with
      | None => None
      | Some its => Some (fold_left apply_item its c, b || marked toks)
      end.
Proof.
  induction n as [|n IH]; intros toks c b Ln.
  - destruct toks; [|simpl in Ln; lia]. simpl. now rewrite orb_false_r.
  - destruct toks as [|t rest]; [simpl; now rewrite orb_false_r|].
    simpl in Ln. cbn [parse_components reading marked].
    destruct (starts_with "&" t).
    + rewrite IH by lia. rewrite orb_true_r.
      destruct (reading rest); reflexivity.
    + unfold stripped. destruct (ends_with_amp t).
      * rewrite (parse_word_reading parse_components n IH) by lia.
        cbn [orb]. rewrite orb_true_r. reflexivity.
      * rewrite (parse_word_reading parse_components n IH) by lia.
        cbn [orb]. reflexivity.
Qed.

Lemma parse_components_reading (toks : list string) (c : command_t) (b : bool) :
  parse_components toks c b =
    match reading toks with
    | None => None
    | Some its => Some (fold_left apply_item its c, b || marked toks)
    end.
Proof. apply (parse_components_reading_le (List.length toks)). lia. Qed.

Lemma parse_commands_reading (texts : list string) :
  forall cmds b,
    parse_commands texts cmds b =
      match read_line texts with
      | None => None
      | Some cs => Some ((cmds ++ cs)%list, b || existsb marked_command texts)
      end.
Proof.
  induction texts as [|text texts IH]; intros cmds b.
  - simpl. now rewrite app_nil_r, orb_false_r.
  - cbn [parse_commands read_line existsb]. unfold read_command, marked_command at 1.
    rewrite parse_components_reading.
    destruct (reading (tokens COMPONENT_DELIMS text)) as [its|]; [|reflexivity].
    cbn [option_map]. rewrite IH.
    destruct (read_line texts) as [cs|]; [|reflexivity].
    cbn [option_map]. now rewrite <- app_assoc, orb_assoc.
Qed.


Lemma fold_items_words (its : list item) :
  forall c,
    components (fold_left apply_item its c) = (components c ++ words its)%list.
Proof.
  induction its as [|[w|[] p] its IH]; intro c; simpl;
    [now rewrite app_nil_r|..]; rewrite IH; simpl;
    [now rewrite <- app_assoc|reflexivity..].
Qed.

Lemma fold_items_paths (its : list item) :
  forall c,
    redirect_stdout (fold_left apply_item its c) =
      last_path to_stdout its (redirect_stdout c) /\
    redirect_stderr (fold_left apply_item its c) =
      last_path to_stderr its (redirect_stderr c) /\
    redirect_stdin (fold_left apply_item its c) =
      last_path from_stdin its (redirect_stdin c).
Proof.
  induction its as [|[w|[] p] its IH]; intro c; simpl; [auto|..];
    match goal with
    | |- context [fold_left apply_item its ?c'] => exact (IH c')
    end.
Qed.

Lemma fold_items_appends (its : list item) :
  forall c,
    append_stdout (fold_left apply_item its c) = append_stdout c || appends its.
Proof.
  induction its as [|[w|[] p] its IH]; intro c; simpl;
    [now rewrite orb_false_r|..]; rewrite IH; simpl;
    try reflexivity. now rewrite orb_true_r.
Qed.

Lemma marked_none (toks : list string) :
  (forall t, In t toks -> starts_with "&" t = false /\ ends_with_amp t = false) ->
  marked toks = false /\ marked (tl toks) = false.
Proof.
  induction toks as [|t rest IH]; intro H; [auto|].
  destruct IH as (M & M'); [intros x Hx; apply H; now right|].
  split; [|exact M]. cbn [marked].
  destruct (H t (or_introl eq_refl)) as (A & E). rewrite A, E. cbn [orb].
  destruct (operator_of (stripped t)) as [[op [p|]]|]; try exact M.
  destruct rest; [reflexivity|exact M'].
Qed.

Lemma read_line_commands (texts : list string) :
  forall cs,
    read_line texts = Some cs ->
    Forall2 (fun c text => read_command text = Some c) cs texts.
Proof.
  induction texts as [|text texts IH]; intros cs; simpl.
  - intros [= <-]. constructor.
  - destruct (read_command text) as [c|] eqn:R; [|discriminate].
    destruct (read_line texts) as [cs'|]; [|discriminate].
    intros [= <-]. constructor; [exact R|now apply IH].
Qed.

(** C5, as amended.  When parse_input returns a Pipeline for a line, the
    tokens of each command, the paths of redirection operators that stand
    alone apart, are read as follows.  A token that begins with the
    background mark sets the background flag and is dropped whole.  A token
    that does not begin with it and ends with it sets the flag and loses
    that last character only; what is left is handled as a redirection or
    an argv word, as any other token is.  So the argv of each command is
    the words of its reading, and its redirections are the last ones of
    their kind in its reading.  The flag is the flag of the Pipeline: it is
    set when a command of the line, whichever, has such a token, and it is
    not set when no token of the line begins or ends with the mark. *)
Theorem parse_input_background (s : string) (u : user_input_t) :
  parse_input (Some s) = PInput u ->
  is_background_command u = existsb marked_command (tokens COMMAND_DELIMS s) /\
  Forall2
    (fun c text =>
       exists its,
         reading (tokens COMPONENT_DELIMS text) = Some its /\
         components c = words its /\
         redirect_stdout c = last_path to_stdout its None /\
         redirect_stderr c = last_path to_stderr its None /\
         redirect_stdin c = last_path from_stdin its None)
    (commands u) (tokens COMMAND_DELIMS s) /\
  ((forall text t,
      In text (tokens COMMAND_DELIMS s) -> In t (tokens COMPONENT_DELIMS text) ->
      starts_with "&" t = false /\ ends_with_amp t = false) ->
   is_background_command u = false).
Proof.
  unfold parse_input. rewrite parse_commands_reading.
  destruct (read_line (tokens COMMAND_DELIMS s)) as [cs|] eqn:R; [|discriminate].
  intros [= <-]. cbn [is_background_command commands orb app].
  split; [reflexivity|]. split.
  - apply read_line_commands in R.
    induction R as [|c text cs texts H R IH]; constructor; [|exact IH].
    unfold read_command in H.
    destruct (reading (tokens COMPONENT_DELIMS text)) as [its|]; [|discriminate].
    injection H as <-. exists its. split; [reflexivity|].
    rewrite fold_items_words.
    destruct (fold_items_paths its (new_command text)) as (P1 & P2 & P3).
    auto.
  - intro N.
    destruct (existsb marked_command (tokens COMMAND_DELIMS s)) eqn:E; [|reflexivity].
    apply existsb_exists in E as (text & I & M).
    unfold marked_command in M.
    rewrite (proj1 (marked_none _ (fun t Ht => N text t I Ht))) in M. discriminate.
Qed.

(** C5 at a line with a pipe, whose commands have the mark at the end of a
    word, at the end of a redirection, and alone. *)
Lemma parse_input_background_witness :
  let s := "sort& <in | uniq >out& | wc &" in
  let u := mk_user_input s
             [mk_command "sort& <in " ["sort"] None false None (Some "in");
              mk_command " uniq >out& " ["uniq"] (Some "out") false None None;
              mk_command " wc &" ["wc"] None false None None] true in
  parse_input (Some s) = PInput u /\
  is_background_command u = existsb marked_command (tokens COMMAND_DELIMS s) /\
  Forall2
    (fun c text =>
       exists its,
         reading (tokens COMPONENT_DELIMS text) = Some its /\
         components c = words its /\
         redirect_stdout c = last_path to_stdout its None /\
         redirect_stderr c = last_path to_stderr its None /\
         redirect_stdin c = last_path from_stdin its None)
    (commands u) (tokens COMMAND_DELIMS s) /\
  ((forall text t,
      In text (tokens COMMAND_DELIMS s) -> In t (tokens COMPONENT_DELIMS text) ->
      starts_with "&" t = false /\ ends_with_amp t = false) ->
   is_background_command u = false).
Proof.
  split; [reflexivity|].
  exact (parse_input_background "sort& <in | uniq >out& | wc &" _ eq_refl).
Defined.

(** The flag is not reset at a pipe character. *)
Example parse_background_first_command :
  parse_input (Some "sleep 60& | cat") =
    PInput (mk_user_input "sleep 60& | cat"
              [mk_command "sleep 60& " ["sleep"; "60"] None false None None;
               mk_command " cat" ["cat"] None false None None] true).
Proof. reflexivity. Qed.

Example parse_background_alone :
  parse_input (Some "sleep 60 &") =
    PInput (mk_user_input "sleep 60 &"
              [mk_command "sleep 60 &" ["sleep"; "60"] None false None None] true).
Proof. reflexivity. Qed.

Example parse_background_attached :
  parse_input (Some "sleep 60& >out") =
    PInput (mk_user_input "sleep 60& >out"
              [mk_command "sleep 60& >out" ["sleep"; "60"] (Some "out") false None None]
              true).
Proof. reflexivity. Qed.

(** C5 as the specification has it fails on the token [&x&], which ends
    with the mark and is not the mark alone: nothing of it reaches argv,
    where the specification has [&x] as an argv word. *)
Lemma parse_background_counterexample :
  parse_input (Some "ls &x&") =
    PInput (mk_user_input "ls &x&"
              [mk_command "ls &x&" ["ls"] None false None None] true) /\
  parse_input (Some "ls &x&") <>
    PInput (mk_user_input "ls &x&"
              [mk_command "ls &x&" ["ls"; "&x"] None false None None] true).
Proof.
  split; [reflexivity|discriminate].
Qed.





Example pipe_alone_is_skipped :
  smash_main_line no_handler no_handler no_handler no_handler no_handler
    "|" world0 =
  Ret None
    (set_jobs world0 [mk_job (mk_user_input "|" [] false) NEW 0 0 1 0 0 false]).
Proof. reflexivity. Qed.


(** ** builtin_echo *)

(** The loop of builtin_echo. *)
Lemma echo_tokens_spec (toks : list string) :
  forall w : world,
    exists calls,
      echo_tokens toks w = Ret tt (set_trace w (trace w ++ calls)) /\
      flatten (stdout_of calls) =
        flatten (map (fun tok => echo_word w tok ++ " ") toks).
Proof.
  induction toks as [|tok toks IH]; intro w.
  - exists []. split; [|reflexivity]. simpl. unfold ret.
    rewrite app_nil_r. now destruct w.
  - cbn [echo_tokens].
    set (w1 := set_trace w (trace w ++ [Dprintf STDOUT_FILENO (echo_word w tok);
                                        Dprintf STDOUT_FILENO " "])).
    assert (E : forall k : M unit,
              ((match tok with
                | String "$" tok0 =>
                    if String.eqb tok0 "?" then
                      w <- get ;;
                      sys (Dprintf STDOUT_FILENO (fmt_d (last_exit_code w))) ;;; ret tt
                    else
                      w <- get ;;
                      sys (Dprintf STDOUT_FILENO
                             (match getenv w tok0 with
                              | Some var => var
                              | None => EmptyString
                              end)) ;;; ret tt
                | _ => sys (Dprintf STDOUT_FILENO tok) ;;; ret tt
                end) ;;;
               sys (Dprintf STDOUT_FILENO " ") ;;; k) w = k w1).
    { intro k. subst w1. unfold echo_word.
      destruct tok as [|a tok0]; [run_m; now rewrite <- app_assoc|].
      destruct (Ascii.eqb a "$") eqn:A.
      - apply Ascii.eqb_eq in A. subst a.
        destruct (String.eqb tok0 "?"); run_m; now rewrite <- app_assoc.
      - destruct a as [[] [] [] [] [] [] [] []]; try discriminate A;
          run_m; now rewrite <- app_assoc. }
    rewrite E.
    destruct (IH w1) as (calls & E' & F).
    exists ([Dprintf STDOUT_FILENO (echo_word w tok); Dprintf STDOUT_FILENO " "] ++ calls)%list.
    split.
    + rewrite E'. subst w1. rewrite set_trace_set_trace. cbn [trace set_trace].
      now rewrite <- app_assoc.
    + rewrite stdout_of_app, flatten_app, F.
      change (flatten (map (fun t => echo_word w t ++ " ") (tok :: toks)))
        with ((echo_word w tok ++ " ") ++
              flatten (map (fun t => echo_word w t ++ " ") toks)).
      change (flatten (stdout_of [Dprintf STDOUT_FILENO (echo_word w tok);
                                  Dprintf STDOUT_FILENO " "]))
        with (echo_word w tok ++ " ").
      reflexivity.
Qed.

(** C7.  builtin_echo returns 0 after writing to standard output, for each
    token of the command line after its first word, what the token stands
    for and one space, and then a newline: the decimal last_exit_code for
    the token $?, the value of NAME in the environment, or nothing if it is
    not set, for a token $NAME, and the token itself for any other.  So
    [echo hello] writes hello, a space and a newline.  The main loop hands
    it every line whose first word is echo. *)
Theorem builtin_echo_output (cmd : string) (w : world) :
  (exists calls,
     builtin_echo (Some cmd) w = Ret 0 (set_trace w (trace w ++ calls)) /\
     flatten (stdout_of calls) =
       echo_output w (tokens BUILTIN_DELIMS (skip_word cmd))) /\
  echo_word w "$?" = fmt_d (last_exit_code w) /\
  (forall name, name <> "?" ->
     echo_word w (String "$" name) =
       match getenv w name with Some v => v | None => EmptyString end) /\
  (forall tok, starts_with "$" tok = false -> echo_word w tok = tok) /\
  echo_output w (tokens BUILTIN_DELIMS (skip_word "echo hello")) =
    "hello " ++ str1 LF /\
  (forall (cd pwd fg bg kill : callback_t) buf rest,
     trimmed buf = cmd ->
     strtok_r cmd BUILTIN_DELIMS = Some ("echo", rest) ->
     smash_main_line cd pwd fg bg kill buf w =
       (builtin_echo (Some cmd) ;;; ret None) w).
Proof.
  split; [|split; [reflexivity|split; [|split; [|split; [reflexivity|]]]]].
  - unfold builtin_echo, echo_output.
    destruct (echo_tokens_spec (tokens BUILTIN_DELIMS (skip_word cmd)) w)
      as (calls & E & F).
    rewrite (bind_Ret _ _ _ _ _ E). rewrite bind_sys. unfold ret.
    exists (calls ++ [Dprintf STDOUT_FILENO (str1 LF)])%list. split.
    + rewrite set_trace_set_trace. cbn [trace set_trace].
      now rewrite <- app_assoc.
    + rewrite stdout_of_app, flatten_app, F. reflexivity.
  - intros name H. unfold echo_word.
    destruct (String.eqb name "?") eqn:E; [|reflexivity].
    apply String.eqb_eq in E. contradiction.
  - intros tok H. unfold echo_word.
    destruct tok as [|a tok0]; [reflexivity|].
    cbn [starts_with] in H. rewrite andb_true_r in H.
    destruct a as [[] [] [] [] [] [] [] []]; try reflexivity; discriminate H.
  - intros cd pwd fg bg kill buf rest T K.
    unfold smash_main_line. rewrite T.
    pose proof (strtok_r_nonempty _ _ _ _ K) as N.
    destruct cmd as [|a s] eqn:C; [congruence|]. rewrite <- C in *.
    replace (String.length cmd =? 0)%nat with false by (rewrite C; reflexivity).
    unfold is_builtin. rewrite K. reflexivity.
Qed.

Example echo_hello :
  builtin_echo (Some "echo hello") world0 =
    Ret 0 (set_trace world0
             [Dprintf STDOUT_FILENO "hello"; Dprintf STDOUT_FILENO " ";
              Dprintf STDOUT_FILENO (str1 LF)]).
Proof. reflexivity. Qed.

Example echo_status_and_unset :
  flatten (stdout_of
    (match builtin_echo (Some "echo $? $HOME x") (set_last_exit_code world0 3) with
     | Ret _ w' => trace w'
     | _ => []
     end)) = "3  x " ++ str1 LF.
Proof. reflexivity. Qed.

(** ** builtin_exit *)

Lemma is_exit_iff (s : string) :
  (String.length s =? 4)%nat && starts_with "exit" s = true <-> s = "exit".
Proof.
  split.
  - intro H. apply andb_true_iff in H. destruct H as (L & P).
    apply Nat.eqb_eq in L.
    destruct s as [|a [|b [|c [|d [|e s]]]]]; try discriminate L.
    cbn [starts_with] in P.
    repeat (apply andb_true_iff in P; destruct P as (?Q & P)).
    apply Ascii.eqb_eq in Q, Q0, Q1, Q2. now subst.
  - intros ->. reflexivity.
Qed.

(** C10.  builtin_exit calls exit(0) when the command line it is handed is
    exactly [exit], and for any other line it returns -EINVAL and leaves
    the world as it was.  A line whose first word is exit is handed to it
    by the main loop, which, when the handler returns, goes on to its next
    turn with the world as it was. *)
Theorem builtin_exit_only_exit (cmd : string) (w : world) :
  (cmd = "exit" -> builtin_exit (Some cmd) w = Exit 0 w) /\
  (cmd <> "exit" -> builtin_exit (Some cmd) w = Ret (- EINVAL) w) /\
  (forall (cd pwd fg bg kill : callback_t) buf rest,
     trimmed buf = cmd ->
     strtok_r cmd BUILTIN_DELIMS = Some ("exit", rest) ->
     smash_main_line cd pwd fg bg kill buf w =
       if String.eqb cmd "exit" then Exit 0 w else Ret None w).
Proof.
  assert (A : cmd = "exit" -> builtin_exit (Some cmd) w = Exit 0 w).
  { intros ->. reflexivity. }
  assert (B : cmd <> "exit" -> builtin_exit (Some cmd) w = Ret (- EINVAL) w).
  { intro H. unfold builtin_exit.
    destruct ((String.length cmd =? 4)%nat && starts_with "exit" cmd) eqn:E;
      [|reflexivity].
    apply is_exit_iff in E. contradiction. }
  split; [exact A|]. split; [exact B|].
  intros cd pwd fg bg kill buf rest T K.
  unfold smash_main_line. rewrite T.
  pose proof (strtok_r_nonempty _ _ _ _ K) as N.
  destruct cmd as [|a s] eqn:C; [congruence|]. rewrite <- C in *.
  replace (String.length cmd =? 0)%nat with false by (rewrite C; reflexivity).
  unfold is_builtin. rewrite K.
  change (find_builtin "exit" (builtins cd pwd fg bg kill) 0 NUM_BUILTINS) with 0.
  cbn [Z.leb Z.compare].
  change (callback cd pwd fg bg kill 0) with builtin_exit.
  unfold bind.
  destruct (String.eqb cmd "exit") eqn:E.
  - apply String.eqb_eq in E. now rewrite (A E).
  - apply String.eqb_neq in E. now rewrite (B E).
Qed.

Example exit_alone :
  smash_main_line no_handler no_handler no_handler no_handler no_handler
    "  exit  " world0 = Exit 0 world0.
Proof. reflexivity. Qed.

Example exit_with_argument :
  smash_main_line no_handler no_handler no_handler no_handler no_handler
    "exit 1" world0 = Ret None world0.
Proof. reflexivity. Qed.

Example exit_with_comment :
  trimmed "exit # bye" = "exit " /\
  smash_main_line no_handler no_handler no_handler no_handler no_handler
    "exit # bye" world0 = Ret None world0.
Proof. split; reflexivity. Qed.

(** * More properties *)

(** ** jobs_lookup_by_jobid *)

(** X1.  jobs_lookup_by_jobid finds the first job of the table with the id
    asked for, and finds none only when no job of the table has it. *)
Theorem jobs_lookup_by_jobid_first (id : Z) (js : list job_t) :
  match jobs_lookup_by_jobid id js with
  | Some i =>
      (exists j, nth_error js i = Some j /\ jobid j = id) /\
      (forall k j, (k < i)%nat -> nth_error js k = Some j -> jobid j <> id)
  | None => forall j, In j js -> jobid j <> id
  end.
Proof.
  induction js as [|a js IH]; simpl.
  - intros j [].
  - destruct (jobid a =? id) eqn:E.
    + apply Z.eqb_eq in E. split; [exists a; auto|]. intros k j H. lia.
    + apply Z.eqb_neq in E.
      destruct (jobs_lookup_by_jobid id js) as [i|]; simpl.
      * destruct IH as ((j & Hj & Hid) & F). split; [exists j; auto|].
        intros [|k] j' Hk Hn; simpl in Hn.
        -- injection Hn as <-. exact E.
        -- apply (F k); [lia|exact Hn].
      * intros j [<-|H]; [exact E|now apply IH].
Qed.

Lemma lookup_app_notin (id : Z) (js : list job_t) (x : job_t) :
  (forall j, In j js -> jobid j <> id) -> jobid x = id ->
  jobs_lookup_by_jobid id (js ++ [x]) = Some (List.length js).
Proof.
  intros N E. induction js as [|a js IH]; simpl.
  - rewrite E, Z.eqb_refl. reflexivity.
  - assert (A : jobid a <> id) by (apply N; now left).
    apply Z.eqb_neq in A. rewrite A.
    rewrite IH by (intros j H; apply N; now right). reflexivity.
Qed.

Lemma lookup_app_found (id : Z) (js : list job_t) (x : job_t) (i : nat) :
  jobs_lookup_by_jobid id js = Some i ->
  jobs_lookup_by_jobid id (js ++ [x]) = Some i.
Proof.
  revert i. induction js as [|a js IH]; simpl; intros i H; [discriminate|].
  destruct (jobid a =? id); [exact H|].
  destruct (jobs_lookup_by_jobid id js) as [k|]; [|discriminate].
  rewrite (IH k eq_refl). exact H.
Qed.

(** X2.  A job inserted into a table that a session can build is found
    again by its id, at the end of the table, and the jobs that were found
    by their ids before are found where they were. *)
Theorem jobs_insert_then_lookup (w : world) (job : job_t) :
  table_reachable w -> no_id_overflow (jobs w) ->
  exists id w',
    jobs_insert (Some job) w = Ret 0 w' /\
    jobs_lookup_by_jobid id (jobs w') = Some (List.length (jobs w)) /\
    nth_error (jobs w') (List.length (jobs w)) = Some (set_jobid job id) /\
    (forall id' i,
       jobs_lookup_by_jobid id' (jobs w) = Some i ->
       jobs_lookup_by_jobid id' (jobs w') = Some i).
Proof.
  intros R N. pose proof (table_reachable_ids_ok w R) as K.
  destruct (jobs_insert_spec w job K N) as (E & _ & K').
  set (id := next_jobid (option_map jobid (last_job (jobs w)))) in *.
  exists id. eexists. split; [exact E|]. cbn [jobs set_jobs].
  split; [|split].
  - apply lookup_app_notin; [|reflexivity].
    intros j Hj Hid.
    rewrite map_app in K'. cbn [map jobid set_jobid] in K'.
    destruct K' as (S & _).
    assert (F : Forall (fun y => y < id) (map jobid (jobs w))).
    { clear -S. induction (map jobid (jobs w)) as [|y l IH]; [constructor|].
      simpl in S. inversion S as [|? ? S' Fy]; subst.
      constructor; [|auto].
      rewrite Forall_forall in Fy. apply Fy. apply in_or_app. right. now left. }
    rewrite Forall_forall in F. specialize (F (jobid j) (in_map jobid _ _ Hj)). lia.
  - rewrite nth_error_app2 by lia. rewrite Nat.sub_diag. reflexivity.
  - intros id' i. apply lookup_app_found.
Qed.

(** X2 at the shell with one job, for a second job. *)
Lemma jobs_insert_then_lookup_witness :
  table_reachable world_one_job /\
  no_id_overflow (jobs world_one_job) /\
  exists id w',
    jobs_insert (Some job_sleep_running) world_one_job = Ret 0 w' /\
    jobs_lookup_by_jobid id (jobs w') = Some (List.length (jobs world_one_job)) /\
    nth_error (jobs w') (List.length (jobs world_one_job)) =
      Some (set_jobid job_sleep_running id) /\
    (forall id' i,
       jobs_lookup_by_jobid id' (jobs world_one_job) = Some i ->
       jobs_lookup_by_jobid id' (jobs w') = Some i).
Proof.
  assert (R : table_reachable world_one_job).
  { apply (reach_insert world0 job_new 0 world_one_job);
      [apply reach_start; reflexivity|intros l E; discriminate E|reflexivity]. }
  assert (N : no_id_overflow (jobs world_one_job)).
  { intros l E. injection E as <-. reflexivity. }
  split; [exact R|]. split; [exact N|].
  exact (jobs_insert_then_lookup world_one_job job_sleep_running R N).
Defined.

Lemma lookup_Some_nth (id : Z) (js : list job_t) (i : nat) :
  jobs_lookup_by_jobid id js = Some i ->
  exists j, nth_error js i = Some j /\ jobid j = id.
Proof.
  revert i. induction js as [|a js IH]; simpl; intros i H; [discriminate|].
  destruct (jobid a =? id) eqn:E.
  - injection H as <-. apply Z.eqb_eq in E. exists a. auto.
  - destruct (jobs_lookup_by_jobid id js) as [k|]; [|discriminate].
    injection H as <-. exact (IH k eq_refl).
Qed.

Lemma lookup_None_notin (id : Z) (js : list job_t) :
  (forall j, In j js -> jobid j <> id) -> jobs_lookup_by_jobid id js = None.
Proof.
  induction js as [|a js IH]; simpl; intro N; [reflexivity|].
  assert (A : jobid a <> id) by (apply N; now left).
  apply Z.eqb_neq in A. rewrite A.
  rewrite IH by (intros j H; apply N; now right). reflexivity.
Qed.

Lemma lookup_In_Some (id : Z) (js : list job_t) (j : job_t) :
  In j js -> jobid j = id -> exists i, jobs_lookup_by_jobid id js = Some i.
Proof.
  induction js as [|a js IH]; simpl; [intros []|]. intros [<-|H] E.
  - rewrite E, Z.eqb_refl. eauto.
  - destruct (jobid a =? id); [eauto|].
    destruct (IH H E) as (i & ->). simpl. eauto.
Qed.

Lemma unlink_In (i : nat) (js : list job_t) (x : job_t) :
  In x (unlink i js) -> In x js.
Proof.
  revert i. induction js as [|a js IH]; intros [|i]; simpl; auto.
  intros [H|H]; [auto|right; eauto].
Qed.

Lemma unlink_keeps (i : nat) (js : list job_t) (j x : job_t) :
  nth_error js i = Some j -> In x js -> jobid x <> jobid j -> In x (unlink i js).
Proof.
  revert i. induction js as [|a js IH]; intros [|i]; simpl; try discriminate.
  - intros H [<-|I] N; [|exact I]. injection H as <-. congruence.
  - intros H [<-|I] N; [now left|right; eauto].
Qed.

Lemma unlink_length (i : nat) (js : list job_t) :
  (i < List.length js)%nat -> S (List.length (unlink i js)) = List.length js.
Proof.
  revert i. induction js as [|a js IH]; intros [|i]; simpl; try lia.
  intro H. rewrite IH by lia. reflexivity.
Qed.

(** In a table whose ids increase, a job is the only one with its id. *)
Lemma ids_increasing_unique (js : list job_t) (a b : job_t) (i k : nat) :
  ids_increasing js ->
  nth_error js i = Some a -> nth_error js k = Some b -> jobid a = jobid b ->
  i = k.
Proof.
  intros H Ha Hb E.
  destruct (Nat.lt_trichotomy i k) as [L|[L|L]]; [|exact L|].
  - specialize (H i k a b L Ha Hb). lia.
  - specialize (H k i b a L Hb Ha). lia.
Qed.

Lemma ids_ok_unlink_jobs (i : nat) (js : list job_t) :
  ids_ok (map jobid js) -> ids_ok (map jobid (unlink i js)).
Proof. intro K. rewrite map_jobid_unlink. now apply ids_ok_unlink. Qed.

Lemma unlink_no_id (i : nat) (js : list job_t) (j x : job_t) :
  ids_ok (map jobid js) -> nth_error js i = Some j -> In x (unlink i js) ->
  jobid x <> jobid j.
Proof.
  revert i. induction js as [|a js IH]; intros [|i] (S & F) H Hx; simpl in *;
    try discriminate.
  - injection H as ->. inversion S as [|? ? _ Fa]; subst.
    rewrite Forall_forall in Fa.
    specialize (Fa (jobid x) (in_map jobid _ _ Hx)). lia.
  - inversion S as [|? ? S' Fa]; subst. inversion F as [|? ? _ F']; subst.
    destruct Hx as [->|Hx].
    + rewrite Forall_forall in Fa.
      assert (I : In j js) by (eapply nth_error_In; eassumption).
      specialize (Fa (jobid j) (in_map jobid _ _ I)). lia.
    + exact (IH i (conj S' F') H Hx).
Qed.

Lemma jobs_remove_in_table (i : nat) (j : job_t) (w : world) :
  nth_error (jobs w) i = Some j ->
  jobs_remove (Some i) w = Ret 0 (set_jobs w (unlink i (jobs w))).
Proof.
  intro H. unfold jobs_remove. run_m.
  assert (L : (i < List.length (jobs w))%nat)
    by (apply nth_error_Some; congruence).
  destruct (jobs w) as [|a js] eqn:J; [destruct i; discriminate|].
  apply Nat.ltb_lt in L. rewrite L. reflexivity.
Qed.

(** X3.  In a table that a session can build, jobs_remove of a job of the
    table returns 0 and leaves a table one job shorter in which the id of
    the job is found no more, while every other job is still found by its
    id. *)
Theorem jobs_remove_then_lookup (w : world) (i : nat) (j : job_t) :
  table_reachable w -> nth_error (jobs w) i = Some j ->
  exists w',
    jobs_remove (Some i) w = Ret 0 w' /\
    S (List.length (jobs w')) = List.length (jobs w) /\
    jobs_lookup_by_jobid (jobid j) (jobs w') = None /\
    (forall x, In x (jobs w) -> jobid x <> jobid j ->
       exists k,
         jobs_lookup_by_jobid (jobid x) (jobs w') = Some k /\
         nth_error (jobs w') k = Some x).
Proof.
  intros R H. pose proof (table_reachable_ids_ok w R) as K.
  pose proof (ids_ok_increasing _ K) as Inc.
  pose proof (ids_ok_increasing _ (ids_ok_unlink_jobs i _ K)) as Inc'.
  eexists. split; [exact (jobs_remove_in_table i j w H)|]. cbn [jobs set_jobs].
  split; [|split].
  - apply unlink_length. apply nth_error_Some. congruence.
  - apply lookup_None_notin. intros x Hx.
    exact (unlink_no_id i _ j x K H Hx).
  - intros x Hx N.
    pose proof (unlink_keeps i _ j x H Hx N) as Hx'.
    destruct (lookup_In_Some (jobid x) _ x Hx' eq_refl) as (k & Ek).
    exists k. split; [exact Ek|].
    destruct (lookup_Some_nth _ _ _ Ek) as (y & Hy & Ey).
    destruct (In_nth_error _ _ Hx') as (k' & Hk').
    pose proof (ids_increasing_unique _ _ _ _ _ Inc' Hy Hk' Ey) as ->.
    congruence.
Qed.

(** X3 at the shell with one job, for that job. *)
Lemma jobs_remove_then_lookup_witness :
  table_reachable world_one_job /\
  nth_error (jobs world_one_job) 0 = Some (set_jobid job_new 1) /\
  exists w',
    jobs_remove (Some O) world_one_job = Ret 0 w' /\
    S (List.length (jobs w')) = List.length (jobs world_one_job) /\
    jobs_lookup_by_jobid (jobid (set_jobid job_new 1)) (jobs w') = None /\
    (forall x, In x (jobs world_one_job) -> jobid x <> jobid (set_jobid job_new 1) ->
       exists k,
         jobs_lookup_by_jobid (jobid x) (jobs w') = Some k /\
         nth_error (jobs w') k = Some x).
Proof.
  assert (R : table_reachable world_one_job).
  { apply (reach_insert world0 job_new 0 world_one_job);
      [apply reach_start; reflexivity|intros l E; discriminate E|reflexivity]. }
  split; [exact R|]. split; [reflexivity|].
  exact (jobs_remove_then_lookup world_one_job 0 (set_jobid job_new 1) R eq_refl).
Defined.

(** ** cancel_all_jobs *)

Lemma store_at_app (a b : list job_t) (x y : job_t) :
  store_at (List.length a) x (a ++ y :: b) = (a ++ x :: b)%list.
Proof. induction a as [|c a IH]; simpl; [reflexivity|now rewrite IH]. Qed.

Lemma canceled_job_not_live (j : job_t) :
  status (canceled_job j) <> RUNNING /\ status (canceled_job j) <> SUSPENDED.
Proof.
  unfold canceled_job, live. destruct (status j) eqn:E; simpl; rewrite ?E;
    split; discriminate.
Qed.

(** The loop of cancel_all_jobs, with the table split at the node it has
    reached. *)
Lemma cancel_all_jobs_from_spec (nodes : list job_t) :
  forall (done : list job_t) (retval : Z) (w : world),
    jobs w = (done ++ nodes)%list ->
    exists r w',
      cancel_all_jobs_from nodes (List.length done) retval w = Ret r w' /\
      jobs w' = (done ++ map canceled_job nodes)%list /\
      last_exit_code w' = last_exit_code w /\
      os w' = os w /\
      stdout_of (trace w') = stdout_of (trace w) /\
      (os_succeeds w ->
         r = retval /\ trace w' = (trace w ++ cancel_calls nodes)%list).
Proof.
  induction nodes as [|j nodes IH]; intros done retval w H.
  - exists retval, w. simpl. rewrite !app_nil_r. rewrite app_nil_r in H.
    repeat split; auto.
  - cbn [cancel_all_jobs_from map cancel_calls flat_map].
    unfold canceled_job at 1. fold (live j).
    destruct (live j) eqn:Lv.
    + (* the job is signalled; whatever comes of it, it is CANCELED *)
      assert (Step : exists retval' w1,
        (forall k : Z -> M Z,
           (r <- sys (Killpg (pgid j) SIGCONT) ;;
            failed <- (if ret_val r <? 0 then ret (Some (err_no r))
                       else
                         r' <- sys (Killpg (pgid j) SIGTERM) ;;
                         if ret_val r' <? 0 then ret (Some (err_no r'))
                         else ret None) ;;
            retval' <- match failed with
                       | Some e =>
                           ERROR "killpg() failed: %s" (Some e) ;;;
                           ret (- e)
                       | None => ret retval
                       end ;;
            store_job (List.length done) (Some (set_status j CANCELED)) ;;;
            k retval') w =
           k retval' (set_jobs w1 (done ++ set_status j CANCELED :: nodes))) /\
        jobs w1 = jobs w /\ last_exit_code w1 = last_exit_code w /\
        os w1 = os w /\ stdout_of (trace w1) = stdout_of (trace w) /\
        (os_succeeds w ->
           retval' = retval /\
           trace w1 = (trace w ++ [Killpg (pgid j) SIGCONT; Killpg (pgid j) SIGTERM])%list)).
      { assert (Fin : forall (rv : Z) (w1 : world) (extra : list call),
                  jobs w1 = jobs w -> last_exit_code w1 = last_exit_code w ->
                  os w1 = os w ->
                  trace w1 = (trace w ++ extra)%list ->
                  stdout_of extra = [] ->
                  (os_succeeds w ->
                     rv = retval /\
                     extra = [Killpg (pgid j) SIGCONT; Killpg (pgid j) SIGTERM]) ->
                  jobs w1 = jobs w /\ last_exit_code w1 = last_exit_code w /\
                  os w1 = os w /\ stdout_of (trace w1) = stdout_of (trace w) /\
                  (os_succeeds w ->
                     rv = retval /\
                     trace w1 =
                       (trace w ++ [Killpg (pgid j) SIGCONT; Killpg (pgid j) SIGTERM])%list)).
        { intros rv w1 extra A B C D F G. repeat (split; [assumption|]). split.
          - rewrite D, stdout_of_app, F. apply app_nil_r.
          - intro Ok. destruct (G Ok) as (-> & ->). auto. }
        run_m.
        destruct (ret_val (os w (trace w) (Killpg (pgid j) SIGCONT)) <? 0) eqn:E1; simpl.
        - do 2 eexists. split.
          + intro k. rewrite H, store_at_app. reflexivity.
          + eapply Fin; try reflexivity.
            * simpl. rewrite <- app_assoc. reflexivity.
            * reflexivity.
            * intro Ok. rewrite os_succeeds_ltb in E1 by assumption. discriminate.
        - match goal with
          | |- context [ret_val ?x <? 0] => destruct (ret_val x <? 0) eqn:E2
          end; simpl.
          + do 2 eexists. split.
            * intro k. rewrite H, store_at_app. reflexivity.
            * eapply Fin; try reflexivity.
              -- simpl. rewrite <- !app_assoc. reflexivity.
              -- reflexivity.
              -- intro Ok. rewrite os_succeeds_ltb in E2 by assumption. discriminate.
          + do 2 eexists. split.
            * intro k. rewrite H, store_at_app. reflexivity.
            * eapply Fin; try reflexivity.
              -- simpl. rewrite <- !app_assoc. reflexivity.
              -- reflexivity.
              -- intro Ok. split; reflexivity. }
      destruct Step as (retval' & w1 & E & J1 & L1 & O1 & S1 & T1).
      rewrite E.
      destruct (IH (done ++ [set_status j CANCELED])%list retval'
                  (set_jobs w1 (done ++ set_status j CANCELED :: nodes)))
        as (r & w' & E' & J' & L' & O' & S' & T').
      { simpl. now rewrite <- app_assoc. }
      rewrite length_app, Nat.add_1_r in E'.
      exists r, w'. split; [exact E'|].
      split; [rewrite J'; now rewrite <- app_assoc|].
      split; [rewrite L'; exact L1|].
      split; [rewrite O'; exact O1|].
      split; [rewrite S'; exact S1|].
      intro Ok. destruct (T1 Ok) as (-> & Tr1).
      assert (Ok' : os_succeeds (set_jobs w1 (done ++ set_status j CANCELED :: nodes))).
      { intros h c. simpl. rewrite O1. apply Ok. }
      destruct (T' Ok') as (-> & Tr'). split; [reflexivity|].
      rewrite Tr'. simpl. rewrite Tr1. now rewrite <- app_assoc.
    + destruct (IH (done ++ [j])%list retval w) as (r & w' & E' & J' & Rest).
      { now rewrite <- app_assoc. }
      rewrite length_app, Nat.add_1_r in E'.
      exists r, w'. split; [exact E'|].
      split; [rewrite J'; now rewrite <- app_assoc|exact Rest].
Qed.

(** X4.  cancel_all_jobs always returns, and leaves the table with every
    job that was RUNNING or SUSPENDED made CANCELED and the other jobs as
    they were, so that no job of it is RUNNING or SUSPENDED; it writes
    nothing to standard output.  When no call fails it returns 0, having
    sent SIGCONT and then SIGTERM to the process group of each of those
    jobs, in table order, and nothing else. *)
Theorem cancel_all_jobs_cancels (w : world) :
  exists r w',
    cancel_all_jobs w = Ret r w' /\
    jobs w' = map canceled_job (jobs w) /\
    Forall (fun j => status j <> RUNNING /\ status j <> SUSPENDED) (jobs w') /\
    last_exit_code w' = last_exit_code w /\
    stdout_of (trace w') = stdout_of (trace w) /\
    (os_succeeds w ->
       r = 0 /\ trace w' = (trace w ++ cancel_calls (jobs w))%list).
Proof.
  destruct (cancel_all_jobs_from_spec (jobs w) [] 0 w eq_refl)
    as (r & w' & E & J & L & _ & S & T).
  exists r, w'. split; [exact E|]. split; [exact J|].
  split; [|auto].
  rewrite J. apply Forall_forall. intros x Hx.
  apply in_map_iff in Hx. destruct Hx as (j & <- & _).
  apply canceled_job_not_live.
Qed.

Lemma bind_sys_ret (c : call) (w : world) :
  sys c w = Ret (os w (trace w) c) (set_trace w (trace w ++ [c])).
Proof. reflexivity. Qed.

(** ** wait_for_all and smash_atexit *)

Lemma bindL_lift {A B : Type} (m : M A) (k : A -> L B) (w w' : world) (a : A) :
  m w = Ret a w' -> bindL (lift m) k w = k a w'.
Proof. intro H. unfold bindL, lift. now rewrite H. Qed.

Lemma bindL_Ret {A B : Type} (m : L A) (k : A -> L B) (w w' : world) (a : A) :
  m w = Ended (Ret a w') -> bindL m k w = k a w'.
Proof. intro H. unfold bindL. now rewrite H. Qed.

(** The wait on one job. *)
Lemma repeat_snoc_app (h : list call) (c : call) (k : nat) :
  ((h ++ [c]) ++ repeat c k)%list = (h ++ repeat c (S k))%list.
Proof. rewrite <- app_assoc. reflexivity. Qed.

Lemma waitpid_retry_spec (tries : nat) (pgrp : Z) :
  forall w : world,
    match waitpid_retry tries pgrp w with
    | Ended (Ret st w') =>
        same_globals w w' /\
        exists n,
          retried (os w) (trace w) (Waitpid pgrp 0) n /\
          trace w' = (trace w ++ repeat (Waitpid pgrp 0) (S n))%list /\
          st = out_status (os w (trace w ++ repeat (Waitpid pgrp 0) n)%list
                             (Waitpid pgrp 0))
    | Ended _ => False
    | Quit code _ => code = -1
    | Unfinished _ => True
    end /\
    (os_succeeds w -> (0 < tries)%nat ->
       waitpid_retry tries pgrp w =
         Ended (Ret (out_status (os w (trace w) (Waitpid pgrp 0)))
                  (set_trace w (trace w ++ [Waitpid pgrp 0])))).
Proof.
  induction tries as [|tries IH]; intro w.
  - simpl. split; [exact I|lia].
  - cbn [waitpid_retry].
    rewrite (bindL_lift _ _ w _ _ (bind_sys_ret (Waitpid pgrp 0) w)).
    pose proof (same_globals_sys w (Waitpid pgrp 0)) as F.
    assert (F' : same_globals w (set_trace w (trace w ++ [Waitpid pgrp 0])))
      by (apply F; discriminate).
    destruct (ret_val (os w (trace w) (Waitpid pgrp 0)) <? 0) eqn:E.
    + split.
      * destruct (err_no _ =? EINTR) eqn:Ei; [|reflexivity].
        destruct (IH (set_trace w (trace w ++ [Waitpid pgrp 0]))) as (P & _).
        destruct (waitpid_retry tries pgrp _) as [[st w'| | |]| |]; auto.
        destruct P as (G & n & (Rf & Rs) & Tr & St).
        cbn [os trace set_trace] in Rf, Rs, Tr, St.
        split; [eapply same_globals_trans; eassumption|].
        exists (S n). split; [split|split].
        -- intros [|k] Hk.
           ++ simpl. rewrite app_nil_r. apply Z.ltb_lt in E. apply Z.eqb_eq in Ei.
              auto.
           ++ rewrite <- repeat_snoc_app. apply Rf. lia.
        -- rewrite <- repeat_snoc_app. exact Rs.
        -- rewrite Tr. apply repeat_snoc_app.
        -- rewrite St. now rewrite repeat_snoc_app.
      * intros Ok _. rewrite os_succeeds_ltb in E by assumption. discriminate.
    + split.
      * split; [exact F'|]. exists O. unfold retried. simpl. rewrite app_nil_r.
        split; [split; [intros k Hk; lia|now apply Z.ltb_ge]|].
        split; reflexivity.
      * intros _ _. reflexivity.
Qed.

Lemma bindL_quit {A B : Type} (m : L A) (k : A -> L B) (w w' : world) (code : Z) :
  m w = Quit code w' -> bindL m k w = Quit code w'.
Proof. intro H. unfold bindL. now rewrite H. Qed.

Lemma bindL_unfinished {A B : Type} (m : L A) (k : A -> L B) (w w' : world) :
  m w = Unfinished w' -> bindL m k w = Unfinished w'.
Proof. intro H. unfold bindL. now rewrite H. Qed.

Lemma store_after_wait (done nodes : list job_t) (j : job_t) (st : Z) (w : world) :
  jobs w = (done ++ j :: nodes)%list ->
  exists w',
    (if WIFEXITED st then
       store_job (List.length done)
         (Some (set_exitcode (set_status j EXITED) (WEXITSTATUS st)))
     else if WIFSIGNALED st then
       store_job (List.length done)
         (Some (set_exitcode (set_status j ABORTED) (WTERMSIG st)))
     else ret tt) w = Ret tt w' /\
    jobs w' = (done ++ after_wait j st :: nodes)%list /\
    trace w' = trace w /\ os w' = os w /\ last_exit_code w' = last_exit_code w.
Proof.
  intro H. unfold after_wait.
  destruct (WIFEXITED st); [|destruct (WIFSIGNALED st)]; run_m.
  1,2: eexists; split; [reflexivity|]; simpl; rewrite H, store_at_app; auto.
  exists w. auto.
Qed.

(** The loop of wait_for_all, with the table split at the node it has
    reached. *)
Lemma wait_for_all_from_spec (tries : nat) (nodes : list job_t) :
  forall (done : list job_t) (w : world),
    jobs w = (done ++ nodes)%list ->
    match wait_for_all_from tries nodes (List.length done) w with
    | Ended (Ret r w') =>
        r = 0 /\
        (exists nodes',
           jobs w' = (done ++ nodes')%list /\ Forall2 wait_step nodes nodes' /\
           reaped (os w) (trace w) nodes nodes' (trace w')) /\
        last_exit_code w' = last_exit_code w /\
        stdout_of (trace w') = stdout_of (trace w)
    | Ended _ => False
    | Quit code _ => code = -1
    | Unfinished _ => True
    end /\
    (os_succeeds w -> (0 < tries)%nat ->
       exists w',
         wait_for_all_from tries nodes (List.length done) w = Ended (Ret 0 w') /\
         trace w' = (trace w ++ wait_calls nodes)%list).
Proof.
  induction nodes as [|j nodes IH]; intros done w H.
  - simpl. unfold lift, ret. split.
    + split; [reflexivity|]. split; [|auto].
      exists []. split; [exact H|]. split; constructor.
    + intros _ _. exists w. split; [reflexivity|]. now rewrite app_nil_r.
  - cbn [wait_for_all_from]. unfold wait_calls. cbn [filter]. fold (awaited j).
    destruct (awaited j) eqn:A.
    + destruct (waitpid_retry_spec tries (pgid j) w) as (P & Q).
      destruct (waitpid_retry tries (pgid j) w) as [[st w1| | |]| |] eqn:W;
        try (exfalso; exact P).
      * (* the job has been waited for *)
        rewrite (bindL_Ret _ _ _ _ _ W).
        destruct P as ((J1 & L1 & S1 & O1) & n & Rt & Tr1 & St).
        destruct (store_after_wait done nodes j st w1) as (w2 & E2 & J2 & T2 & O2 & L2).
        { rewrite J1. exact H. }
        rewrite (bindL_lift _ _ _ _ _ E2).
        destruct (IH (done ++ [after_wait j st])%list w2) as (P' & Q').
        { rewrite J2. now rewrite <- app_assoc. }
        rewrite length_app, Nat.add_1_r in P', Q'.
        split.
        -- destruct (wait_for_all_from tries nodes (S (List.length done)) w2)
             as [[r w3| | |]| |]; auto.
           destruct P' as (-> & (nodes' & J3 & F3 & R3) & L3 & S3).
           split; [reflexivity|]. split.
           ++ exists (after_wait j st :: nodes'). split; [|split].
              ** rewrite J3. now rewrite <- app_assoc.
              ** constructor; [|exact F3]. unfold wait_step. rewrite A. eauto.
              ** rewrite St. apply reaped_wait; [exact A|exact Rt|].
                 rewrite O2, O1, T2, Tr1 in R3. exact R3.
           ++ split; [congruence|]. rewrite S3, T2. exact S1.
        -- intros Ok Pos. specialize (Q Ok Pos).
           injection Q as -> ->.
           assert (Ok2 : os_succeeds w2).
           { intros h c. rewrite O2. simpl. apply Ok. }
           destruct (Q' Ok2 Pos) as (w3 & E3 & T3).
           exists w3. split; [exact E3|].
           rewrite T3, T2. simpl. now rewrite <- app_assoc.
      * rewrite (bindL_quit _ _ _ _ _ W). split; [exact P|].
        intros Ok Pos. specialize (Q Ok Pos). congruence.
      * rewrite (bindL_unfinished _ _ _ _ W). split; [exact I|].
        intros Ok Pos. specialize (Q Ok Pos). congruence.
    + destruct (IH (done ++ [j])%list w) as (P' & Q').
      { now rewrite <- app_assoc. }
      rewrite length_app, Nat.add_1_r in P', Q'.
      split.
      * destruct (wait_for_all_from tries nodes (S (List.length done)) w)
          as [[r w3| | |]| |]; auto.
        destruct P' as (-> & (nodes' & J3 & F3 & R3) & L3 & S3).
        split; [reflexivity|]. split; [|auto].
        exists (j :: nodes'). split; [|split].
        -- rewrite J3. now rewrite <- app_assoc.
        -- constructor; [|exact F3]. unfold wait_step. now rewrite A.
        -- apply reaped_skip; assumption.
      * exact Q'.
Qed.



(** A job waited for at the second call, the first having failed with
    EINTR: it is EXITED with the status 3 that the second call stored. *)
Example wait_for_all_after_eintr :
  match wait_for_all 2 world_eintr with
  | Ended (Ret r w') =>
      r = 0 /\
      jobs w' = [set_exitcode (set_status job_sleep_running EXITED) 3] /\
      trace w' = [Waitpid 4243 0; Waitpid 4243 0]
  | _ => False
  end.
Proof. vm_compute. repeat split. Qed.

Lemma wait_calls_canceled (js : list job_t) :
  wait_calls (map canceled_job js) = wait_calls js.
Proof.
  unfold wait_calls. induction js as [|j js IH]; [reflexivity|].
  cbn [map filter].
  assert (A : awaited (canceled_job j) = awaited j).
  { unfold awaited, canceled_job, live. destruct (status j) eqn:E; simpl;
      rewrite ?E; reflexivity. }
  assert (G : pgid (canceled_job j) = pgid j).
  { unfold canceled_job. destruct (live j); reflexivity. }
  rewrite A. destruct (awaited j); [|exact IH].
  cbn [map]. now rewrite G, IH.
Qed.

(** X6.  smash_atexit, the handler that exit runs, ends by returning with
    the job table empty, or by _exit(-1), unless waitpid keeps failing with
    EINTR; it writes nothing to standard output and leaves last_exit_code
    alone.  When no call fails it returns after sending SIGCONT and SIGTERM
    to every job that was RUNNING or SUSPENDED, and then waiting for each of
    those and for each job that was CANCELED. *)
Theorem smash_atexit_reaps (tries : nat) (w : world) :
  match smash_atexit tries w with
  | Ended (Ret _ w') =>
      jobs w' = [] /\ last_exit_code w' = last_exit_code w /\
      stdout_of (trace w') = stdout_of (trace w)
  | Ended _ => False
  | Quit code _ => code = -1
  | Unfinished _ => True
  end /\
  (os_succeeds w -> (0 < tries)%nat ->
     exists w',
       smash_atexit tries w = Ended (Ret tt w') /\
       jobs w' = [] /\
       trace w' = (trace w ++ cancel_calls (jobs w) ++ wait_calls (jobs w))%list).
Proof.
  unfold smash_atexit.
  destruct (cancel_all_jobs_from_spec (jobs w) [] 0 w eq_refl)
    as (r & w1 & E1 & J1 & L1 & O1 & S1 & T1).
  assert (E1' : cancel_all_jobs w = Ret r w1) by exact E1.
  rewrite (bindL_lift _ _ _ _ _ E1').
  unfold wait_for_all.
  change (bindL (bindL (lift get) (fun w0 => wait_for_all_from tries (jobs w0) 0))
            (fun _ => lift free_jobs) w1)
    with (bindL (wait_for_all_from tries (jobs w1) (List.length (@nil job_t)))
            (fun _ => lift free_jobs) w1).
  destruct (wait_for_all_from_spec tries (jobs w1) [] w1 eq_refl) as (P & Q).
  split.
  - unfold bindL at 1.
    destruct (wait_for_all_from tries (jobs w1) (List.length (@nil job_t)) w1)
      as [[r2 w2| | |]| |]; auto.
    destruct P as (_ & _ & L2 & S2). simpl.
    split; [reflexivity|]. split; congruence.
  - intros Ok Pos. destruct (T1 Ok) as (_ & Tr1).
    assert (Ok1 : os_succeeds w1) by (intros h c; rewrite O1; apply Ok).
    destruct (Q Ok1 Pos) as (w2 & E2 & Tr2).
    rewrite (bindL_Ret _ _ _ _ _ E2).
    eexists. split; [reflexivity|]. split; [reflexivity|].
    simpl. rewrite Tr2, Tr1, J1. simpl.
    rewrite wait_calls_canceled. now rewrite <- app_assoc.
Qed.

(** ** smash_wait_all *)

Lemma same_job_refl (j : job_t) : same_job j j.
Proof. destruct j; reflexivity. Qed.

Lemma same_job_trans (a b c : job_t) : same_job a b -> same_job b c -> same_job a c.
Proof.
  unfold same_job. intros H1 H2. rewrite H2. rewrite H1 at 1.
  destruct a; reflexivity.
Qed.

Lemma Forall2_same_job_refl (js : list job_t) : Forall2 same_job js js.
Proof. induction js; constructor; auto using same_job_refl. Qed.

Lemma Forall2_same_job_trans (a b c : list job_t) :
  Forall2 same_job a b -> Forall2 same_job b c -> Forall2 same_job a c.
Proof.
  intro H. revert c. induction H; intros c0 H2; inversion H2; subst; constructor.
  - eapply same_job_trans; eassumption.
  - auto.
Qed.

Lemma store_at_same_job (i : nat) (js : list job_t) (j j' : job_t) :
  nth_error js i = Some j -> same_job j j' ->
  Forall2 same_job js (store_at i j' js).
Proof.
  revert i. induction js as [|x js IH]; intros [|i] H S; try discriminate.
  - simpl in H. injection H as ->. constructor; [exact S|apply Forall2_same_job_refl].
  - simpl. constructor; [apply same_job_refl|]. apply IH; assumption.
Qed.

Lemma job_update_status_same_job (j : job_t) (st : Z) (w : world) :
  exists j' w',
    job_update_status (Some j) st w = Ret (0, Some j') w' /\
    same_globals w w' /\ same_job j j'.
Proof.
  unfold job_update_status.
  destruct (WIFSTOPPED st).
  { do 2 eexists. split; [reflexivity|]. split; [apply same_globals_refl|].
    destruct j; reflexivity. }
  destruct (WIFCONTINUED st).
  { do 2 eexists. split; [reflexivity|]. split; [apply same_globals_refl|].
    destruct j; reflexivity. }
  unfold same_globals.
  destruct (WIFSIGNALED st); [|destruct (WIFEXITED st)]; run_m.
  1,2: destruct (enable_debug w); [destruct (ret_val _ <? 0)|];
      do 2 eexists; (split; [reflexivity|]); (split; [|destruct j; reflexivity]);
      simpl; repeat split;
      try (rewrite stdout_of_snoc_other by discriminate);
      try apply stdout_of_snoc_err.
  do 2 eexists; split; [reflexivity|]. split; [repeat split|apply same_job_refl].
Qed.

Lemma find_pgid_Some (pid : Z) (js : list job_t) (i : nat) :
  find_pgid pid js = Some i ->
  exists j, nth_error js i = Some j /\ pgid j = pid.
Proof.
  revert i. induction js as [|x js IH]; intros i H; [discriminate|].
  simpl in H. destruct (pgid x =? pid) eqn:E.
  - injection H as <-. exists x. split; [reflexivity|lia].
  - destruct (find_pgid pid js) as [k|]; [|discriminate].
    injection H as <-. apply (IH k eq_refl).
Qed.

Lemma find_pgid_None (pid : Z) (js : list job_t) :
  find_pgid pid js = None -> Forall (fun j => pgid j <> pid) js.
Proof.
  induction js as [|x js IH]; intro H; [constructor|].
  simpl in H. destruct (pgid x =? pid) eqn:E; [discriminate|].
  destruct (find_pgid pid js); [discriminate|].
  constructor; [lia|auto].
Qed.

Lemma smash_wait_all_spec (turns : nat) :
  forall w : world,
    match smash_wait_all turns w with
    | Ended (Ret r w') =>
        Forall2 same_job (jobs w) (jobs w') /\
        last_exit_code w' = last_exit_code w /\
        stdout_of (trace w') = stdout_of (trace w) /\
        os w' = os w /\
        exists h,
          (r = 0 /\ ret_val (os w h wait_any) <= 0) \/
          (r = -1 /\ 0 < ret_val (os w h wait_any) /\
           Forall (fun j => pgid j <> ret_val (os w h wait_any)) (jobs w'))
    | Ended _ => False
    | Quit _ _ => False
    | Unfinished _ => True
    end.
Proof.
  induction turns as [|turns IH]; intro w; [exact I|].
  cbn [smash_wait_all]. fold wait_any.
  unfold bindL at 1. unfold lift at 1. unfold sys.
  set (rep := os w (trace w) wait_any).
  set (w1 := set_trace w (trace w ++ [wait_any])).
  assert (F1 : same_globals w w1).
  { unfold same_globals, w1; simpl; repeat split.
    apply stdout_of_snoc_other; discriminate. }
  destruct (0 <? ret_val rep) eqn:P.
  2:{ simpl. split; [apply Forall2_same_job_refl|].
      destruct F1 as (_ & L & S & O). repeat split; auto.
      exists (trace w). left. fold rep. split; [reflexivity|lia]. }
  unfold bindL at 1. unfold lift at 1. unfold get.
  destruct (find_pgid (ret_val rep) (jobs w1)) as [i|] eqn:Fd.
  2:{ simpl. split; [apply Forall2_same_job_refl|].
      destruct F1 as (_ & L & S & O). repeat split; auto.
      exists (trace w). right. fold rep. split; [reflexivity|].
      split; [lia|]. apply find_pgid_None. exact Fd. }
  destruct (find_pgid_Some _ _ _ Fd) as (j & N & _).
  rewrite N.
  destruct (job_update_status_same_job j (out_status rep) w1) as (j' & w2 & E & F2 & SJ).
  rewrite (bindL_lift _ _ _ _ _ E). cbn [snd].
  unfold bindL at 1. unfold lift at 1. unfold store_job. run_m.
  set (w3 := set_jobs w2 _).
  specialize (IH w3).
  destruct (smash_wait_all turns w3) as [[r w'| | |]| |]; auto.
  destruct IH as (J & L & S & O & h & H).
  destruct F1 as (J1 & L1 & S1 & O1). destruct F2 as (J2 & L2 & S2 & O2).
  split.
  { eapply Forall2_same_job_trans; [|exact J].
    unfold w3. cbn [jobs set_jobs]. rewrite J2.
    change (jobs w1) with (jobs w) in *.
    apply (store_at_same_job i (jobs w) j j' N SJ). }
  assert (O3 : os w3 = os w) by (unfold w3; simpl; congruence).
  split; [unfold w3 in L; simpl in L; congruence|].
  split; [unfold w3 in S; simpl in S; congruence|].
  split; [congruence|].
  exists h. rewrite <- O3. exact H.
Qed.

Lemma set_trace_same (w : world) : set_trace w (trace w) = w.
Proof. destruct w; reflexivity. Qed.

Lemma job_update_status_exact (j : job_t) (st : Z) (w : world) :
  exists t,
    job_update_status (Some j) st w =
      Ret (0, Some (updated j st)) (set_trace w (trace w ++ t)) /\
    control_calls t = [] /\
    (enable_debug w = false -> t = []).
Proof.
  unfold job_update_status, updated.
  destruct (WIFSTOPPED st).
  { exists []. rewrite app_nil_r, set_trace_same. auto. }
  destruct (WIFCONTINUED st).
  { exists []. rewrite app_nil_r, set_trace_same. auto. }
  destruct (WIFSIGNALED st); [|destruct (WIFEXITED st)]; run_m.
  1,2: destruct (enable_debug w); [destruct (ret_val _ <? 0)|]; run_m;
    first [ exists []; rewrite app_nil_r, set_trace_same;
            split; [reflexivity|]; split; [reflexivity|]; reflexivity
          | eexists; rewrite <- ?app_assoc; split; [reflexivity|];
            split; [reflexivity|]; discriminate ].
  exists []. rewrite app_nil_r, set_trace_same. auto.
Qed.


Lemma smash_wait_all_polling (turns : nat) :
  forall w : world,
    match smash_wait_all turns w with
    | Ended (Ret r w') =>
        polling (os w) (trace w) (jobs w) r (jobs w') (trace w')
    | Ended _ => False
    | Quit _ _ => False
    | Unfinished _ => reporting (os w) (trace w) (jobs w) turns
    end.
Proof.
  induction turns as [|turns IH]; intro w; [apply reporting_O|].
  cbn [smash_wait_all]. fold wait_any.
  unfold bindL at 1. unfold lift at 1. unfold sys.
  set (rep := os w (trace w) wait_any).
  set (w1 := set_trace w (trace w ++ [wait_any])).
  destruct (0 <? ret_val rep) eqn:P.
  2:{ simpl. apply polling_none. fold rep. lia. }
  unfold bindL at 1. unfold lift at 1. unfold get.
  destruct (find_pgid (ret_val rep) (jobs w1)) as [i|] eqn:Fd.
  2:{ simpl. apply polling_unknown; fold rep; [lia|exact Fd]. }
  destruct (find_pgid_Some _ _ _ Fd) as (j & N & _).
  rewrite N.
  destruct (job_update_status_exact j (out_status rep) w1) as (t & E & C & _).
  rewrite (bindL_lift _ _ _ _ _ E). cbn [snd].
  unfold bindL at 1. unfold lift at 1. unfold store_job. run_m.
  set (w3 := set_jobs _ _).
  specialize (IH w3).
  assert (T3 : trace w3 = (trace w ++ wait_any :: t)%list).
  { unfold w3, w1. cbn [trace set_trace set_jobs]. now rewrite <- app_assoc. }
  assert (J3 : jobs w3 = store_at i (updated j (out_status rep)) (jobs w))
    by reflexivity.
  assert (O3 : os w3 = os w) by reflexivity.
  rewrite T3, J3, O3 in IH. clearbody w3.
  destruct (smash_wait_all turns w3) as [[r w'| | |]| |]; auto.
  - eapply polling_update; try eassumption. fold rep. lia.
  - eapply reporting_S; try eassumption. fold rep. lia.
Qed.

Lemma smash_wait_all_polled (n : nat) :
  forall (turns : nat) (w : world) (js' : list job_t),
    ((0 < n)%nat -> enable_debug w = false) ->
    polled (os w) (trace w) n (jobs w) = Some js' ->
    (n < turns)%nat ->
    (ret_val (os w (trace w ++ repeat wait_any n)%list wait_any) <= 0 ->
     smash_wait_all turns w =
       Ended (Ret 0 (set_jobs (set_trace w (trace w ++ repeat wait_any (S n))) js'))) /\
    (0 < ret_val (os w (trace w ++ repeat wait_any n)%list wait_any) ->
     find_pgid (ret_val (os w (trace w ++ repeat wait_any n)%list wait_any)) js' = None ->
     smash_wait_all turns w =
       Ended (Ret (-1) (set_jobs (set_trace w (trace w ++ repeat wait_any (S n))) js'))).
Proof.
  induction n as [|n IH]; intros [|turns] w js' D H Lt; try lia.
  - cbn [polled] in H. injection H as <-.
    cbn [repeat]. rewrite app_nil_r.
    cbn [smash_wait_all]. fold wait_any.
    assert (Sj : set_jobs (set_trace w (trace w ++ [wait_any])) (jobs w) =
                 set_trace w (trace w ++ [wait_any])) by (destruct w; reflexivity).
    rewrite Sj.
    split; unfold bindL at 1; unfold lift at 1; unfold sys.
    + intro Le. destruct (Z.ltb_spec 0 (ret_val (os w (trace w) wait_any))); [lia|].
      reflexivity.
    + intros Pos Fd.
      destruct (Z.ltb_spec 0 (ret_val (os w (trace w) wait_any))); [|lia].
      unfold bindL at 1. unfold lift at 1. unfold get. cbv beta iota.
      change (jobs (set_trace w (trace w ++ [wait_any]))) with (jobs w).
      rewrite Fd. reflexivity.
  - cbn [polled] in H.
    set (rep := os w (trace w) wait_any) in *.
    destruct (0 <? ret_val rep) eqn:P; [|discriminate].
    destruct (find_pgid (ret_val rep) (jobs w)) as [i|] eqn:Fd; [|discriminate].
    destruct (nth_error (jobs w) i) as [j|] eqn:N; [|discriminate].
    set (w3 := set_jobs (set_trace w (trace w ++ [wait_any]))
                 (store_at i (updated j (out_status rep)) (jobs w))).
    assert (Eq : smash_wait_all (S turns) w = smash_wait_all turns w3).
    { cbn [smash_wait_all]. fold wait_any.
      unfold bindL at 1. unfold lift at 1. unfold sys.
      fold rep. rewrite P.
      set (w1 := set_trace w (trace w ++ [wait_any])).
      unfold bindL at 1. unfold lift at 1. unfold get.
      change (jobs w1) with (jobs w). rewrite Fd, N.
      destruct (job_update_status_exact j (out_status rep) w1) as (t & E & _ & Q).
      rewrite (Q (D ltac:(lia))) in E. rewrite app_nil_r, set_trace_same in E.
      rewrite (bindL_lift _ _ _ _ _ E). cbn [snd].
      unfold bindL at 1. unfold lift at 1. unfold store_job. run_m.
      reflexivity. }
    rewrite Eq.
    assert (T3 : trace w3 = (trace w ++ [wait_any])%list) by reflexivity.
    assert (J3 : jobs w3 = store_at i (updated j (out_status rep)) (jobs w))
      by reflexivity.
    assert (O3 : os w3 = os w) by reflexivity.
    assert (D3 : (0 < n)%nat -> enable_debug w3 = false).
    { intros _. change (enable_debug w3) with (enable_debug w). apply D. lia. }
    assert (H3 : polled (os w3) (trace w3) n (jobs w3) = Some js').
    { rewrite O3, T3, J3. exact H. }
    destruct (IH turns w3 js' D3 H3 ltac:(lia)) as (A & B).
    rewrite O3, T3 in A, B. rewrite !repeat_snoc_app in A, B.
    assert (W : set_jobs (set_trace w3 (trace w ++ repeat wait_any (S (S n)))) js' =
                set_jobs (set_trace w (trace w ++ repeat wait_any (S (S n)))) js')
      by reflexivity.
    rewrite W in A, B. clearbody w3. split; assumption.
Qed.

(** X7.  smash_wait_all, which the main loop calls before and after it
    reads a line, asks waitpid for any child without blocking, again and
    again.  When waitpid reports no child it returns 0.  When waitpid
    reports a process that is the process group of no job of the table it
    returns -1.  Else it updates the first job of that group from the
    status that this waitpid stored (SUSPENDED, RUNNING, ABORTED with the
    signal number, EXITED with the exit status), which writes at most
    messages, and asks again.  So it always returns, with 0 or -1, unless
    waitpid keeps reporting children of the table, and it never ends the
    shell.  It changes nothing of the jobs but their status and exit code,
    adds and removes none, writes nothing to standard output and leaves
    last_exit_code alone.  With debugging off it asks nothing but these
    waitpid calls. *)
Theorem smash_wait_all_reaps (turns : nat) (w : world) :
  match smash_wait_all turns w with
  | Ended (Ret r w') =>
      polling (os w) (trace w) (jobs w) r (jobs w') (trace w') /\
      Forall2 same_job (jobs w) (jobs w') /\
      last_exit_code w' = last_exit_code w /\
      stdout_of (trace w') = stdout_of (trace w)
  | Ended _ => False
  | Quit _ _ => False
  | Unfinished _ => reporting (os w) (trace w) (jobs w) turns
  end /\
  (forall (n : nat) (js' : list job_t),
     ((0 < n)%nat -> enable_debug w = false) ->
     polled (os w) (trace w) n (jobs w) = Some js' ->
     (n < turns)%nat ->
     (ret_val (os w (trace w ++ repeat wait_any n)%list wait_any) <= 0 ->
      smash_wait_all turns w =
        Ended (Ret 0 (set_jobs (set_trace w (trace w ++ repeat wait_any (S n))) js'))) /\
     (0 < ret_val (os w (trace w ++ repeat wait_any n)%list wait_any) ->
      find_pgid (ret_val (os w (trace w ++ repeat wait_any n)%list wait_any)) js' = None ->
      smash_wait_all turns w =
        Ended (Ret (-1) (set_jobs (set_trace w (trace w ++ repeat wait_any (S n))) js')))).
Proof.
  split.
  - pose proof (smash_wait_all_spec turns w) as H.
    pose proof (smash_wait_all_polling turns w) as G.
    destruct (smash_wait_all turns w) as [[r w'| | |]| |]; auto.
    destruct H as (J & L & S & _ & _). auto.
  - intros n js'. apply smash_wait_all_polled.
Qed.

(** X7 at a shell whose one job is running and is reported as stopped by
    the first waitpid, after which no child is reported. *)
Lemma smash_wait_all_reaps_witness :
  polled (os world_stop_once) (trace world_stop_once) 1 (jobs world_stop_once) =
    Some [set_status job_sleep_running SUSPENDED] /\
  ret_val (os world_stop_once (trace world_stop_once ++ repeat wait_any 1)%list
             wait_any) <= 0 /\
  smash_wait_all 2 world_stop_once =
    Ended (Ret 0 (set_jobs
                    (set_trace world_stop_once
                       (trace world_stop_once ++ repeat wait_any 2))
                    [set_status job_sleep_running SUSPENDED])).
Proof.
  split; [reflexivity|].
  assert (Le : ret_val (os world_stop_once
                          (trace world_stop_once ++ repeat wait_any 1)%list
                          wait_any) <= 0).
  { apply Z.le_refl. }
  split; [exact Le|].
  exact (proj1 (proj2 (smash_wait_all_reaps 2 world_stop_once) 1%nat
                  [set_status job_sleep_running SUSPENDED]
                  (fun _ => eq_refl) eq_refl (Nat.lt_succ_diag_r 1)) Le).
Defined.

(** A running job that waitpid reports as stopped, and then no child: the
    job is SUSPENDED, and smash_wait_all has returned 0 after two calls. *)
Example smash_wait_all_stopped_job :
  smash_wait_all 2 world_stop_once =
    Ended (Ret 0 (set_jobs (set_trace world_stop_once [wait_any; wait_any])
                    [set_status job_sleep_running SUSPENDED])) /\
  polled os_stop_once [] 1 [job_sleep_running] =
    Some [set_status job_sleep_running SUSPENDED].
Proof. split; reflexivity. Qed.

(** No child at the first call: it returns 0 at once, whatever the table
    and whether debugging is on or off. *)
Example smash_wait_all_no_child :
  smash_wait_all 1 world0 = Ended (Ret 0 (set_trace world0 [wait_any])).
Proof. reflexivity. Qed.

(** ** The exit codes of the table *)

Lemma land_127_range (st : Z) : 0 <= Z.land st 127 <= 127.
Proof.
  change 127 with (Z.ones 7) at 1 2. rewrite Z.land_ones by lia.
  change (2 ^ 7) with 128. pose proof (Z.mod_pos_bound st 128). lia.
Qed.

Lemma WEXITSTATUS_range (st : Z) : 0 <= WEXITSTATUS st <= 255.
Proof.
  unfold WEXITSTATUS. rewrite Z.shiftr_land.
  change (Z.shiftr 65280 8) with (Z.ones 8). rewrite Z.land_ones by lia.
  change (2 ^ 8) with 256. pose proof (Z.mod_pos_bound (Z.shiftr st 8) 256). lia.
Qed.

Lemma WTERMSIG_range (st : Z) : WIFSIGNALED st = true -> 1 <= WTERMSIG st <= 126.
Proof.
  unfold WIFSIGNALED, WTERMSIG, signed_char. intro H.
  pose proof (land_127_range st) as B.
  apply Z.ltb_lt in H. rewrite Z.shiftr_div_pow2 in H by lia.
  change (2 ^ 1) with 2 in H.
  destruct (128 <=? Z.land st 127 + 1) eqn:E.
  - apply Z.leb_le in E.
    assert (Z.land st 127 = 127) as R by lia. rewrite R in H.
    vm_compute in H. discriminate.
  - assert (Z.land st 127 <> 0).
    { intro R. rewrite R in H. vm_compute in H. discriminate. }
    lia.
Qed.

Lemma job_update_status_exitcode_ok (j : job_t) (st : Z) (w : world) :
  exitcode_ok j ->
  exists j' w',
    job_update_status (Some j) st w = Ret (0, Some j') w' /\ exitcode_ok j'.
Proof.
  intro Ok. unfold job_update_status.
  destruct (WIFSTOPPED st); [do 2 eexists; split; [reflexivity|exact I]|].
  destruct (WIFCONTINUED st); [do 2 eexists; split; [reflexivity|exact I]|].
  destruct (WIFSIGNALED st) eqn:Sg; [|destruct (WIFEXITED st)]; run_m.
  - destruct (enable_debug w); [destruct (ret_val _ <? 0)|];
      do 2 eexists; (split; [reflexivity|]);
      apply (WTERMSIG_range st Sg).
  - destruct (enable_debug w); [destruct (ret_val _ <? 0)|];
      do 2 eexists; (split; [reflexivity|]);
      apply (WEXITSTATUS_range st).
  - do 2 eexists; split; [reflexivity|exact Ok].
Qed.

Lemma after_wait_exitcode_ok (j : job_t) (st : Z) :
  exitcode_ok j -> exitcode_ok (after_wait j st).
Proof.
  intro Ok. unfold after_wait.
  destruct (WIFEXITED st); [apply (WEXITSTATUS_range st)|].
  destruct (WIFSIGNALED st) eqn:Sg; [apply (WTERMSIG_range st Sg)|exact Ok].
Qed.

Lemma store_at_Forall (P : job_t -> Prop) (i : nat) (j : job_t) (js : list job_t) :
  Forall P js -> P j -> Forall P (store_at i j js).
Proof.
  intros F Pj. revert i. induction F as [|x js Px F IH]; intros [|i]; simpl;
    constructor; auto.
Qed.

Lemma smash_wait_all_keeps (P : job_t -> Prop) :
  (forall j st w,
     P j ->
     exists j' w',
       job_update_status (Some j) st w = Ret (0, Some j') w' /\ P j') ->
  forall (turns : nat) (w : world),
    Forall P (jobs w) ->
    match smash_wait_all turns w with
    | Ended (Ret _ w') => Forall P (jobs w')
    | _ => True
    end.
Proof.
  intros Step turns.
  induction turns as [|turns IH]; intros w Ok; [exact I|].
  cbn [smash_wait_all]. fold wait_any.
  unfold bindL at 1. unfold lift at 1. unfold sys.
  set (rep := os w (trace w) wait_any).
  set (w1 := set_trace w (trace w ++ [wait_any])).
  destruct (0 <? ret_val rep); [|exact Ok].
  unfold bindL at 1. unfold lift at 1. unfold get.
  destruct (find_pgid (ret_val rep) (jobs w1)) as [i|] eqn:Fd; [|exact Ok].
  destruct (find_pgid_Some _ _ _ Fd) as (j & N & _).
  rewrite N.
  assert (Okj : P j).
  { apply nth_error_In in N. revert N. apply Forall_forall. exact Ok. }
  destruct (job_update_status_same_job j (out_status rep) w1)
    as (j' & w2 & E & (J2 & _) & _).
  destruct (Step j (out_status rep) w1 Okj) as (j2 & w2' & E' & Okj').
  rewrite E in E'. injection E' as <- <-.
  rewrite (bindL_lift _ _ _ _ _ E). cbn [snd].
  unfold bindL at 1. unfold lift at 1. unfold store_job. run_m.
  apply IH. cbn [jobs set_jobs]. rewrite J2.
  apply store_at_Forall; assumption.
Qed.

Lemma wait_step_exitcodes (js js' : list job_t) :
  Forall2 wait_step js js' -> Forall exitcode_ok js -> Forall exitcode_ok js'.
Proof.
  induction 1 as [|j j' js js' S F IH]; intro Ok; [constructor|].
  inversion Ok; subst. constructor; [|auto].
  unfold wait_step in S. destruct (awaited j).
  - destruct S as (st & ->). now apply after_wait_exitcode_ok.
  - now subst.
Qed.

(** X8.  In a table in which the exit code of every EXITED job is an exit
    status (0 to 255) and the exit code of every ABORTED job is the number
    of a signal that kills (1 to 126), this is still so after smash_wait_all
    and after wait_for_all, whatever the operating system reported: the exit
    codes that jobs shows are never out of these ranges. *)
Theorem exitcodes_stay_in_range (turns tries : nat) (w : world) :
  Forall exitcode_ok (jobs w) ->
  match smash_wait_all turns w with
  | Ended (Ret _ w') => Forall exitcode_ok (jobs w')
  | _ => True
  end /\
  match wait_for_all tries w with
  | Ended (Ret _ w') => Forall exitcode_ok (jobs w')
  | _ => True
  end.
Proof.
  intro Ok. split.
  { apply (smash_wait_all_keeps exitcode_ok); [|exact Ok].
    intros j st w0 Okj. exact (job_update_status_exitcode_ok j st w0 Okj). }
  unfold wait_for_all.
  change (bindL (lift get) (fun w0 => wait_for_all_from tries (jobs w0) 0) w)
    with (wait_for_all_from tries (jobs w) (List.length (@nil job_t)) w).
  destruct (wait_for_all_from_spec tries (jobs w) [] w eq_refl) as (P & _).
  destruct (wait_for_all_from tries (jobs w) (List.length (@nil job_t)) w)
    as [[r w'| | |]| |]; auto.
  destruct P as (_ & (nodes' & J & F & _) & _).
  simpl in J. subst nodes'. eapply wait_step_exitcodes; eassumption.
Qed.

(** X8 at a table with a finished job and a running one, the running one
    being reported to have exited with status 3. *)
Lemma exitcodes_stay_in_range_witness :
  Forall exitcode_ok (jobs world_two_jobs) /\
  (match smash_wait_all 2 world_two_jobs with
   | Ended (Ret _ w') => Forall exitcode_ok (jobs w')
   | _ => True
   end /\
   match wait_for_all 1 world_two_jobs with
   | Ended (Ret _ w') => Forall exitcode_ok (jobs w')
   | _ => True
   end).
Proof.
  assert (Ok : Forall exitcode_ok (jobs world_two_jobs)).
  { repeat constructor; simpl; lia. }
  split; [exact Ok|].
  apply (exitcodes_stay_in_range 2 1 world_two_jobs Ok).
Defined.

(** ** strtol reads back what %d prints *)

Lemma read_digits_stop (rest : string) (acc : Z) :
  no_digit_first rest = true -> read_digits rest acc = (acc, rest).
Proof.
  destruct rest as [|c rest]; [reflexivity|]. simpl. intro H.
  apply negb_true_iff in H. now rewrite H.
Qed.

Lemma read_digits_acc (d : Decimal.uint) (rest : string) :
  no_digit_first rest = true ->
  forall acc : positive,
    read_digits (NilEmpty.string_of_uint d ++ rest) (Z.pos acc) =
      (Z.pos (Pos.of_uint_acc d acc), rest).
Proof.
  intro N. induction d as [|d IH|d IH|d IH|d IH|d IH|d IH|d IH|d IH|d IH|d IH];
    intro acc;
    [apply read_digits_stop; exact N|..];
    cbn [NilEmpty.string_of_uint append read_digits Pos.of_uint_acc];
    match goal with
    | |- context [isdigit ?c] => change (isdigit c) with true; cbv iota
    end;
    rewrite <- IH; f_equal; unfold digit_value;
    match goal with
    | |- context [Z.of_nat (nat_of_ascii ?c)] =>
        let v := eval vm_compute in (Z.of_nat (nat_of_ascii c)) in
        change (Z.of_nat (nat_of_ascii c)) with v
    end; lia.
Qed.

Lemma read_digits_uint (d : Decimal.uint) (rest : string) :
  no_digit_first rest = true ->
  read_digits (NilEmpty.string_of_uint d ++ rest) 0 = (Z.of_N (Pos.of_uint d), rest).
Proof.
  intro N. induction d as [|d IH|d IH|d IH|d IH|d IH|d IH|d IH|d IH|d IH|d IH];
    [apply read_digits_stop; exact N|exact IH|..];
    cbn [NilEmpty.string_of_uint append read_digits Pos.of_uint];
    match goal with
    | |- context [isdigit ?c] => change (isdigit c) with true; cbv iota
    end;
    match goal with
    | |- read_digits _ ?a = _ =>
        let v := eval vm_compute in a in change a with v
    end;
    apply (read_digits_acc d rest N).
Qed.

Lemma fmt_d_first (n : Z) :
  0 <= n ->
  exists c s, fmt_d n = String c s /\ isdigit c = true /\ isspace c = false.
Proof.
  intro H. unfold fmt_d. destruct n as [|p|p]; [| |lia].
  - do 2 eexists. split; [reflexivity|split; reflexivity].
  - cbn [Z.to_int NilEmpty.string_of_int].
    pose proof (Unsigned.to_uint_nonnil p) as NN.
    destruct (Pos.to_uint p); [congruence|..];
      do 2 eexists; (split; [reflexivity|split; reflexivity]).
Qed.

Lemma read_digits_fmt_d (n : Z) (rest : string) :
  0 <= n -> no_digit_first rest = true ->
  read_digits (fmt_d n ++ rest) 0 = (n, rest).
Proof.
  intros H N. unfold fmt_d. destruct n as [|p|p]; [| |lia].
  - cbn [Z.to_int NilEmpty.string_of_int].
    now rewrite (read_digits_uint _ rest N).
  - cbn [Z.to_int NilEmpty.string_of_int].
    rewrite (read_digits_uint _ rest N), Unsigned.of_to. reflexivity.
Qed.

Lemma strtol_fmt_d (n : Z) (rest : string) (errno : Z) :
  0 <= n <= LONG_MAX -> no_digit_first rest = true ->
  strtol (fmt_d n ++ rest) errno = mk_strtol n true rest errno.
Proof.
  intros R N. unfold strtol.
  pose proof (read_digits_fmt_d n rest (proj1 R) N) as RD.
  destruct (fmt_d_first n (proj1 R)) as (c & s & E & D & Sp).
  rewrite E in *. cbn [append trim_start]. rewrite Sp.
  assert (G : (let (negative, s1) :=
                 match String c (s ++ rest) with
                 | String "-" s' => (true, s')
                 | String "+" s' => (false, s')
                 | _ => (false, String c (s ++ rest))
                 end in (negative, s1)) = (false, String c (s ++ rest))).
  { destruct c as [[] [] [] [] [] [] [] []]; try reflexivity;
      vm_compute in D; discriminate D. }
  destruct (match String c (s ++ rest) with
            | String "-" s' => (true, s')
            | String "+" s' => (false, s')
            | _ => (false, String c (s ++ rest))
            end) as [ng s1].
  injection G as -> ->.
  rewrite D. cbn [append] in RD. rewrite RD.
  assert (L1 : (LONG_MAX <? n) = false) by (apply Z.ltb_ge; lia).
  assert (L2 : (n <? LONG_MIN) = false) by (apply Z.ltb_ge; unfold LONG_MIN; lia).
  now rewrite L1, L2.
Qed.

Lemma strtol_space (s : string) (errno : Z) :
  converted (strtol s errno) = true ->
  strtol (String SP s) errno = strtol s errno.
Proof.
  unfold strtol. change (trim_start (String SP s)) with (trim_start s).
  destruct (match trim_start s with
            | String "-" s' => (true, s')
            | String "+" s' => (false, s')
            | _ => (false, trim_start s)
            end) as [ng s1].
  destruct s1 as [|c s1]; [discriminate|].
  destruct (isdigit c); [reflexivity|discriminate].
Qed.

(** ** run_in_foreground: what it asks of the operating system *)

Lemma control_calls_app (a b : list call) :
  control_calls (a ++ b) = (control_calls a ++ control_calls b)%list.
Proof. apply filter_app. Qed.

(** A world that differs from [w] in its history only, which is longer by
    the calls [t]. *)
Lemma job_update_status_deep (j : job_t) (st : Z) (w : world) :
  exists j' t,
    job_update_status (Some j) st w = Ret (0, Some j') (set_trace w (trace w ++ t)) /\
    same_job j j' /\ control_calls t = [] /\
    is_in_bg j' = is_in_bg j /\ termattr j' = termattr j /\
    (0 <= exitcode j <= 255 -> 0 <= exitcode j' <= 255) /\
    j' = updated j st.
Proof.
  unfold job_update_status, updated.
  destruct (WIFSTOPPED st).
  { exists (set_status j SUSPENDED), []. rewrite app_nil_r, set_trace_same.
    split; [reflexivity|]. split; [destruct j; reflexivity|].
    split; [reflexivity|]. split; [reflexivity|]. split; [reflexivity|].
    split; [tauto|reflexivity]. }
  destruct (WIFCONTINUED st).
  { exists (set_status j RUNNING), []. rewrite app_nil_r, set_trace_same.
    split; [reflexivity|]. split; [destruct j; reflexivity|].
    split; [reflexivity|]. split; [reflexivity|]. split; [reflexivity|].
    split; [tauto|reflexivity]. }
  destruct (WIFSIGNALED st) eqn:Sg; [|destruct (WIFEXITED st)]; run_m.
  1,2: destruct (enable_debug w); [destruct (ret_val _ <? 0)|]; run_m;
    first [ eexists; exists []; rewrite app_nil_r, set_trace_same;
            split; [reflexivity|]
          | eexists; eexists; rewrite <- ?app_assoc; split; [reflexivity|] ];
    (split; [destruct j; reflexivity|]);
    (split; [reflexivity|]); (split; [reflexivity|]); (split; [reflexivity|]);
    (split; [|reflexivity]);
    intros _; cbn [exitcode set_exitcode];
    first [ pose proof (WTERMSIG_range st Sg); lia
          | apply (WEXITSTATUS_range st) ].
  exists j, []. rewrite app_nil_r, set_trace_same.
  split; [reflexivity|]. split; [apply same_job_refl|].
  split; [reflexivity|]. split; [reflexivity|]. split; [reflexivity|].
  split; [tauto|reflexivity].
Qed.

Lemma job_wait_deep (j : job_t) (w : world) :
  exists j' t,
    job_wait (Some j) w = Ret (0, Some j') (set_trace w (trace w ++ t)) /\
    same_job j j' /\ control_calls t = [Waitpid (pgid j) WUNTRACED] /\
    is_in_bg j' = is_in_bg j /\ termattr j' = termattr j /\
    (0 <= exitcode j <= 255 -> 0 <= exitcode j' <= 255) /\
    j' = waited j (os w (trace w) (Waitpid (pgid j) WUNTRACED)).
Proof.
  unfold job_wait, waited. rewrite bind_sys.
  set (w1 := set_trace w _).
  destruct (0 <? ret_val _).
  - destruct (job_update_status_deep j (out_status (os w (trace w) (Waitpid (pgid j) WUNTRACED))) w1)
      as (j' & t & E & SJ & C & B & T & X & U).
    rewrite (bind_Ret _ _ _ _ _ E). cbn [snd].
    exists j', (Waitpid (pgid j) WUNTRACED :: t).
    unfold w1. cbn [trace set_trace]. rewrite set_trace_set_trace, <- app_assoc.
    split; [reflexivity|]. split; [exact SJ|]. split; [|auto].
    change (control_calls (Waitpid (pgid j) WUNTRACED :: t))
      with (Waitpid (pgid j) WUNTRACED :: control_calls t).
    now rewrite C.
  - exists j, [Waitpid (pgid j) WUNTRACED]. split; [reflexivity|].
    split; [apply same_job_refl|].
    split; [reflexivity|]. split; [reflexivity|]. split; [reflexivity|].
    split; [tauto|reflexivity].
Qed.

Lemma restore_shell_control_deep (a : termios) (w : world) :
  match restore_shell_control (Some a) w with
  | Ret (r, p) w' =>
      r = 0 /\ (exists a', p = Some a') /\
      exists t,
        w' = set_trace w (trace w ++ t) /\
        control_calls t =
          [Tcsetpgrp STDIN_FILENO (shell_pgid w); Tcgetattr STDIN_FILENO;
           Tcsetattr STDIN_FILENO TCSADRAIN (shell_termattr w)]
  | Exit code _ => code = EXIT_FAILURE
  | _ => False
  end.
Proof.
  unfold restore_shell_control. run_m.
  destruct (ret_val _ <? 0); [reflexivity|].
  destruct (ret_val _ <? 0); [reflexivity|].
  destruct (ret_val _ <? 0); [reflexivity|].
  split; [reflexivity|]. split; [eauto|].
  exists [Tcsetpgrp STDIN_FILENO (shell_pgid w); Tcgetattr STDIN_FILENO;
          Tcsetattr STDIN_FILENO TCSADRAIN (shell_termattr w)].
  split; [|reflexivity].
  unfold set_trace; cbn [trace jobs last_exit_code interactive enable_debug
                          shell_pgid shell_termattr getenv os].
  now rewrite <- !app_assoc.
Qed.

Lemma run_in_foreground_deep (j : job_t) (cont : bool) (w : world) :
  taken_by_run_in_foreground j ->
  match run_in_foreground (Some j) cont w with
  | Ret (r, p) w' =>
      r = 0 /\ jobs w' = jobs w /\ os w' = os w /\
      exists j' t,
        p = Some j' /\ same_job (set_termattr (set_is_in_bg j false) (termattr j')) j' /\
        trace w' = (trace w ++ t)%list /\
        control_calls t = foreground_calls w j cont /\
        (0 <= exitcode j <= 255 -> 0 <= exitcode j' <= 255) /\
        (last_exit_code w' = last_exit_code w \/
         last_exit_code w' = exitcode j') /\
        exists a,
          j' = set_termattr
                 (waited (set_is_in_bg (set_status j RUNNING) false)
                    (os w (trace w ++ Tcsetpgrp STDIN_FILENO (pgid j) ::
                                      resume_calls j cont)
                       (Waitpid (pgid j) WUNTRACED))) a
  | Exit code _ => code = EXIT_FAILURE
  | _ => False
  end.
Proof.
  intro T. unfold run_in_foreground.
  assert (G1 : negb (job_status_eqb (status j) NEW ||
                     job_status_eqb (status j) SUSPENDED ||
                     job_status_eqb (status j) RUNNING) = false).
  { destruct T as [H|[H|[H _]]]; rewrite H; reflexivity. }
  assert (G2 : job_status_eqb (status j) RUNNING && negb (is_in_bg j) = false).
  { destruct T as [H|[H|[H H']]]; rewrite H; try reflexivity.
    rewrite H'. reflexivity. }
  rewrite G1, G2. cbv zeta. unfold foreground_calls.
  set (j0 := set_is_in_bg (set_status j RUNNING) false).
  rewrite bind_sys.
  destruct (ret_val _ <? 0); [reflexivity|].
  set (b := cont && negb (job_status_eqb (status j) RUNNING)).
  set (resume := if b then _ else ret tt).
  assert (R : (exists w', resume (set_trace w (trace w ++ [Tcsetpgrp STDIN_FILENO (pgid j0)])) =
                            Exit EXIT_FAILURE w') \/
              (exists t,
                 resume (set_trace w (trace w ++ [Tcsetpgrp STDIN_FILENO (pgid j0)])) =
                   Ret tt (set_trace w (trace w ++ Tcsetpgrp STDIN_FILENO (pgid j0) :: t)) /\
                 t = resume_calls j cont)).
  { subst resume. unfold resume_calls. fold b. destruct b.
    - run_m. destruct (ret_val _ <? 0); [left; eauto|].
      destruct (ret_val _ <? 0); [left; eauto|].
      right. exists [Tcsetattr STDIN_FILENO TCSADRAIN (termattr j);
                     Killpg (pgid j) SIGCONT].
      split; [|reflexivity].
      unfold set_trace; cbn [trace jobs last_exit_code interactive enable_debug
                              shell_pgid shell_termattr getenv os].
      now rewrite <- !app_assoc.
    - right. exists []. split; reflexivity. }
  destruct R as [(w' & E)|(t1 & E & T1)].
  { rewrite (bind_Exit _ _ _ _ _ E). reflexivity. }
  assert (C1 : control_calls t1 =
               if b then [Tcsetattr STDIN_FILENO TCSADRAIN (termattr j);
                          Killpg (pgid j) SIGCONT] else []).
  { rewrite T1. unfold resume_calls. fold b. destruct b; reflexivity. }
  rewrite (bind_Ret _ _ _ _ _ E). clear E resume.
  set (w2 := set_trace w _).
  destruct (job_wait_deep j0 w2) as (j1 & t2 & E & SJ1 & C2 & B1 & A1 & X1 & W1).
  assert (W2 : j1 = waited j0
                     (os w (trace w ++ Tcsetpgrp STDIN_FILENO (pgid j) ::
                                       resume_calls j cont)
                        (Waitpid (pgid j) WUNTRACED))).
  { rewrite W1. unfold w2. cbn [os trace set_trace]. now rewrite T1. }
  rewrite (bind_Ret _ _ _ _ _ E). clear E. cbv beta zeta. cbn [snd pointee].
  set (w3 := set_trace w2 _).
  pose proof (restore_shell_control_deep (termattr j1) w3) as RS.
  unfold bind at 1.
  destruct (restore_shell_control (Some (termattr j1)) w3) as [[r q] w4|code w4| |];
    [|exact RS|exact RS|exact RS].
  destruct RS as (-> & (a' & ->) & t3 & -> & C3). cbn [snd].
  set (j2 := set_termattr j1 a').
  assert (SJ : same_job (set_termattr (set_is_in_bg j false) (termattr j2)) j2).
  { unfold same_job in *. subst j2. rewrite SJ1. clear. subst j0.
    destruct j; reflexivity. }
  assert (TR : exists t,
             trace (set_trace w3 (trace w3 ++ t3)) = (trace w ++ t)%list /\
             control_calls t =
               ([Tcsetpgrp STDIN_FILENO (pgid j)] ++
                (if b then [Tcsetattr STDIN_FILENO TCSADRAIN (termattr j);
                            Killpg (pgid j) SIGCONT] else []) ++
                [Waitpid (pgid j) WUNTRACED;
                 Tcsetpgrp STDIN_FILENO (shell_pgid w);
                 Tcgetattr STDIN_FILENO;
                 Tcsetattr STDIN_FILENO TCSADRAIN (shell_termattr w)])%list).
  { exists ((Tcsetpgrp STDIN_FILENO (pgid j0) :: t1) ++ t2 ++ t3)%list.
    split.
    - subst w3 w2. cbn [trace set_trace]. now rewrite <- !app_assoc.
    - rewrite !control_calls_app.
      change (control_calls (Tcsetpgrp STDIN_FILENO (pgid j0) :: t1))
        with (Tcsetpgrp STDIN_FILENO (pgid j0) :: control_calls t1).
      rewrite C1, C2, C3. reflexivity. }
  destruct TR as (t & Tr & C).
  set (w4 := set_trace w3 (trace w3 ++ t3)) in *.
  assert (J4 : jobs w4 = jobs w) by reflexivity.
  assert (O4 : os w4 = os w) by reflexivity.
  assert (L4 : last_exit_code w4 = last_exit_code w) by reflexivity.
  assert (X2 : 0 <= exitcode j <= 255 -> 0 <= exitcode j2 <= 255).
  { intro X0. apply X1. exact X0. }
  assert (W3 : exists a,
             j2 = set_termattr
                    (waited j0
                       (os w (trace w ++ Tcsetpgrp STDIN_FILENO (pgid j) ::
                                         resume_calls j cont)
                          (Waitpid (pgid j) WUNTRACED))) a).
  { exists a'. unfold j2. now rewrite <- W2. }
  clearbody w4. clear w3 w2 C1 C2 C3 W1 W2.
  destruct (job_status_eqb (status j2) EXITED).
  { run_m. split; [reflexivity|]. split; [exact J4|]. split; [exact O4|].
    exists j2, t. split; [reflexivity|]. split; [exact SJ|]. split; [exact Tr|].
    split; [exact C|]. split; [exact X2|]. split; [right; reflexivity|exact W3]. }
  destruct (job_status_eqb (status j2) SUSPENDED).
  - destruct (print_job_returns j2 w4) as (r & E & _).
    rewrite (bind_Ret _ _ _ _ _ E). run_m.
    split; [reflexivity|]. split; [exact J4|]. split; [exact O4|].
    exists j2, (t ++ [Dprintf STDOUT_FILENO (job_line j2)])%list.
    split; [reflexivity|]. split; [exact SJ|].
    rewrite Tr, <- app_assoc.
    split; [reflexivity|]. split; [rewrite control_calls_app, C; apply app_nil_r|].
    split; [exact X2|]. split; [left; exact L4|exact W3].
  - run_m. split; [reflexivity|]. split; [exact J4|]. split; [exact O4|].
    exists j2, t. split; [reflexivity|]. split; [exact SJ|]. split; [exact Tr|].
    split; [exact C|]. split; [exact X2|]. split; [left; exact L4|exact W3].
Qed.

(** C8.  When run_in_foreground has waited on a job and returns, it returns
    0.  The job that comes back is the job, made RUNNING in the foreground,
    as the one waitpid on its process group left it: updated with the
    status stored when that waitpid reported a process, and the terminal
    modes read afterwards saved with it.  last_exit_code is the exitcode of
    that job if it ended up EXITED and is what it was otherwise; the line of
    the job is written to standard output if it ended up SUSPENDED, and
    nothing is written otherwise.  It does return when the operating system
    refuses nothing. *)
Theorem run_in_foreground_last_exit_code (j : job_t) (cont : bool) (w : world) :
  taken_by_run_in_foreground j ->
  (forall r p w', run_in_foreground (Some j) cont w = Ret (r, p) w' ->
     exists j' a,
       p = Some j' /\ r = 0 /\
       j' = set_termattr
              (waited (set_is_in_bg (set_status j RUNNING) false)
                 (os w (trace w ++ Tcsetpgrp STDIN_FILENO (pgid j) ::
                                   resume_calls j cont)
                    (Waitpid (pgid j) WUNTRACED))) a /\
       control_calls (trace w') =
         (control_calls (trace w) ++ foreground_calls w j cont)%list /\
       last_exit_code w' =
         (if job_status_eqb (status j') EXITED then exitcode j'
          else last_exit_code w) /\
       stdout_of (trace w') =
         (stdout_of (trace w) ++
          if job_status_eqb (status j') SUSPENDED then [live_job_line j'] else [])%list) /\
  (os_succeeds w ->
     exists j' w', run_in_foreground (Some j) cont w = Ret (0, Some j') w').
Proof.
  intro T. destruct (run_in_foreground_returns j cont w T) as (P & Q).
  split; [|exact Q].
  intros r p w' H. destruct (P r p w' H) as (j' & -> & -> & L & S).
  pose proof (run_in_foreground_deep j cont w T) as D. rewrite H in D.
  destruct D as (_ & _ & _ & j2 & t & E & _ & Tr & C & _ & _ & a & W).
  injection E as <-.
  exists j', a. split; [reflexivity|]. split; [reflexivity|].
  split; [exact W|]. split; [|split; [exact L|exact S]].
  now rewrite Tr, control_calls_app, C.
Qed.

(** C8 at a job that exits with status 3. *)
Lemma run_in_foreground_last_exit_code_witness :
  taken_by_run_in_foreground job_new /\
  ((forall r p w', run_in_foreground (Some job_new) false world1 = Ret (r, p) w' ->
      exists j' a,
        p = Some j' /\ r = 0 /\
        j' = set_termattr
               (waited (set_is_in_bg (set_status job_new RUNNING) false)
                  (os world1 (trace world1 ++ Tcsetpgrp STDIN_FILENO (pgid job_new) ::
                                               resume_calls job_new false)
                     (Waitpid (pgid job_new) WUNTRACED))) a /\
        control_calls (trace w') =
          (control_calls (trace world1) ++ foreground_calls world1 job_new false)%list /\
        last_exit_code w' =
          (if job_status_eqb (status j') EXITED then exitcode j'
           else last_exit_code world1) /\
        stdout_of (trace w') =
          (stdout_of (trace world1) ++
           if job_status_eqb (status j') SUSPENDED then [live_job_line j'] else [])%list) /\
   (os_succeeds world1 ->
      exists j' w', run_in_foreground (Some job_new) false world1 = Ret (0, Some j') w')).
Proof.
  split.
  - left. reflexivity.
  - apply (run_in_foreground_last_exit_code job_new false world1).
    left. reflexivity.
Defined.

(** The job waited for at that witness: EXITED, with the exit status 3 that
    the waitpid stored. *)
Example waited_job_exit3 :
  let rep := os world1 (trace world1 ++ Tcsetpgrp STDIN_FILENO (pgid job_new) ::
                                         resume_calls job_new false)
               (Waitpid (pgid job_new) WUNTRACED) in
  status (waited (set_is_in_bg (set_status job_new RUNNING) false) rep) = EXITED /\
  exitcode (waited (set_is_in_bg (set_status job_new RUNNING) false) rep) = 3.
Proof. split; reflexivity. Qed.

(** X9.  run_in_foreground on a job it takes returns, or ends the shell
    with exit(EXIT_FAILURE).  When it returns, what it has asked of the
    operating system, the messages left out, is in this order: the terminal
    for the process group of the job; for a job to be continued that was not
    RUNNING, the terminal modes saved with the job, then SIGCONT; one waitpid
    on the process group of the job, with WUNTRACED; the terminal for the
    process group of the shell, tcgetattr, and the terminal modes of the
    shell.  So the shell has the terminal back whenever run_in_foreground
    returns.  The job table is not touched, and the job comes back with its
    id, its process group and its user input, marked as not in the
    background. *)
Theorem run_in_foreground_protocol (j : job_t) (cont : bool) (w : world) :
  taken_by_run_in_foreground j ->
  match run_in_foreground (Some j) cont w with
  | Ret (r, p) w' =>
      r = 0 /\ jobs w' = jobs w /\
      (exists j',
         p = Some j' /\ jobid j' = jobid j /\ pgid j' = pgid j /\
         ui j' = ui j /\ is_in_bg j' = false) /\
      control_calls (trace w') =
        (control_calls (trace w) ++ foreground_calls w j cont)%list
  | Exit code _ => code = EXIT_FAILURE
  | _ => False
  end.
Proof.
  intro T. pose proof (run_in_foreground_deep j cont w T) as H.
  destruct (run_in_foreground (Some j) cont w) as [[r p] w'|code w'| |]; auto.
  destruct H as (-> & J & _ & j' & t & -> & SJ & Tr & C & _).
  split; [reflexivity|]. split; [exact J|]. split.
  - exists j'. split; [reflexivity|]. unfold same_job in SJ. rewrite SJ.
    repeat split.
  - now rewrite Tr, control_calls_app, C.
Qed.

(** X9 at a job that exits with status 3. *)
Lemma run_in_foreground_protocol_witness :
  taken_by_run_in_foreground job_new /\
  match run_in_foreground (Some job_new) false world1 with
  | Ret (r, p) w' =>
      r = 0 /\ jobs w' = jobs world1 /\
      (exists j',
         p = Some j' /\ jobid j' = jobid job_new /\ pgid j' = pgid job_new /\
         ui j' = ui job_new /\ is_in_bg j' = false) /\
      control_calls (trace w') =
        (control_calls (trace world1) ++ foreground_calls world1 job_new false)%list
  | Exit code _ => code = EXIT_FAILURE
  | _ => False
  end.
Proof.
  split.
  - left. reflexivity.
  - apply (run_in_foreground_protocol job_new false world1).
    left. reflexivity.
Defined.

(** ** fg, bg and kill *)

Lemma lookup_at (js : list job_t) (i : nat) (j : job_t) :
  ids_increasing js -> nth_error js i = Some j ->
  jobs_lookup_by_jobid (jobid j) js = Some i.
Proof.
  intros Inc H.
  destruct (lookup_In_Some (jobid j) js j (nth_error_In _ _ H) eq_refl) as (k & E).
  destruct (lookup_Some_nth _ _ _ E) as (y & Hy & Ey).
  now rewrite (ids_increasing_unique _ _ _ _ _ Inc Hy H Ey) in E.
Qed.

Lemma store_at_same (i : nat) (js : list job_t) (j : job_t) :
  nth_error js i = Some j -> store_at i j js = js.
Proof.
  revert i. induction js as [|a js IH]; intros [|i] H; try discriminate; simpl in *.
  - now injection H as ->.
  - now rewrite IH.
Qed.

Lemma set_jobs_same (w : world) : set_jobs w (jobs w) = w.
Proof. destruct w; reflexivity. Qed.

Lemma store_at_jobid (i : nat) (js : list job_t) (j j' : job_t) :
  nth_error js i = Some j -> jobid j' = jobid j ->
  map jobid (store_at i j' js) = map jobid js.
Proof.
  revert i. induction js as [|a js IH]; intros [|i] H E; try discriminate; simpl in *.
  - injection H as ->. now rewrite E.
  - now rewrite IH.
Qed.

(** The id that fg, bg and kill read from the decimal numeral of the id of
    a job. *)
Lemma strtol_jobid (n : Z) (errno : Z) :
  1 <= n <= INT_MAX ->
  strtol (fmt_d n) errno = mk_strtol n true EmptyString errno /\ int_wrap n = n.
Proof.
  intro R. split.
  - rewrite <- (append_nil_r (fmt_d n)) at 1.
    apply strtol_fmt_d; [unfold LONG_MAX, INT_MAX in *; lia|reflexivity].
  - apply int_wrap_small. unfold INT_MIN, INT_MAX in *. lia.
Qed.

Lemma table_reachable_jobid (w : world) (i : nat) (j : job_t) :
  table_reachable w -> nth_error (jobs w) i = Some j -> 1 <= jobid j.
Proof.
  intros R H. destruct (table_reachable_ids_ok w R) as (_ & F).
  rewrite Forall_forall in F. apply F. apply in_map. eapply nth_error_In. exact H.
Qed.

Lemma builtin_bg_line (w : world) (i : nat) (j : job_t) :
  table_reachable w -> nth_error (jobs w) i = Some j -> jobid j <= INT_MAX ->
  builtin_bg (Some ("bg " ++ fmt_d (jobid j))) w =
    (p <- run_in_background (Some j) true ;; store_job i (snd p) ;;; ret 0) w.
Proof.
  intros R H U.
  pose proof (table_reachable_jobid w i j R H) as Lo.
  destruct (strtol_jobid (jobid j) 0 (conj Lo U)) as (St & Wr).
  pose proof (lookup_at _ _ _ (ids_ok_increasing _ (table_reachable_ids_ok w R)) H) as Lk.
  unfold builtin_bg.
  change (starts_with "bg " ("bg " ++ fmt_d (jobid j))) with true. cbv iota.
  change (skipn_str 3 ("bg " ++ fmt_d (jobid j))) with (fmt_d (jobid j)).
  rewrite St. cbn [value converted errno_after]. rewrite Wr.
  change ((0 =? EINVAL) || negb true) with false. cbv iota.
  unfold bind at 1. unfold get. now rewrite Lk, H.
Qed.

Lemma builtin_fg_line (w : world) (i : nat) (j : job_t) :
  table_reachable w -> nth_error (jobs w) i = Some j -> jobid j <= INT_MAX ->
  builtin_fg (Some ("fg " ++ fmt_d (jobid j))) w =
    (p <- run_in_foreground (Some j) true ;; store_job i (snd p) ;;; ret 0) w.
Proof.
  intros R H U.
  pose proof (table_reachable_jobid w i j R H) as Lo.
  destruct (strtol_jobid (jobid j) 0 (conj Lo U)) as (St & Wr).
  pose proof (lookup_at _ _ _ (ids_ok_increasing _ (table_reachable_ids_ok w R)) H) as Lk.
  unfold builtin_fg.
  change (starts_with "fg " ("fg " ++ fmt_d (jobid j))) with true. cbv iota.
  change (skipn_str 3 ("fg " ++ fmt_d (jobid j))) with (fmt_d (jobid j)).
  rewrite St. cbn [value converted errno_after]. rewrite Wr.
  change ((0 =? EINVAL) || negb true) with false. cbv iota.
  unfold bind at 1. unfold get. now rewrite Lk, H.
Qed.

(** X10.  [bg n], n being the decimal id of a job of the table that is
    not greater than INT_MAX: if the job is NEW or SUSPENDED, SIGCONT is
    sent to its process group and nothing else is asked of the operating
    system; the job is then RUNNING and in the background and bg returns 0,
    unless killpg failed, which ends the shell with exit(EXIT_FAILURE).  For
    a job in any other state bg does nothing at all, and returns 0 as
    well. *)
Theorem builtin_bg_job (w : world) (i : nat) (j : job_t) :
  table_reachable w -> nth_error (jobs w) i = Some j -> jobid j <= INT_MAX ->
  let line := "bg " ++ fmt_d (jobid j) in
  let c := Killpg (pgid j) SIGCONT in
  if job_status_eqb (status j) NEW || job_status_eqb (status j) SUSPENDED then
    if ret_val (os w (trace w) c) <? 0 then
      exists w', builtin_bg (Some line) w = Exit EXIT_FAILURE w'
    else
      builtin_bg (Some line) w =
        Ret 0 (set_jobs (set_trace w (trace w ++ [c]))
                 (store_at i (set_is_in_bg (set_status j RUNNING) true) (jobs w)))
  else
    builtin_bg (Some line) w = Ret 0 w.
Proof.
  intros R H U line c. unfold line.
  rewrite (builtin_bg_line w i j R H U).
  unfold run_in_background.
  destruct (job_status_eqb (status j) NEW || job_status_eqb (status j) SUSPENDED).
  - cbn [negb]. run_m. fold c.
    destruct (ret_val (os w (trace w) c) <? 0); [eauto|reflexivity].
  - cbn [negb]. run_m. rewrite (store_at_same _ _ _ H). now rewrite set_jobs_same.
Qed.

(** X10 at a shell whose only job is suspended. *)
Lemma builtin_bg_job_witness :
  table_reachable world_stopped_job /\
  nth_error (jobs world_stopped_job) 0 = Some job_stopped /\
  jobid job_stopped <= INT_MAX /\
  builtin_bg (Some "bg 1") world_stopped_job =
    Ret 0 (set_jobs (set_trace world_stopped_job [Killpg 4244 SIGCONT])
             [set_is_in_bg (set_status job_stopped RUNNING) true]).
Proof.
  assert (R : table_reachable world_stopped_job).
  { apply (reach_update world_one_job); [|reflexivity].
    apply (reach_insert world0 job_new 0 world_one_job);
      [apply reach_start; reflexivity|intros l E; discriminate E|reflexivity]. }
  assert (U : jobid job_stopped <= INT_MAX) by (vm_compute; discriminate).
  split; [exact R|]. split; [reflexivity|]. split; [exact U|].
  exact (builtin_bg_job world_stopped_job 0 job_stopped R eq_refl U).
Defined.

(** X11.  [fg n], n being the decimal id of a job of the table that is not
    greater than INT_MAX.  For a job that run_in_foreground turns away (one
    that is EXITED, ABORTED or CANCELED, or RUNNING in the foreground) fg
    does nothing at all and returns 0.  For a job that it takes, fg either
    ends the shell with exit(EXIT_FAILURE) or returns 0 after the calls of
    run_in_foreground for a job to be continued; the table then differs in
    that job only, which has kept its id, process group and user input and
    is not in the background. *)
Theorem builtin_fg_job (w : world) (i : nat) (j : job_t) :
  table_reachable w -> nth_error (jobs w) i = Some j -> jobid j <= INT_MAX ->
  let line := "fg " ++ fmt_d (jobid j) in
  (rejected_by_run_in_foreground (Some j) ->
     builtin_fg (Some line) w = Ret 0 w) /\
  (taken_by_run_in_foreground j ->
     match builtin_fg (Some line) w with
     | Ret r w' =>
         r = 0 /\
         (exists j',
            jobs w' = store_at i j' (jobs w) /\ jobid j' = jobid j /\
            pgid j' = pgid j /\ ui j' = ui j /\ is_in_bg j' = false) /\
         control_calls (trace w') =
           (control_calls (trace w) ++ foreground_calls w j true)%list
     | Exit code _ => code = EXIT_FAILURE
     | _ => False
     end).
Proof.
  intros R H U line. unfold line.
  rewrite (builtin_fg_line w i j R H U). split.
  - intro Rj.
    assert (E : run_in_foreground (Some j) true w = Ret (-1, Some j) w).
    { unfold run_in_foreground. destruct Rj as [(H1 & H2 & H3)|(H1 & H2)].
      - destruct (status j); try congruence; reflexivity.
      - rewrite H1, H2. reflexivity. }
    rewrite (bind_Ret _ _ _ _ _ E). run_m.
    rewrite (store_at_same _ _ _ H). now rewrite set_jobs_same.
  - intro T. pose proof (run_in_foreground_deep j true w T) as D.
    unfold bind at 1.
    destruct (run_in_foreground (Some j) true w) as [[r p] w'|code w'| |]; auto.
    destruct D as (_ & J & _ & j' & t & -> & SJ & Tr & C & _).
    run_m. split; [reflexivity|]. split.
    + exists j'. rewrite J. split; [reflexivity|].
      unfold same_job in SJ. rewrite SJ. repeat split.
    + now rewrite Tr, control_calls_app, C.
Qed.

(** X11 at a shell whose only job is suspended. *)
Lemma builtin_fg_job_witness :
  table_reachable world_stopped_job /\
  nth_error (jobs world_stopped_job) 0 = Some job_stopped /\
  jobid job_stopped <= INT_MAX /\
  (rejected_by_run_in_foreground (Some job_stopped) ->
     builtin_fg (Some "fg 1") world_stopped_job = Ret 0 world_stopped_job) /\
  (taken_by_run_in_foreground job_stopped ->
     match builtin_fg (Some "fg 1") world_stopped_job with
     | Ret r w' =>
         r = 0 /\
         (exists j',
            jobs w' = store_at 0 j' (jobs world_stopped_job) /\
            jobid j' = jobid job_stopped /\
            pgid j' = pgid job_stopped /\ ui j' = ui job_stopped /\
            is_in_bg j' = false) /\
         control_calls (trace w') =
           (control_calls (trace world_stopped_job) ++
            foreground_calls world_stopped_job job_stopped true)%list
     | Exit code _ => code = EXIT_FAILURE
     | _ => False
     end).
Proof.
  assert (R : table_reachable world_stopped_job).
  { apply (reach_update world_one_job); [|reflexivity].
    apply (reach_insert world0 job_new 0 world_one_job);
      [apply reach_start; reflexivity|intros l E; discriminate E|reflexivity]. }
  assert (U : jobid job_stopped <= INT_MAX) by (vm_compute; discriminate).
  split; [exact R|]. split; [reflexivity|]. split; [exact U|].
  exact (builtin_fg_job world_stopped_job 0 job_stopped R eq_refl U).
Defined.

Example fg_suspended_job :
  match builtin_fg (Some "fg 1") world_stopped_job with
  | Ret r w' =>
      r = 0 /\
      jobs w' = [set_termattr (set_is_in_bg (set_status job_stopped RUNNING) false) 0] /\
      trace w' =
        [Tcsetpgrp 0 4244; Tcsetattr 0 TCSADRAIN 7; Killpg 4244 SIGCONT;
         Waitpid 4244 WUNTRACED; Tcsetpgrp 0 100; Tcgetattr 0;
         Tcsetattr 0 TCSADRAIN 0]
  | _ => False
  end.
Proof. vm_compute. repeat split. Qed.

(** X12.  [kill -s n], s being a signal number and n the decimal id of a
    job of the table, both not greater than INT_MAX.  If the job is RUNNING
    or SUSPENDED, the signal is sent to its process group, once, and kill
    returns 0, also when killpg failed, which is reported on stderr.  For a
    job in any other state nothing is sent: kill prints its usage line on
    stderr and returns -EINVAL.  The table is the same in all cases: kill
    does not record what it did to the job. *)
Theorem builtin_kill_job (w : world) (i : nat) (j : job_t) (sig : Z) :
  table_reachable w -> nth_error (jobs w) i = Some j -> jobid j <= INT_MAX ->
  0 <= sig <= INT_MAX ->
  let line := "kill -" ++ fmt_d sig ++ " " ++ fmt_d (jobid j) in
  let c := Killpg (pgid j) sig in
  builtin_kill (Some line) w =
    if live j then
      if ret_val (os w (trace w) c) <? 0 then
        Ret 0 (set_trace w
                 (trace w ++
                  [c; ErrorMsg "Failed to send signal to job: %s"
                        (Some (err_no (os w (trace w) c)))]))
      else Ret 0 (set_trace w (trace w ++ [c]))
    else
      Ret (- EINVAL)
        (set_trace w
           (trace w ++ [Dprintf STDERR_FILENO ("Usage: kill -N jobid" ++ str1 LF)])).
Proof.
  intros R H U Sg line c.
  pose proof (table_reachable_jobid w i j R H) as Lo.
  destruct (strtol_jobid (jobid j) 0 (conj Lo U)) as (St & Wr).
  pose proof (lookup_at _ _ _ (ids_ok_increasing _ (table_reachable_ids_ok w R)) H) as Lk.
  assert (S1 : strtol (fmt_d sig ++ " " ++ fmt_d (jobid j)) 0 =
               mk_strtol sig true (String SP (fmt_d (jobid j))) 0).
  { apply strtol_fmt_d; [unfold LONG_MAX, INT_MAX in *; lia|reflexivity]. }
  assert (S2 : strtol (String SP (fmt_d (jobid j))) 0 =
               mk_strtol (jobid j) true EmptyString 0).
  { rewrite strtol_space; rewrite St; reflexivity. }
  assert (W1 : int_wrap sig = sig)
    by (apply int_wrap_small; unfold INT_MIN, INT_MAX in *; lia).
  unfold builtin_kill, line.
  change (starts_with "kill " ("kill -" ++ fmt_d sig ++ " " ++ fmt_d (jobid j)))
    with true. cbv iota.
  change (trim_start (skipn_str 5 ("kill -" ++ fmt_d sig ++ " " ++ fmt_d (jobid j))))
    with (String "-" (fmt_d sig ++ " " ++ fmt_d (jobid j))).
  cbv iota beta. rewrite S1. cbn [value converted errno_after endp].
  rewrite S2. cbn [value converted errno_after endp]. rewrite W1, Wr.
  change ((0 =? EINVAL) || negb true) with false. cbv iota.
  unfold bind at 1. unfold get. rewrite Lk, H.
  unfold live.
  destruct (status j); cbn [job_status_eqb orb negb]; run_m; fold c;
    try reflexivity;
    destruct (ret_val (os w (trace w) c) <? 0); run_m;
    rewrite <- ?app_assoc; reflexivity.
Qed.

(** X12 at a shell whose only job is suspended, and SIGKILL. *)
Lemma builtin_kill_job_witness :
  table_reachable world_stopped_job /\
  nth_error (jobs world_stopped_job) 0 = Some job_stopped /\
  jobid job_stopped <= INT_MAX /\
  0 <= 9 <= INT_MAX /\
  builtin_kill (Some "kill -9 1") world_stopped_job =
    Ret 0 (set_trace world_stopped_job [Killpg 4244 9]).
Proof.
  assert (R : table_reachable world_stopped_job).
  { apply (reach_update world_one_job); [|reflexivity].
    apply (reach_insert world0 job_new 0 world_one_job);
      [apply reach_start; reflexivity|intros l E; discriminate E|reflexivity]. }
  assert (U : jobid job_stopped <= INT_MAX) by (vm_compute; discriminate).
  assert (Sg : 0 <= 9 <= INT_MAX) by (unfold INT_MAX; lia).
  split; [exact R|]. split; [reflexivity|]. split; [exact U|]. split; [exact Sg|].
  exact (builtin_kill_job world_stopped_job 0 job_stopped 9 R eq_refl U Sg).
Defined.

Lemma strtol_nat (n : Z) (errno : Z) :
  0 <= n <= INT_MAX ->
  strtol (fmt_d n) errno = mk_strtol n true EmptyString errno /\ int_wrap n = n.
Proof.
  intro R. split.
  - rewrite <- (append_nil_r (fmt_d n)) at 1.
    apply strtol_fmt_d; [unfold LONG_MAX, INT_MAX in *; lia|reflexivity].
  - apply int_wrap_small. unfold INT_MIN, INT_MAX in *. lia.
Qed.

(** X13.  An id that no job of the table has, written in decimal: fg and
    bg return -EINVAL and do nothing else, not even print a message; kill
    reports "No such job." on stderr, sends nothing, and returns -EINVAL. *)
Theorem unknown_job_id (w : world) (n sig : Z) :
  0 <= n <= INT_MAX -> 0 <= sig <= INT_MAX ->
  (forall j, In j (jobs w) -> jobid j <> n) ->
  builtin_fg (Some ("fg " ++ fmt_d n)) w = Ret (- EINVAL) w /\
  builtin_bg (Some ("bg " ++ fmt_d n)) w = Ret (- EINVAL) w /\
  builtin_kill (Some ("kill -" ++ fmt_d sig ++ " " ++ fmt_d n)) w =
    Ret (- EINVAL) (set_trace w (trace w ++ [ErrorMsg "No such job." None])).
Proof.
  intros Rn Rs N.
  destruct (strtol_nat n 0 Rn) as (St & Wr).
  pose proof (lookup_None_notin n (jobs w) N) as Lk.
  split; [|split].
  - unfold builtin_fg.
    change (starts_with "fg " ("fg " ++ fmt_d n)) with true. cbv iota.
    change (skipn_str 3 ("fg " ++ fmt_d n)) with (fmt_d n).
    rewrite St. cbn [value converted errno_after]. rewrite Wr.
    change ((0 =? EINVAL) || negb true) with false. cbv iota.
    unfold bind at 1. unfold get. now rewrite Lk.
  - unfold builtin_bg.
    change (starts_with "bg " ("bg " ++ fmt_d n)) with true. cbv iota.
    change (skipn_str 3 ("bg " ++ fmt_d n)) with (fmt_d n).
    rewrite St. cbn [value converted errno_after]. rewrite Wr.
    change ((0 =? EINVAL) || negb true) with false. cbv iota.
    unfold bind at 1. unfold get. now rewrite Lk.
  - assert (S1 : strtol (fmt_d sig ++ " " ++ fmt_d n) 0 =
                 mk_strtol sig true (String SP (fmt_d n)) 0).
    { apply strtol_fmt_d; [unfold LONG_MAX, INT_MAX in *; lia|reflexivity]. }
    assert (S2 : strtol (String SP (fmt_d n)) 0 = mk_strtol n true EmptyString 0).
    { rewrite strtol_space; rewrite St; reflexivity. }
    assert (W1 : int_wrap sig = sig)
      by (apply int_wrap_small; unfold INT_MIN, INT_MAX in *; lia).
    unfold builtin_kill.
    change (starts_with "kill " ("kill -" ++ fmt_d sig ++ " " ++ fmt_d n))
      with true. cbv iota.
    change (trim_start (skipn_str 5 ("kill -" ++ fmt_d sig ++ " " ++ fmt_d n)))
      with (String "-" (fmt_d sig ++ " " ++ fmt_d n)).
    cbv iota beta. rewrite S1. cbn [value converted errno_after endp].
    rewrite S2. cbn [value converted errno_after endp]. rewrite W1, Wr.
    change ((0 =? EINVAL) || negb true) with false. cbv iota.
    unfold bind at 1. unfold get. now rewrite Lk.
Qed.

(** X13 at a shell whose only job has the id 1, and the id 7. *)
Lemma unknown_job_id_witness :
  0 <= 7 <= INT_MAX /\ 0 <= 15 <= INT_MAX /\
  (forall j, In j (jobs world_stopped_job) -> jobid j <> 7) /\
  builtin_fg (Some "fg 7") world_stopped_job = Ret (- EINVAL) world_stopped_job /\
  builtin_bg (Some "bg 7") world_stopped_job = Ret (- EINVAL) world_stopped_job /\
  builtin_kill (Some "kill -15 7") world_stopped_job =
    Ret (- EINVAL) (set_trace world_stopped_job [ErrorMsg "No such job." None]).
Proof.
  assert (R1 : 0 <= 7 <= INT_MAX) by (unfold INT_MAX; lia).
  assert (R2 : 0 <= 15 <= INT_MAX) by (unfold INT_MAX; lia).
  assert (N : forall j, In j (jobs world_stopped_job) -> jobid j <> 7).
  { intros j [<-|[]]. discriminate. }
  split; [exact R1|]. split; [exact R2|]. split; [exact N|].
  exact (unknown_job_id world_stopped_job 7 15 R1 R2 N).
Defined.

Lemma taken_or_rejected (j : job_t) :
  taken_by_run_in_foreground j \/ rejected_by_run_in_foreground (Some j).
Proof.
  unfold taken_by_run_in_foreground, rejected_by_run_in_foreground.
  destruct (status j) eqn:S; try (left; auto; fail);
    try (right; left; repeat split; discriminate).
  destruct (is_in_bg j); [left|right]; auto.
Qed.

Lemma usage_outcome (text : string) (w : world) :
  (sys (Dprintf STDERR_FILENO text) ;;; ret (- EINVAL)) w =
    Ret (- EINVAL) (set_trace w (trace w ++ [Dprintf STDERR_FILENO text])).
Proof. reflexivity. Qed.

(** X14.  Whatever the command line, fg, bg and kill return 0 or -EINVAL,
    or end the shell with exit(EXIT_FAILURE), which kill never does; they
    never fault.  None of them adds a job to the table, removes one or
    changes an id, and kill leaves the whole table as it is. *)
Theorem job_builtins_keep_ids (cmd : option string) (w : world) :
  match builtin_fg cmd w with
  | Ret r w' => (r = 0 \/ r = - EINVAL) /\ map jobid (jobs w') = map jobid (jobs w)
  | Exit code _ => code = EXIT_FAILURE
  | _ => False
  end /\
  match builtin_bg cmd w with
  | Ret r w' => (r = 0 \/ r = - EINVAL) /\ map jobid (jobs w') = map jobid (jobs w)
  | Exit code _ => code = EXIT_FAILURE
  | _ => False
  end /\
  match builtin_kill cmd w with
  | Ret r w' => (r = 0 \/ r = - EINVAL) /\ jobs w' = jobs w
  | _ => False
  end.
Proof.
  split; [|split].
  - unfold builtin_fg. destruct cmd as [s|]; [|simpl; auto].
    destruct (starts_with "fg " s); [|rewrite usage_outcome; simpl; auto].
    destruct ((errno_after (strtol (skipn_str 3 s) 0) =? EINVAL) ||
              negb (converted (strtol (skipn_str 3 s) 0)));
      [rewrite usage_outcome; simpl; auto|].
    unfold bind at 1. unfold get.
    destruct (jobs_lookup_by_jobid _ (jobs w)) as [i|] eqn:Lk; [|simpl; auto].
    destruct (lookup_Some_nth _ _ _ Lk) as (j & H & _). rewrite H.
    destruct (taken_or_rejected j) as [T|Rj].
    + pose proof (run_in_foreground_deep j true w T) as D.
      unfold bind at 1.
      destruct (run_in_foreground (Some j) true w) as [[r p] w'|code w'| |]; auto.
      destruct D as (_ & J & _ & j' & t & -> & SJ & _).
      run_m. split; [auto|]. rewrite J. apply (store_at_jobid _ _ j _ H).
      unfold same_job in SJ. rewrite SJ. reflexivity.
    + assert (E : run_in_foreground (Some j) true w = Ret (-1, Some j) w).
      { unfold run_in_foreground. destruct Rj as [(H1 & H2 & H3)|(H1 & H2)].
        - destruct (status j); try congruence; reflexivity.
        - rewrite H1, H2. reflexivity. }
      rewrite (bind_Ret _ _ _ _ _ E). run_m. split; [auto|].
      now rewrite (store_at_same _ _ _ H).
  - unfold builtin_bg. destruct cmd as [s|]; [|simpl; auto].
    destruct (starts_with "bg " s); [|rewrite usage_outcome; simpl; auto].
    destruct ((errno_after (strtol (skipn_str 3 s) 0) =? EINVAL) ||
              negb (converted (strtol (skipn_str 3 s) 0)));
      [rewrite usage_outcome; simpl; auto|].
    unfold bind at 1. unfold get.
    destruct (jobs_lookup_by_jobid _ (jobs w)) as [i|] eqn:Lk; [|simpl; auto].
    destruct (lookup_Some_nth _ _ _ Lk) as (j & H & _). rewrite H.
    unfold run_in_background.
    destruct (negb (job_status_eqb (status j) NEW || job_status_eqb (status j) SUSPENDED)).
    + run_m. split; [auto|]. now rewrite (store_at_same _ _ _ H).
    + run_m. destruct (ret_val _ <? 0); [reflexivity|].
      simpl. split; [auto|]. now apply (store_at_jobid _ _ j _ H).
  - unfold builtin_kill. destruct cmd as [s|]; [|simpl; auto].
    destruct (starts_with "kill " s); [|rewrite usage_outcome; simpl; auto].
    destruct (trim_start (skipn_str 5 s)) as [|c s1];
      [rewrite usage_outcome; simpl; auto|].
    destruct (Ascii.eqb c "-") eqn:Ec.
    2:{ assert (G : forall (A : Type) (x y : A),
                  match c with "-"%char => x | _ => y end = y).
        { intros A x y. destruct c as [[] [] [] [] [] [] [] []];
            try reflexivity; discriminate Ec. }
        rewrite G, usage_outcome. simpl; auto. }
    apply Ascii.eqb_eq in Ec. subst c.
    destruct ((errno_after (strtol s1 0) =? EINVAL) || negb (converted (strtol s1 0)));
      [rewrite usage_outcome; simpl; auto|].
    destruct ((errno_after (strtol (endp (strtol s1 0)) (errno_after (strtol s1 0))) =? EINVAL) ||
              negb (converted (strtol (endp (strtol s1 0)) (errno_after (strtol s1 0)))));
      [rewrite usage_outcome; simpl; auto|].
    unfold bind at 1. unfold get.
    destruct (jobs_lookup_by_jobid _ (jobs w)) as [i|] eqn:Lk; [|simpl; auto].
    destruct (nth_error (jobs w) i) as [j|]; [|simpl; auto].
    destruct (negb (job_status_eqb (status j) SUSPENDED ||
                    job_status_eqb (status j) RUNNING));
      [rewrite usage_outcome; simpl; auto|].
    run_m. destruct (ret_val _ <? 0); simpl; auto.
Qed.

(** ** exec_job *)

Lemma store_at_last (js : list job_t) (x y : job_t) :
  store_at (Nat.pred (List.length (js ++ [y]))) x (js ++ [y]) = (js ++ [x])%list.
Proof.
  rewrite length_app. simpl. rewrite Nat.add_1_r. simpl. apply store_at_app.
Qed.

Lemma exec_job_parent (u : user_input_t) (w : world) :
  commands u <> [] ->
  0 < ret_val (os w (trace w) Fork) ->
  match exec_job (jobs_create (Some u)) w with
  | Ret r w' =>
      r = 0 /\
      exists j',
        jobs w' = (jobs w ++ [j'])%list /\ ui j' = u /\
        pgid j' = ret_val (os w (trace w) Fork) /\
        control_calls (trace w') =
          (control_calls (trace w) ++
           exec_job_calls w u (ret_val (os w (trace w) Fork)))%list /\
        (interactive w = false -> last_exit_code w' = exitcode j') /\
        (interactive w = true -> is_background_command u = true ->
           status j' = RUNNING /\ is_in_bg j' = true /\
           last_exit_code w' = last_exit_code w)
  | Exit code _ =>
      code = EXIT_FAILURE /\ interactive w = true /\
      is_background_command u = false
  | _ => False
  end.
Proof.
  intros NE Pos. cbn [jobs_create]. unfold exec_job.
  set (job := mk_job u NEW 0 0 0 0 0 false).
  destruct (jobs_insert_returns job w) as (id & E).
  rewrite (bind_Ret _ _ _ _ _ E). clear E.
  change (0 <? 0) with false. cbv iota.
  unfold bind at 1. unfold get. cbn [jobs set_jobs].
  rewrite last_job_snoc.
  cbn [ui set_jobid job]. destruct (commands u) as [|cmd cmds] eqn:Cm; [congruence|].
  rewrite bind_sys. cbn [os trace set_jobs].
  set (pid := ret_val (os w (trace w) Fork)) in *.
  assert (P1 : (pid <? 0) = false) by (apply Z.ltb_ge; lia).
  assert (P2 : (pid =? 0) = false) by (apply Z.eqb_neq; lia).
  rewrite P1, P2. cbn [interactive set_trace set_jobs].
  set (j0 := set_pgid (set_jobid job id) pid).
  unfold exec_job_calls. fold pid.
  destruct (interactive w) eqn:Int.
  - cbn [negb]. rewrite bind_bind, bind_sys.
    cbn [trace set_trace]. unfold ret at 1. unfold bind at 1.
    set (w1 := set_trace _ _).
    assert (T1 : trace w1 = ((trace w ++ [Fork]) ++ [Setpgid pid pid])%list) by reflexivity.
    assert (J1 : jobs w1 = (jobs w ++ [set_jobid job id])%list) by reflexivity.
    assert (L1 : last_exit_code w1 = last_exit_code w) by reflexivity.
    assert (S1 : shell_pgid w1 = shell_pgid w) by reflexivity.
    assert (A1 : shell_termattr w1 = shell_termattr w) by reflexivity.
    clearbody w1.
    destruct (is_background_command u) eqn:Bg; cbn [ui set_pgid set_jobid job j0].
    + unfold j0, job. rewrite Bg. run_m.
      split; [reflexivity|]. eexists. rewrite J1, store_at_last.
      split; [reflexivity|]. split; [reflexivity|]. split; [reflexivity|].
      split; [|split; [discriminate|intros _ _; auto]].
      rewrite T1, !control_calls_app. now rewrite <- app_assoc.
    + unfold j0 at 1, job at 1. cbn [ui set_pgid set_jobid is_background_command].
      rewrite Bg.
      assert (T : taken_by_run_in_foreground j0) by (left; reflexivity).
      pose proof (run_in_foreground_deep j0 false w1 T) as D.
      unfold bind at 1.
      destruct (run_in_foreground (Some j0) false w1) as [[r p] w'|code w'| |];
        [|auto|exact D|exact D].
      destruct D as (_ & J & _ & j' & t & -> & SJ & Tr & C & _).
      run_m. split; [reflexivity|]. exists j'.
      rewrite J, J1, store_at_last.
      split; [reflexivity|]. unfold same_job in SJ.
      split; [rewrite SJ; reflexivity|]. split; [rewrite SJ; reflexivity|].
      split; [|split; [discriminate|discriminate]].
      rewrite Tr, T1, !control_calls_app, C. unfold foreground_calls.
      rewrite S1, A1. cbn [andb app]. now rewrite <- !app_assoc.
  - cbn [negb]. unfold ret at 1. unfold bind at 1.
    set (w1 := set_trace _ _).
    assert (T1 : trace w1 = (trace w ++ [Fork])%list) by reflexivity.
    assert (J1 : jobs w1 = (jobs w ++ [set_jobid job id])%list) by reflexivity.
    clearbody w1.
    destruct (job_wait_deep j0 w1) as (j' & t & E & SJ & C & _).
    rewrite (bind_Ret _ _ _ _ _ E). run_m.
    split; [reflexivity|]. exists j'. rewrite J1, store_at_last.
    split; [reflexivity|]. unfold same_job in SJ.
    split; [rewrite SJ; reflexivity|]. split; [rewrite SJ; reflexivity|].
    split; [|split; [reflexivity|discriminate]].
    rewrite T1, <- app_assoc, !control_calls_app, C. reflexivity.
Qed.

(** X15.  exec_job on the job made from a user input with at least one
    command puts the job at the end of the table and forks once.  If fork
    fails the shell ends with exit(EXIT_FAILURE).  In the child, launch_child
    is called with the first command of the input, the process group 0, and
    as a foreground process unless the input is a background command.  In
    the parent exec_job returns 0, or ends the shell with exit(EXIT_FAILURE)
    from run_in_foreground.  When it returns, the new job has the process id
    of the child as its process group, and what was asked of the operating
    system, the messages left out, is: fork; in a shell that is not
    interactive one waitpid with WUNTRACED, after which last_exit_code is the
    exit code of the job; in an interactive shell setpgid for the child,
    nothing more for a background command, whose job is then RUNNING in the
    background with last_exit_code as it was, and for a foreground one the
    calls of run_in_foreground. *)
Theorem exec_job_forks (u : user_input_t) (w : world) :
  commands u <> [] ->
  let pid := ret_val (os w (trace w) Fork) in
  match exec_job (jobs_create (Some u)) w with
  | Ret r w' =>
      0 < pid /\ r = 0 /\
      exists j',
        jobs w' = (jobs w ++ [j'])%list /\ ui j' = u /\ pgid j' = pid /\
        control_calls (trace w') =
          (control_calls (trace w) ++ exec_job_calls w u pid)%list /\
        (interactive w = false -> last_exit_code w' = exitcode j') /\
        (interactive w = true -> is_background_command u = true ->
           status j' = RUNNING /\ is_in_bg j' = true /\
           last_exit_code w' = last_exit_code w)
  | Exit code _ =>
      code = EXIT_FAILURE /\
      (pid < 0 \/
       (0 < pid /\ interactive w = true /\ is_background_command u = false))
  | InChild cmd pgrp fg _ =>
      pid = 0 /\ pgrp = 0 /\ fg = negb (is_background_command u) /\
      hd_error (commands u) = Some cmd
  | Fault _ => False
  end.
Proof.
  intros NE pid.
  destruct (Z.lt_trichotomy pid 0) as [Neg|[Zero|Pos]].
  3:{ pose proof (exec_job_parent u w NE Pos) as H. fold pid in H.
      destruct (exec_job (jobs_create (Some u)) w) as [r w'|code w'| |];
        [|destruct H as (Hc & Hi & Hb)|destruct H|destruct H].
      - split; [exact Pos|exact H].
      - split; [exact Hc|]. right. auto. }
  all: cbn [jobs_create]; unfold exec_job;
    set (job := mk_job u NEW 0 0 0 0 0 false);
    destruct (jobs_insert_returns job w) as (id & E);
    rewrite (bind_Ret _ _ _ _ _ E); clear E;
    change (0 <? 0) with false; cbv iota;
    unfold bind at 1; unfold get; cbn [jobs set_jobs];
    rewrite last_job_snoc;
    cbn [ui set_jobid job];
    destruct (commands u) as [|cmd cmds] eqn:Cm; [congruence|];
    rewrite bind_sys; cbn [os trace set_jobs]; fold pid.
  - assert (P1 : (pid <? 0) = true) by (apply Z.ltb_lt; lia).
    rewrite P1. run_m. auto.
  - rewrite Zero. cbn [Z.ltb Z.eqb Z.compare]. run_m. auto.
Qed.

(** X15 at the line [false] in a script, whose child exits with status 3. *)
Lemma exec_job_forks_witness :
  commands (ui_of "false" false) <> [] /\
  let u := ui_of "false" false in
  let w := world_script in
  let pid := ret_val (os w (trace w) Fork) in
  match exec_job (jobs_create (Some u)) w with
  | Ret r w' =>
      0 < pid /\ r = 0 /\
      exists j',
        jobs w' = (jobs w ++ [j'])%list /\ ui j' = u /\ pgid j' = pid /\
        control_calls (trace w') =
          (control_calls (trace w) ++ exec_job_calls w u pid)%list /\
        (interactive w = false -> last_exit_code w' = exitcode j') /\
        (interactive w = true -> is_background_command u = true ->
           status j' = RUNNING /\ is_in_bg j' = true /\
           last_exit_code w' = last_exit_code w)
  | Exit code _ =>
      code = EXIT_FAILURE /\
      (pid < 0 \/
       (0 < pid /\ interactive w = true /\ is_background_command u = false))
  | InChild cmd pgrp fg _ =>
      pid = 0 /\ pgrp = 0 /\ fg = negb (is_background_command u) /\
      hd_error (commands u) = Some cmd
  | Fault _ => False
  end.
Proof.
  split.
  - discriminate.
  - apply (exec_job_forks (ui_of "false" false) world_script). discriminate.
Defined.

Example exec_job_in_script :
  match exec_job (jobs_create (Some (ui_of "false" false))) world_script with
  | Ret r w' =>
      r = 0 /\ last_exit_code w' = 3 /\
      trace w' = [Fork; Waitpid 4242 WUNTRACED] /\
      map status (jobs w') = [EXITED]
  | _ => False
  end.
Proof. vm_compute. repeat split. Qed.

(** ** The arguments of a command, and echo *)

(** X16.  What echo prints for a word is the argument that launch_child
    hands to a program for the same word (each followed by a space, in
    echo), unless the word is $? with more characters after it: launch_child
    looks at the two characters $? only, echo at the whole word. *)
Theorem echo_prints_argv_word (w : world) (tok : string) :
  (forall c s, tok <> String "$" (String "?" (String c s))) ->
  echo_tokens [tok] w =
    Ret tt (set_trace w (trace w ++ [Dprintf STDOUT_FILENO (argv_word w tok);
                                     Dprintf STDOUT_FILENO " "])).
Proof.
  intro N.
  assert (F : forall (m : M unit) x,
            m w = Ret tt (set_trace w (trace w ++ [Dprintf STDOUT_FILENO x])) ->
            (m ;;; sys (Dprintf STDOUT_FILENO " ") ;;; ret tt) w =
              Ret tt (set_trace w (trace w ++ [Dprintf STDOUT_FILENO x;
                                               Dprintf STDOUT_FILENO " "]))).
  { intros m x E. unfold bind at 1. rewrite E. run_m.
    unfold set_trace. cbn [trace jobs last_exit_code interactive enable_debug
                            shell_pgid shell_termattr getenv os].
    now rewrite <- app_assoc. }
  cbn [echo_tokens]. apply F.
  destruct tok as [|a t]; [reflexivity|].
  destruct (Ascii.eqb a "$") eqn:Ea.
  2:{ destruct a as [[] [] [] [] [] [] [] []]; try reflexivity; discriminate Ea. }
  apply Ascii.eqb_eq in Ea. subst a. cbn [argv_word].
  destruct t as [|b t]; [reflexivity|].
  destruct (Ascii.eqb b "?") eqn:Eb.
  2:{ assert (Q : String.eqb (String b t) "?" = false).
      { cbn [String.eqb]. now rewrite Eb. }
      rewrite Q.
      destruct b as [[] [] [] [] [] [] [] []]; try reflexivity; discriminate Eb. }
  apply Ascii.eqb_eq in Eb. subst b.
  destruct t as [|c s]; [reflexivity|].
  exfalso. exact (N c s eq_refl).
Qed.

(** X16 at the word $HOME. *)
Lemma echo_prints_argv_word_witness :
  (forall c s, "$HOME" <> String "$" (String "?" (String c s))) /\
  echo_tokens ["$HOME"] world0 =
    Ret tt (set_trace world0 (trace world0 ++
              [Dprintf STDOUT_FILENO (argv_word world0 "$HOME");
               Dprintf STDOUT_FILENO " "])).
Proof.
  assert (N : forall c s, "$HOME" <> String "$" (String "?" (String c s)))
    by (intros c s; discriminate).
  split; [exact N|].
  exact (echo_prints_argv_word world0 "$HOME" N).
Defined.

(** The word [$?x]: a program gets the exit code, echo prints the value of
    the variable ?x. *)
Example exit_code_with_suffix :
  argv_word world0 "$?x" = "0" /\
  stdout_of (trace
    (match echo_tokens ["$?x"] world0 with
     | Ret _ w' => w'
     | _ => world0
     end)) = [""; " "].
Proof. split; reflexivity. Qed.

Lemma fmt_d_short (n : Z) :
  0 <= n <= 255 -> (String.length (fmt_d n) <= 3)%nat.
Proof.
  intro R.
  assert (F : forallb (fun k => (String.length (fmt_d (Z.of_nat k)) <=? 3)%nat)
                (seq 0 256) = true) by (vm_compute; reflexivity).
  rewrite forallb_forall in F.
  specialize (F (Z.to_nat n)). rewrite Z2Nat.id in F by lia.
  apply Nat.leb_le, F, in_seq. lia.
Qed.

(** X17.  As long as last_exit_code is an exit status (0 to 255), the
    eight bytes that launch_child allocates for $? are enough, and for a
    command with at least one component the argv handed to execvp has one
    entry for each component: the first component as it is, $? and $NAME
    never being replaced in the name of the program, and each other
    component replaced as a word of the command line. *)
Theorem build_argv_fits (w : world) (c0 : string) (rest : list string) :
  0 <= last_exit_code w <= 255 ->
  build_argv w (c0 :: rest) = Some (c0 :: map (argv_word w) rest) /\
  List.length (c0 :: map (argv_word w) rest) = List.length (c0 :: rest).
Proof.
  intro R. unfold build_argv.
  pose proof (fmt_d_short _ R) as S.
  assert (E : (7 <? String.length (fmt_d (last_exit_code w)))%nat = false)
    by (apply Nat.ltb_ge; lia).
  rewrite E, andb_false_r. split; [reflexivity|].
  simpl. now rewrite length_map.
Qed.

(** X17 at [echo $? $HOME] after a command that exited with status 3. *)
Lemma build_argv_fits_witness :
  0 <= last_exit_code (set_last_exit_code world0 3) <= 255 /\
  build_argv (set_last_exit_code world0 3) ["echo"; "$?"; "$HOME"] =
    Some ["echo"; "3"; ""].
Proof.
  assert (R : 0 <= last_exit_code (set_last_exit_code world0 3) <= 255)
    by (simpl; lia).
  split; [exact R|].
  exact (proj1 (build_argv_fits (set_last_exit_code world0 3) "echo" ["$?"; "$HOME"] R)).
Defined.


(** ** is_builtin *)

Lemma starts_with_eqb (a b : string) :
  starts_with a b && (String.length a =? String.length b)%nat = String.eqb a b.
Proof.
  revert b. induction a as [|x a IH]; intros [|y b]; try reflexivity.
  cbn [starts_with String.length String.eqb].
  change (S (String.length a) =? S (String.length b))%nat
    with (String.length a =? String.length b)%nat.
  rewrite <- andb_assoc, IH. reflexivity.
Qed.

Lemma position_range (tok : string) (names : list string) (i : Z) :
  position tok names i = -1 \/
  i <= position tok names i < i + Z.of_nat (List.length names).
Proof.
  revert i. induction names as [|n names IH]; intro i; [now left|].
  cbn [position List.length]. destruct (String.eqb tok n); [right; lia|].
  destruct (IH (i + 1)) as [H|H]; [now left|right; lia].
Qed.

Lemma find_builtin_position
    (builtin_cd builtin_pwd fg bg kill : callback_t) (tok : string) :
  find_builtin tok (builtins builtin_cd builtin_pwd fg bg kill) 0 NUM_BUILTINS =
    position tok builtin_names 0.
Proof.
  unfold builtins, NUM_BUILTINS, builtin_names.
  cbn [find_builtin position fst]. rewrite !starts_with_eqb. reflexivity.
Qed.

(** X18.  is_builtin looks at the first word of the line only, the words
    being separated by white space: it returns the index of that word among
    exit, cd, pwd, echo, jobs, fg, bg and kill, the word having to be the
    whole name, and -1 if it is none of them or the line has no word.  The
    ninth entry of the table, the comment mark, is never found: the result
    is at most 7. *)
Theorem is_builtin_first_word
    (builtin_cd builtin_pwd fg bg kill : callback_t) (buf : string) :
  let pos := is_builtin builtin_cd builtin_pwd fg bg kill (Some buf) in
  pos = match strtok_r buf BUILTIN_DELIMS with
        | Some (tok, _) => position tok builtin_names 0
        | None => -1
        end /\
  -1 <= pos <= 7.
Proof.
  cbv zeta. unfold is_builtin.
  destruct (strtok_r buf BUILTIN_DELIMS) as [[tok rest]|]; [|split; [reflexivity|lia]].
  rewrite find_builtin_position. split; [reflexivity|].
  assert (N : Z.of_nat (List.length builtin_names) = 8) by reflexivity.
  destruct (position_range tok builtin_names 0) as [H|H]; [lia|].
  rewrite N in H. lia.
Qed.

Example is_builtin_examples :
  is_builtin no_handler no_handler no_handler no_handler no_handler
    (Some "jobs -l") = 4 /\
  is_builtin no_handler no_handler no_handler no_handler no_handler
    (Some "jobs2") = -1 /\
  is_builtin no_handler no_handler no_handler no_handler no_handler
    (Some "# a comment") = -1.
Proof. repeat split. Qed.

(** ** The line that smash_main works on *)

Lemma rtrim_last (s : string) (c : ascii) :
  last_char (rtrim s) = Some c -> isspace c = false.
Proof.
  revert c. induction s as [|a s IH]; intros c H; [discriminate|].
  cbn [rtrim] in H. destruct (rtrim s) as [|x r] eqn:E.
  - destruct (isspace a) eqn:Sa; [discriminate|].
    simpl in H. now injection H as <-.
  - apply IH. exact H.
Qed.

Lemma rtrim_prefix (s : string) : exists ws, s = rtrim s ++ ws.
Proof.
  induction s as [|a s (ws & IH)]; [now exists EmptyString|].
  cbn [rtrim]. destruct (rtrim s) as [|x r] eqn:E.
  - destruct (isspace a).
    + exists (String a s). reflexivity.
    + exists ws. simpl in *. now rewrite <- IH.
  - exists ws. cbn [append] in *. now rewrite <- IH.
Qed.

Lemma has_char_app (c : ascii) (a b : string) :
  has_char c (a ++ b) = has_char c a || has_char c b.
Proof.
  induction a as [|x a IH]; [reflexivity|].
  cbn [append has_char]. now rewrite IH, orb_assoc.
Qed.

Lemma trim_start_suffix (s : string) :
  exists ws, s = ws ++ trim_start s /\ all_space ws = true.
Proof.
  induction s as [|a s (ws & IH & A)]; [now exists EmptyString|].
  cbn [trim_start]. destruct (isspace a) eqn:Sa.
  - exists (String a ws). cbn [append all_space]. rewrite Sa, A, <- IH. auto.
  - now exists EmptyString.
Qed.

Lemma trim_start_first (s : string) (c : ascii) :
  first_char (trim_start s) = Some c -> isspace c = false.
Proof.
  induction s as [|a s IH]; [discriminate|].
  cbn [trim_start]. destruct (isspace a) eqn:Sa; [exact IH|].
  simpl. now intros [= <-].
Qed.

Lemma last_char_app (a b : string) (c : ascii) :
  last_char (a ++ b) = Some c -> b <> EmptyString -> last_char b = Some c.
Proof.
  intros H N. induction a as [|x a IH]; [exact H|].
  apply IH. cbn [append last_char] in H.
  destruct (a ++ b) eqn:E; [|exact H].
  destruct a; [simpl in E; congruence|discriminate E].
Qed.

Lemma trim_start_last (s : string) (c : ascii) :
  last_char (trim_start s) = Some c -> last_char s = Some c.
Proof.
  induction s as [|a s IH]; [discriminate|].
  cbn [trim_start]. destruct (isspace a); [|auto].
  intro H. specialize (IH H). cbn [last_char].
  destruct s; [discriminate IH|exact IH].
Qed.

Lemma cut_comment_no_hash (s : string) : has_char "#" (cut_comment s) = false.
Proof.
  induction s as [|a s IH]; [reflexivity|].
  cbn [cut_comment]. destruct (Ascii.eqb a "#") eqn:E; [reflexivity|].
  cbn [has_char]. now rewrite E, IH.
Qed.

Lemma cut_comment_prefix (s : string) : exists post, s = cut_comment s ++ post.
Proof.
  induction s as [|a s (post & IH)]; [now exists EmptyString|].
  cbn [cut_comment]. destruct (Ascii.eqb a "#").
  - now exists (String a s).
  - exists post. cbn [append]. now rewrite <- IH.
Qed.

Lemma cut_comment_id (s : string) : has_char "#" s = false -> cut_comment s = s.
Proof.
  induction s as [|a s IH]; [reflexivity|].
  cbn [has_char cut_comment]. intro H. apply orb_false_iff in H as (E & H).
  now rewrite E, IH.
Qed.

Lemma cut_comment_first (s : string) (c : ascii) :
  first_char (cut_comment s) = Some c -> first_char s = Some c.
Proof.
  destruct s as [|a s]; [discriminate|].
  cbn [cut_comment]. destruct (Ascii.eqb a "#"); [discriminate|auto].
Qed.

Lemma trim_end_prefix (s : string) : exists ws, s = trim_end s ++ ws.
Proof.
  destruct s as [|a s]; [now exists EmptyString|].
  destruct (rtrim_prefix s) as (ws & E). exists ws.
  cbn [trim_end append]. now rewrite <- E.
Qed.

(** X19.  The line smash_main works on, cut out of the line read:
    it is a piece of the line read, after nothing but white space; it
    holds no comment mark and does not begin with white space; and when the
    line read holds no comment mark it does not end with white space
    either.  (Before a comment the white space stays: the line [exit #]
    becomes [exit] followed by a space.) *)
Theorem trimmed_is_the_command (buf : string) :
  (exists pre post,
     buf = pre ++ trimmed buf ++ post /\ all_space pre = true) /\
  has_char "#" (trimmed buf) = false /\
  (forall c, first_char (trimmed buf) = Some c -> isspace c = false) /\
  (has_char "#" buf = false ->
   forall c, last_char (trimmed buf) = Some c -> isspace c = false).
Proof.
  unfold trimmed. split; [|split; [|split]].
  - destruct (trim_end_prefix buf) as (ws1 & E1).
    destruct (trim_start_suffix (trim_end buf)) as (ws0 & E0 & A).
    destruct (cut_comment_prefix (trim_start (trim_end buf))) as (post & E2).
    exists ws0, (post ++ ws1). split; [|exact A].
    rewrite <- (append_assoc (cut_comment _)), <- E2.
    rewrite <- append_assoc, <- E0. exact E1.
  - apply cut_comment_no_hash.
  - intros c H. apply cut_comment_first in H. now apply trim_start_first in H.
  - intros NH c H.
    destruct (trim_end_prefix buf) as (ws1 & E1).
    destruct (trim_start_suffix (trim_end buf)) as (ws0 & E0 & _).
    assert (N2 : has_char "#" (trim_start (trim_end buf)) = false).
    { rewrite E1, has_char_app in NH. apply orb_false_iff in NH as (NH & _).
      rewrite E0, has_char_app in NH. now apply orb_false_iff in NH as (_ & NH). }
    rewrite (cut_comment_id _ N2) in H.
    destruct buf as [|a s]; [discriminate H|].
    cbn [trim_end trim_start] in H.
    destruct (isspace a) eqn:Sa.
    + apply trim_start_last in H. now apply rtrim_last in H.
    + cbn [last_char] in H. destruct (rtrim s) as [|x r] eqn:Er.
      * now injection H as <-.
      * apply (rtrim_last s). now rewrite Er.
Qed.

Example trimmed_examples :
  trimmed "  ls -l  " = "ls -l" /\
  trimmed "exit # bye" = "exit " /\
  trimmed "   # only a comment" = "".
Proof. repeat split. Qed.

Lemma all_space_app (a b : string) :
  all_space (a ++ b) = all_space a && all_space b.
Proof.
  induction a as [|x a IH]; [reflexivity|].
  cbn [append all_space]. now rewrite IH, andb_assoc.
Qed.

Lemma trim_start_all_space (ws s : string) :
  all_space ws = true -> trim_start (ws ++ s) = trim_start s.
Proof.
  induction ws as [|a ws IH]; [reflexivity|].
  cbn [all_space append trim_start]. intro H. apply andb_true_iff in H as (Sa & H).
  rewrite Sa. auto.
Qed.

Lemma rtrim_keeps (ws rest : string) (c : ascii) :
  isspace c = false -> exists r, rtrim (ws ++ String c rest) = ws ++ String c r.
Proof.
  intro N. induction ws as [|a ws (r & IH)].
  - cbn [append rtrim]. rewrite N. destruct (rtrim rest); eexists; reflexivity.
  - exists r. cbn [append rtrim]. rewrite IH.
    destruct ws; reflexivity.
Qed.

Lemma trimmed_comment (ws rest : string) :
  all_space ws = true -> trimmed (ws ++ String "#" rest) = EmptyString.
Proof.
  intro A. unfold trimmed.
  assert (E : exists r, trim_end (ws ++ String "#" rest) = ws ++ String "#" r).
  { destruct ws as [|a ws].
    - exists (rtrim rest). reflexivity.
    - destruct (rtrim_keeps ws rest "#" eq_refl) as (r & E).
      exists r. cbn [append trim_end]. now rewrite E. }
  destruct E as (r & ->). rewrite (trim_start_all_space _ _ A). reflexivity.
Qed.

Lemma trimmed_blank (ws : string) :
  all_space ws = true -> trimmed ws = EmptyString.
Proof.
  intro A. unfold trimmed.
  destruct (trim_end_prefix ws) as (x & E).
  rewrite E, all_space_app in A. apply andb_true_iff in A as (A & _).
  rewrite <- (append_nil_r (trim_end ws)).
  rewrite (trim_start_all_space _ _ A). reflexivity.
Qed.

(** X20.  A line of white space only, and a line whose first character
    after white space is the comment mark, are dropped by the main loop: the
    loop goes on to its next turn, no handler is called, no job is made, and
    nothing is asked of the operating system. *)
Theorem blank_and_comment_lines
    (builtin_cd builtin_pwd fg bg kill : callback_t)
    (ws rest : string) (w : world) :
  all_space ws = true ->
  smash_main_line builtin_cd builtin_pwd fg bg kill ws w = Ret None w /\
  smash_main_line builtin_cd builtin_pwd fg bg kill (ws ++ String "#" rest) w =
    Ret None w.
Proof.
  intro A. unfold smash_main_line.
  now rewrite (trimmed_blank ws A), (trimmed_comment ws rest A).
Qed.

(** X20 at an indented comment. *)
Lemma blank_and_comment_lines_witness :
  all_space "  " = true /\
  smash_main_line no_handler no_handler no_handler no_handler no_handler
    "  " world0 = Ret None world0 /\
  smash_main_line no_handler no_handler no_handler no_handler no_handler
    "  # exit" world0 = Ret None world0.
Proof.
  split; [reflexivity|].
  exact (blank_and_comment_lines no_handler no_handler no_handler no_handler
           no_handler "  " " exit" world0 eq_refl).
Defined.

(** ** What parse_input makes of a line *)












(** ** The exit codes stay exit codes *)

Lemma shell_ok_trace (w : world) (t : list call) :
  shell_ok w -> shell_ok (set_trace w t).
Proof. intro H. exact H. Qed.

Lemma builtin_exit_keeps : keeps_shell_ok builtin_exit.
Proof.
  intros cmd w r w' Ok. unfold builtin_exit.
  destruct cmd as [s|]; [|intros [= _ <-]; exact Ok].
  destruct ((String.length s =? 4)%nat && starts_with "exit" s); [discriminate|].
  intros [= _ <-]. exact Ok.
Qed.

Lemma builtin_echo_keeps : keeps_shell_ok builtin_echo.
Proof.
  intros cmd w r w' Ok. unfold builtin_echo.
  destruct cmd as [s|]; [|intros [= _ <-]; exact Ok].
  destruct (echo_tokens_spec (tokens BUILTIN_DELIMS (skip_word s)) w) as (calls & E & _).
  rewrite (bind_Ret _ _ _ _ _ E). run_m. intros [= _ <-]. exact Ok.
Qed.

Lemma jobs_list_from_keeps (P : job_t -> Prop) (nodes : list job_t) :
  forall (kept : list job_t) (w : world),
    jobs w = (kept ++ nodes)%list -> Forall P (jobs w) ->
    exists r w',
      jobs_list_from nodes (List.length kept) w = Ret r w' /\
      Forall P (jobs w') /\ last_exit_code w' = last_exit_code w.
Proof.
  induction nodes as [|j nodes IH]; intros kept w H Ok.
  - exists 0, w. simpl. auto.
  - cbn [jobs_list_from].
    destruct (print_job_returns j w) as (r & E & R & _).
    rewrite (bind_Ret _ _ _ _ _ E).
    set (w1 := set_trace w _) in *.
    destruct R as [R|R]; subst r; cbn [Z.eqb negb].
    2:{ exists (-1), w1. split; [reflexivity|]. split; [exact Ok|reflexivity]. }
    destruct (job_status_eqb (status j) EXITED || job_status_eqb (status j) ABORTED).
    + rewrite (bind_Ret _ _ _ _ _ (jobs_remove_at kept nodes j w1 H)).
      apply (IH kept (set_jobs w1 (kept ++ nodes)) eq_refl).
      cbn [jobs set_jobs]. rewrite H in Ok.
      apply Forall_app in Ok as (Ok1 & Ok2). inversion Ok2; subst.
      apply Forall_app. auto.
    + replace (S (List.length kept)) with (List.length (kept ++ [j]))
        by (rewrite length_app; simpl; lia).
      apply (IH (kept ++ [j])%list w1); [|exact Ok].
      change (jobs w1) with (jobs w). now rewrite H, <- app_assoc.
Qed.

Lemma builtin_jobs_keeps : keeps_shell_ok builtin_jobs.
Proof.
  intros cmd w r w' (Lc & Ok). unfold builtin_jobs, jobs_list.
  unfold bind at 2. unfold get.
  destruct (jobs_list_from_keeps exit_range (jobs w) [] w eq_refl Ok)
    as (r0 & w0 & E & Ok' & L).
  change (List.length (@nil job_t)) with O in E.
  unfold bind. rewrite E. unfold ret. intros [= _ <-].
  split; [now rewrite L|exact Ok'].
Qed.

Lemma builtin_fg_keeps : keeps_shell_ok builtin_fg.
Proof.
  intros cmd w r w' (Lc & Ok). unfold builtin_fg.
  destruct cmd as [s|]; [|intros [= _ <-]; split; assumption].
  destruct (starts_with "fg " s);
    [|rewrite usage_outcome; intros [= _ <-]; split; assumption].
  destruct ((errno_after (strtol (skipn_str 3 s) 0) =? EINVAL) ||
            negb (converted (strtol (skipn_str 3 s) 0)));
    [rewrite usage_outcome; intros [= _ <-]; split; assumption|].
  unfold bind at 1. unfold get.
  destruct (jobs_lookup_by_jobid _ (jobs w)) as [i|] eqn:Lk;
    [|intros [= _ <-]; split; assumption].
  destruct (lookup_Some_nth _ _ _ Lk) as (j & H & _). rewrite H.
  assert (Xj : exit_range j).
  { apply nth_error_In in H. revert H. apply Forall_forall. exact Ok. }
  destruct (taken_or_rejected j) as [T|Rj].
  - pose proof (run_in_foreground_deep j true w T) as D.
    unfold bind at 1.
    destruct (run_in_foreground (Some j) true w) as [[r1 p] w1|code w1| |];
      try discriminate.
    destruct D as (_ & J & _ & j' & t & -> & _ & _ & _ & X & L & _).
    run_m. intros [= _ <-]. split.
    + cbn [last_exit_code set_jobs]. specialize (X Xj).
      destruct L as [L|L]; rewrite L; [exact Lc|exact X].
    + cbn [jobs set_jobs]. rewrite J. apply store_at_Forall; [exact Ok|exact (X Xj)].
  - assert (E : run_in_foreground (Some j) true w = Ret (-1, Some j) w).
    { unfold run_in_foreground. destruct Rj as [(H1 & H2 & H3)|(H1 & H2)].
      - destruct (status j); try congruence; reflexivity.
      - rewrite H1, H2. reflexivity. }
    rewrite (bind_Ret _ _ _ _ _ E). run_m. intros [= _ <-].
    rewrite (store_at_same _ _ _ H). split; assumption.
Qed.

Lemma builtin_bg_keeps : keeps_shell_ok builtin_bg.
Proof.
  intros cmd w r w' (Lc & Ok). unfold builtin_bg.
  destruct cmd as [s|]; [|intros [= _ <-]; split; assumption].
  destruct (starts_with "bg " s);
    [|rewrite usage_outcome; intros [= _ <-]; split; assumption].
  destruct ((errno_after (strtol (skipn_str 3 s) 0) =? EINVAL) ||
            negb (converted (strtol (skipn_str 3 s) 0)));
    [rewrite usage_outcome; intros [= _ <-]; split; assumption|].
  unfold bind at 1. unfold get.
  destruct (jobs_lookup_by_jobid _ (jobs w)) as [i|] eqn:Lk;
    [|intros [= _ <-]; split; assumption].
  destruct (lookup_Some_nth _ _ _ Lk) as (j & H & _). rewrite H.
  assert (Xj : exit_range j).
  { apply nth_error_In in H. revert H. apply Forall_forall. exact Ok. }
  unfold run_in_background.
  destruct (negb (job_status_eqb (status j) NEW || job_status_eqb (status j) SUSPENDED)).
  - run_m. intros [= _ <-]. rewrite (store_at_same _ _ _ H). split; assumption.
  - run_m. destruct (ret_val _ <? 0); [discriminate|].
    simpl. intros [= _ <-]. split; [exact Lc|].
    cbn [jobs set_jobs set_trace]. apply store_at_Forall; [exact Ok|exact Xj].
Qed.

Lemma builtin_kill_keeps : keeps_shell_ok builtin_kill.
Proof.
  intros cmd w r w' Ok. unfold builtin_kill.
  destruct cmd as [s|]; [|intros [= _ <-]; exact Ok].
  destruct (starts_with "kill " s);
    [|rewrite usage_outcome; intros [= _ <-]; exact Ok].
  destruct (trim_start (skipn_str 5 s)) as [|c s1];
    [rewrite usage_outcome; intros [= _ <-]; exact Ok|].
  destruct (Ascii.eqb c "-") eqn:Ec.
  2:{ assert (G : forall (A : Type) (x y : A),
                match c with "-"%char => x | _ => y end = y).
      { intros A x y. destruct c as [[] [] [] [] [] [] [] []];
          try reflexivity; discriminate Ec. }
      rewrite G, usage_outcome. intros [= _ <-]; exact Ok. }
  apply Ascii.eqb_eq in Ec. subst c.
  destruct ((errno_after (strtol s1 0) =? EINVAL) || negb (converted (strtol s1 0)));
    [rewrite usage_outcome; intros [= _ <-]; exact Ok|].
  destruct ((errno_after (strtol (endp (strtol s1 0)) (errno_after (strtol s1 0))) =? EINVAL) ||
            negb (converted (strtol (endp (strtol s1 0)) (errno_after (strtol s1 0)))));
    [rewrite usage_outcome; intros [= _ <-]; exact Ok|].
  unfold bind at 1. unfold get.
  destruct (jobs_lookup_by_jobid _ (jobs w)) as [i|] eqn:Lk;
    [|run_m; intros [= _ <-]; exact Ok].
  destruct (nth_error (jobs w) i) as [j|]; [|intros [= _ <-]; exact Ok].
  destruct (negb (job_status_eqb (status j) SUSPENDED ||
                  job_status_eqb (status j) RUNNING));
    [rewrite usage_outcome; intros [= _ <-]; exact Ok|].
  run_m. destruct (ret_val _ <? 0); simpl; intros [= _ <-]; exact Ok.
Qed.

Lemma exec_job_keeps (u : user_input_t) (w : world) (r : Z) (w' : world) :
  shell_ok w -> exec_job (jobs_create (Some u)) w = Ret r w' -> shell_ok w'.
Proof.
  intros (Lc & Ok). cbn [jobs_create]. unfold exec_job.
  set (job := mk_job u NEW 0 0 0 0 0 false).
  destruct (jobs_insert_returns job w) as (id & E).
  rewrite (bind_Ret _ _ _ _ _ E). clear E.
  change (0 <? 0) with false. cbv iota.
  unfold bind at 1. unfold get. cbn [jobs set_jobs].
  rewrite last_job_snoc. cbn [ui set_jobid job].
  assert (Ok1 : Forall exit_range (jobs w ++ [set_jobid job id])).
  { apply Forall_app. split; [exact Ok|]. constructor; [|constructor].
    unfold exit_range. simpl. lia. }
  destruct (commands u) as [|cmd cmds] eqn:Cm.
  { intros [= _ <-]. split; assumption. }
  rewrite bind_sys. cbn [os trace set_jobs].
  set (pid := ret_val (os w (trace w) Fork)).
  destruct (pid <? 0); [discriminate|].
  destruct (pid =? 0); [discriminate|].
  cbn [interactive set_trace set_jobs].
  set (j0 := set_pgid (set_jobid job id) pid).
  assert (X0 : 0 <= exitcode j0 <= 255) by (simpl; lia).
  destruct (interactive w) eqn:Int.
  - cbn [negb]. rewrite bind_bind, bind_sys.
    cbn [trace set_trace]. unfold ret at 1. unfold bind at 1.
    set (w1 := set_trace _ _).
    assert (J1 : jobs w1 = (jobs w ++ [set_jobid job id])%list) by reflexivity.
    assert (L1 : last_exit_code w1 = last_exit_code w) by reflexivity.
    clearbody w1.
    destruct (is_background_command (ui j0)).
    + run_m. intros [= _ <-]. split; [cbn [last_exit_code set_jobs]; now rewrite L1|].
      cbn [jobs set_jobs]. rewrite J1, store_at_last.
      apply Forall_app. split; [exact Ok|]. constructor; [exact X0|constructor].
    + assert (T : taken_by_run_in_foreground j0) by (left; reflexivity).
      pose proof (run_in_foreground_deep j0 false w1 T) as D.
      unfold bind at 1.
      destruct (run_in_foreground (Some j0) false w1) as [[r1 p] w2|code w2| |];
        try discriminate.
      destruct D as (_ & J & _ & j' & t & -> & _ & _ & _ & X & L & _).
      run_m. intros [= _ <-]. split.
      * cbn [last_exit_code set_jobs]. specialize (X X0).
        destruct L as [L|L]; rewrite L; [now rewrite L1|exact X].
      * cbn [jobs set_jobs]. rewrite J, J1, store_at_last.
        apply Forall_app. split; [exact Ok|]. constructor; [exact (X X0)|constructor].
  - cbn [negb]. unfold ret at 1. unfold bind at 1.
    set (w1 := set_trace _ _).
    assert (J1 : jobs w1 = (jobs w ++ [set_jobid job id])%list) by reflexivity.
    clearbody w1.
    destruct (job_wait_deep j0 w1) as (j' & t & E & _ & _ & _ & _ & X & _).
    rewrite (bind_Ret _ _ _ _ _ E). run_m. intros [= _ <-].
    split; [exact (X X0)|]. rewrite J1, store_at_last.
    apply Forall_app. split; [exact Ok|]. constructor; [exact (X X0)|constructor].
Qed.

Lemma smash_wait_all_lec (turns : nat) (w : world) :
  match smash_wait_all turns w with
  | Ended (Ret _ w') => last_exit_code w' = last_exit_code w
  | _ => True
  end.
Proof.
  pose proof (smash_wait_all_spec turns w) as H.
  destruct (smash_wait_all turns w) as [[r w'| | |]| |]; auto.
  destruct H as (_ & L & _). exact L.
Qed.

(** X22.  In a shell in which last_exit_code and the exit code of every job
    of the table are between 0 and 255, this is still so after one turn of
    the main loop, whatever the line read, and after smash_wait_all,
    whatever the operating system reported, provided the handlers of cd and
    pwd, which are not part of this development, keep it so.  The shell
    starts out that way, with last_exit_code 0 and no job, so that $? always
    stands for at most three digits, and the eight bytes that launch_child
    allocates for it are never too few. *)
Theorem main_loop_keeps_exit_codes
    (builtin_cd builtin_pwd : callback_t) (buf : string) (turns : nat) (w : world) :
  keeps_shell_ok builtin_cd -> keeps_shell_ok builtin_pwd -> shell_ok w ->
  match smash_main_line builtin_cd builtin_pwd builtin_fg builtin_bg builtin_kill
          buf w with
  | Ret _ w' => shell_ok w'
  | _ => True
  end /\
  match smash_wait_all turns w with
  | Ended (Ret _ w') => shell_ok w'
  | _ => True
  end.
Proof.
  intros Kcd Kpwd Ok. split.
  - unfold smash_main_line.
    destruct (String.length (trimmed buf) =? 0)%nat; [exact Ok|].
    set (line := trimmed buf).
    set (pos := is_builtin builtin_cd builtin_pwd builtin_fg builtin_bg builtin_kill
                  (Some line)).
    destruct (0 <=? pos) eqn:P.
    + assert (K : keeps_shell_ok
                    (callback builtin_cd builtin_pwd builtin_fg builtin_bg builtin_kill pos)).
      { apply Z.leb_le in P.
        assert (R : pos <= 7).
        { subst pos. unfold is_builtin.
          destruct (strtok_r line BUILTIN_DELIMS) as [[tok rest]|]; [|lia].
          rewrite find_builtin_position.
          assert (N : Z.of_nat (List.length builtin_names) = 8) by reflexivity.
          destruct (position_range tok builtin_names 0) as [H|H]; [lia|].
          rewrite N in H. lia. }
        assert (C : pos = 0 \/ pos = 1 \/ pos = 2 \/ pos = 3 \/ pos = 4 \/
                    pos = 5 \/ pos = 6 \/ pos = 7) by lia.
        clearbody pos.
        destruct C as [->|[->|[->|[->|[->|[->|[->| ->]]]]]]]; unfold callback; simpl.
        - exact builtin_exit_keeps.
        - exact Kcd.
        - exact Kpwd.
        - exact builtin_echo_keeps.
        - exact builtin_jobs_keeps.
        - exact builtin_fg_keeps.
        - exact builtin_bg_keeps.
        - exact builtin_kill_keeps. }
      unfold bind.
      destruct (callback _ _ _ _ _ pos (Some line) w) as [r w'| | |] eqn:E; try exact I.
      unfold ret. exact (K _ _ _ _ Ok E).
    + destruct (parse_input (Some line)) as [|u|]; [exact Ok| |exact I].
      cbn [jobs_create]. unfold bind.
      destruct (exec_job (Some (mk_job u NEW 0 0 0 0 0 false)) w) as [r w'| | |] eqn:E;
        try exact I.
      assert (Ok' : shell_ok w') by exact (exec_job_keeps u w r w' Ok E).
      destruct (r <? 0); exact Ok'.
  - pose proof (smash_wait_all_lec turns w) as L.
    destruct Ok as (Lc & Ok).
    assert (S : forall j st w0, exit_range j ->
              exists j' w1,
                job_update_status (Some j) st w0 = Ret (0, Some j') w1 /\ exit_range j').
    { intros j st w0 Xj.
      destruct (job_update_status_deep j st w0) as (j' & t & E & _ & _ & _ & _ & X & _).
      exists j'. eexists. split; [exact E|exact (X Xj)]. }
    pose proof (smash_wait_all_keeps exit_range S turns w Ok) as F.
    destruct (smash_wait_all turns w) as [[r w'| | |]| |]; auto.
    split; [now rewrite L|exact F].
Qed.

(** X22 at the line [false], run in the foreground, whose child exits with
    status 3. *)
Lemma main_loop_keeps_exit_codes_witness :
  keeps_shell_ok no_handler /\ keeps_shell_ok no_handler /\ shell_ok world1 /\
  match smash_main_line no_handler no_handler builtin_fg builtin_bg builtin_kill
          "false" world1 with
  | Ret _ w' => shell_ok w'
  | _ => True
  end /\
  match smash_wait_all 1 world1 with
  | Ended (Ret _ w') => shell_ok w'
  | _ => True
  end.
Proof.
  assert (K : keeps_shell_ok no_handler).
  { intros cmd w r w' Ok E. injection E as _ <-. exact Ok. }
  assert (Ok : shell_ok world1).
  { split; [simpl; lia|constructor]. }
  split; [exact K|]. split; [exact K|]. split; [exact Ok|].
  exact (main_loop_keeps_exit_codes no_handler no_handler "false" 1 world1 K K Ok).
Defined.

Example false_sets_exit_code :
  match smash_main_line no_handler no_handler builtin_fg builtin_bg builtin_kill
          "false" world1 with
  | Ret None w' => last_exit_code w' = 3 /\ map status (jobs w') = [EXITED]
  | _ => False
  end.
Proof. vm_compute. repeat split. Qed.

(** ** Redirections *)

(** X23.  When parse_input returns a Pipeline, append_stdout of each of its
    commands is set exactly when a redirection with >> is among those the
    command is read as, and redirect_stdout is the path of the last
    redirection of standard output among them, be it with >> or with >.  So
    a redirection with >> sets append_stdout, and no later token clears it:
    a later redirection with > changes redirect_stdout only.  (launch_child
    opens the file that redirect_stdout names for appending whenever
    append_stdout is set.) *)
Theorem parse_input_append (s : string) (u : user_input_t) :
  parse_input (Some s) = PInput u ->
  Forall2
    (fun c text =>
       exists its,
         reading (tokens COMPONENT_DELIMS text) = Some its /\
         append_stdout c = appends its /\
         redirect_stdout c = last_path to_stdout its None)
    (commands u) (tokens COMMAND_DELIMS s).
Proof.
  unfold parse_input. rewrite parse_commands_reading.
  destruct (read_line (tokens COMMAND_DELIMS s)) as [cs|] eqn:R; [|discriminate].
  intros [= <-]. cbn [commands app].
  apply read_line_commands in R.
  induction R as [|c text cs texts H R IH]; constructor; [|exact IH].
  unfold read_command in H.
  destruct (reading (tokens COMPONENT_DELIMS text)) as [its|]; [|discriminate].
  injection H as <-. exists its. split; [reflexivity|].
  rewrite fold_items_appends.
  destruct (fold_items_paths its (new_command text)) as (P1 & _).
  split; [reflexivity|exact P1].
Qed.

(** X23 at the line [ls >>a >b]: append_stdout is set, and the file is b. *)
Lemma parse_input_append_witness :
  let s := "ls >>a >b" in
  let u := mk_user_input s [mk_command s ["ls"] (Some "b") true None None] false in
  parse_input (Some s) = PInput u /\
  Forall2
    (fun c text =>
       exists its,
         reading (tokens COMPONENT_DELIMS text) = Some its /\
         append_stdout c = appends its /\
         redirect_stdout c = last_path to_stdout its None)
    (commands u) (tokens COMMAND_DELIMS s).
Proof.
  split; [reflexivity|].
  exact (parse_input_append "ls >>a >b" _ eq_refl).
Defined.

(** What [ls >>a >b] is read as, and what [ls >a >> b] is. *)
Example reading_append_then_truncate :
  reading (tokens COMPONENT_DELIMS "ls >>a >b") =
    Some [Word "ls"; Redirection OpAppend "a"; Redirection OpOut "b"] /\
  appends [Word "ls"; Redirection OpAppend "a"; Redirection OpOut "b"] = true /\
  reading (tokens COMPONENT_DELIMS "ls >a >> b") =
    Some [Word "ls"; Redirection OpOut "a"; Redirection OpAppend "b"] /\
  reading (tokens COMPONENT_DELIMS "ls >a") =
    Some [Word "ls"; Redirection OpOut "a"] /\
  appends [Word "ls"; Redirection OpOut "a"] = false.
Proof. repeat split. Qed.

Example append_then_truncate :
  parse_input (Some "ls >>a >b") =
    PInput (mk_user_input "ls >>a >b"
              [mk_command "ls >>a >b" ["ls"] (Some "b") true None None] false).
Proof. reflexivity. Qed.

Example truncate_alone :
  parse_input (Some "ls >a") =
    PInput (mk_user_input "ls >a"
              [mk_command "ls >a" ["ls"] (Some "a") false None None] false).
Proof. reflexivity. Qed.
